(** * Fuzzy-Matcher: a shallow embedding of the matching engine

    The development follows the Python sources of [matcher/engine]:
    - [name_normalizer.py]  (module [NameNormalizer]),
    - [matcher.py]          (modules [Scoring] and [MatchEngine]),
    - [record_linkage_matcher.py] (module [RecordLinkage]),
    - [date_normalizer.py]  (module [DateNormalizer]),
    - [itr_categorizer.py]  (module [ItrCategorizer]),
    and, of [matcher], the raw log format of [file_loader.py] (module
    [FileLoader]).

    Conventions.
    - Python [int] is [Z]; Python [float] is an exact rational [Q]
      (weights, ratios and similarities are computed without rounding
      error; [int(round(x))] is round-half-to-even on the rational).
    - Python [str] is [string]; the text handled here is ASCII, and the
      services of [unicodedata] are an interface ([Unicodedata]). The
      phonetic code is also given on Unicode text (module [UnicodeNames]):
      there a [str] is a list of code points, and the functions of [str]
      and [re] that depend on the Unicode database are an interface
      ([UnicodeStr]).
    - Third-party libraries (rapidfuzz, metaphone, sentence-transformers,
      recordlinkage, pandas) are interfaces: type classes whose methods the
      code calls, with an [option] or [Exc] result where the call can raise.
    - A raised Python exception is a value of [Exc]; [try/except] is a
      match on it.
    - A table is a [DataFrame] with the default index that has the
      configured columns; a cell holds the Python value stored in it, so
      the [__date] cell of a row is the [datetime] or the [None] that the
      parser returned. *)

From Stdlib Require Import ZArith QArith Qminmax Qround Lqa Lia Bool Ascii String List DecimalString.
From stdpp Require Import base option list gmap strings sorting.

Local Open Scope string_scope.
Local Open Scope Z_scope.

(** ** Python numeric built-ins on exact rationals *)

Module PyNum.

(** [int(x)] on a float: truncation toward zero. *)
Definition py_int (x : Q) : Z := Qnum x ÷ Zpos (Qden x).

(** [round(x)] on a float: nearest integer, ties to the even one. *)
Definition py_round (x : Q) : Z :=
  let f := Qfloor x in
  match ((x - inject_Z f) ?= (1 # 2))%Q with
  | Lt => f
  | Gt => f + 1
  | Eq => if Z.even f then f else f + 1
  end.

End PyNum.

(** ** Exceptions *)

Inductive Exc (A : Type) : Type :=
  | Ok (a : A)
  | Raise (msg : string).
Arguments Ok {A} a.
Arguments Raise {A} msg.

#[global] Instance Exc_ret : MRet Exc := fun A a => Ok a.

#[global] Instance Exc_bind : MBind Exc := fun A B k m =>
  match m with
  | Ok a => k a
  | Raise e => Raise e
  end.

(** ** Python string built-ins (ASCII) *)

Module PyStr.

Definition code (c : ascii) : nat := nat_of_ascii c.

(** [str.isspace] / regex [\s] on ASCII: TAB..CR, FS..US and the space. *)
Definition is_space (c : ascii) : bool :=
  let n := code c in
  ((9 <=? n) && (n <=? 13) || (28 <=? n) && (n <=? 32))%nat.

Definition is_upper (c : ascii) : bool :=
  let n := code c in ((65 <=? n) && (n <=? 90))%nat.

Definition is_lower (c : ascii) : bool :=
  let n := code c in ((97 <=? n) && (n <=? 122))%nat.

Definition is_alpha (c : ascii) : bool := is_upper c || is_lower c.

Definition is_digit (c : ascii) : bool :=
  let n := code c in ((48 <=? n) && (n <=? 57))%nat.

Definition lower_char (c : ascii) : ascii :=
  if is_upper c then ascii_of_nat (code c + 32) else c.

Definition upper_char (c : ascii) : ascii :=
  if is_lower c then ascii_of_nat (code c - 32) else c.

Fixpoint map_str (f : ascii -> ascii) (s : string) : string :=
  match s with
  | EmptyString => EmptyString
  | String c s' => String (f c) (map_str f s')
  end.

Definition lower (s : string) : string := map_str lower_char s.

Fixpoint lstrip (s : string) : string :=
  match s with
  | EmptyString => EmptyString
  | String c s' => if is_space c then lstrip s' else s
  end.

Fixpoint rstrip (s : string) : string :=
  match s with
  | EmptyString => EmptyString
  | String c s' =>
      match rstrip s' with
      | EmptyString => if is_space c then EmptyString else String c EmptyString
      | r => String c r
      end
  end.

Definition strip (s : string) : string := rstrip (lstrip s).

(** Python truthiness of a string: [not s] is [is_empty s]. *)
Definition is_empty (s : string) : bool :=
  match s with EmptyString => true | _ => false end.

Definition nonempty (s : string) : bool := negb (is_empty s).

(** [re.sub(r"[class]+", " ", s)]: every maximal run of characters of the
    class becomes one space. [in_run] tells that the previous character
    was of the class. *)
Fixpoint sub_runs (cls : ascii -> bool) (in_run : bool) (s : string) : string :=
  match s with
  | EmptyString => EmptyString
  | String c s' =>
      if cls c
      then (if in_run then sub_runs cls true s'
            else String " " (sub_runs cls true s'))
      else String c (sub_runs cls false s')
  end.

(** [s[:n]]. *)
Fixpoint slice_to (n : nat) (s : string) : string :=
  match n, s with
  | S n', String c s' => String c (slice_to n' s')
  | _, _ => EmptyString
  end.

Definition len (s : string) : Z := Z.of_nat (String.length s).

Fixpoint of_list (l : list ascii) : string :=
  match l with
  | [] => EmptyString
  | c :: l' => String c (of_list l')
  end.

Fixpoint to_list (s : string) : list ascii :=
  match s with
  | EmptyString => []
  | String c s' => c :: to_list s'
  end.

End PyStr.

(** ** name_normalizer.py *)

(** The three services of [unicodedata] that [strip_accents] uses. *)
Class Unicodedata := {
  normalize_NFD : string -> string;
  normalize_NFC : string -> string;
  category_is_Mn : ascii -> bool
}.

(** On ASCII text both normal forms are the identity and no character is a
    combining mark. *)
Definition ascii_unicodedata : Unicodedata := {|
  normalize_NFD := fun s => s;
  normalize_NFC := fun s => s;
  category_is_Mn := fun _ => false
|}.

Module NameNormalizer.
Import PyStr.

Section WithUnicodedata.
Context {U : Unicodedata}.

Definition strip_accents (text : string) : string :=
  let text := normalize_NFD text in
  let text := of_list (List.filter (fun ch => negb (category_is_Mn ch)) (to_list text)) in
  normalize_NFC text.

(** The class [[\.,;:!\?\-_/\\]]. *)
Definition is_punct (c : ascii) : bool :=
  existsb (Ascii.eqb c)
    ["."; ","; ";"; ":"; "!"; "?"; "-"; "_"; "/"; "\"]%char.

Definition basic_clean (text : string) : string :=
  let text := lower (strip text) in
  let text := sub_runs is_punct false text in
  let text := sub_runs is_space false text in
  strip text.

(** The inner function [code] of [soundex_code]: the digit of a letter,
    [None] for the empty string it returns on an unmapped one. *)
Definition soundex_digit (ch : ascii) : option ascii :=
  if existsb (Ascii.eqb ch) ["b"; "f"; "p"; "v"]%char then Some "1"%char
  else if existsb (Ascii.eqb ch) ["c"; "g"; "j"; "k"; "q"; "s"; "x"; "z"]%char then Some "2"%char
  else if existsb (Ascii.eqb ch) ["d"; "t"]%char then Some "3"%char
  else if Ascii.eqb ch "l" then Some "4"%char
  else if existsb (Ascii.eqb ch) ["m"; "n"]%char then Some "5"%char
  else if Ascii.eqb ch "r" then Some "6"%char
  else None.

(** The loop over [digits]: a digit is kept when it is non-empty and
    differs from the code of the previous letter. *)
Fixpoint soundex_filter (prev : option ascii) (digits : list (option ascii)) : list ascii :=
  match digits with
  | [] => []
  | d :: rest =>
      match d with
      | Some x =>
          if bool_decide (d = prev) then soundex_filter d rest
          else x :: soundex_filter d rest
      | None => soundex_filter d rest
      end
  end.

(** [soundex_code] on ASCII text, where [isalpha] and [upper] are those of
    the ASCII letters and [upper] gives one character; the function on
    every text is [UnicodeNames.soundex_code], and the two agree on ASCII
    text (Lemma [soundex_code_ascii]). *)
Definition soundex_code (name : string) : string :=
  if is_empty name then ""
  else
    let name := basic_clean (strip_accents name) in
    match name with
    | EmptyString => ""
    | String c0 tail =>
        let first_letter := upper_char c0 in
        let digits := soundex_digit <$> List.filter is_alpha (to_list tail) in
        let filtered := soundex_filter None digits in
        let code_str := String first_letter (of_list filtered) in
        slice_to 4 (code_str ++ "000")
    end.

(** [re.sub(r"(.)\1{2,}", r"\1\1", text)]: a run of three or more equal
    characters shrinks to two; [.] does not match a newline. [prev] is
    the character of the current run, [twice] tells that two of it
    have been written. *)
Fixpoint squeeze_from (prev : option ascii) (twice : bool) (text : string) : string :=
  match text with
  | EmptyString => EmptyString
  | String c rest =>
      if Ascii.eqb c "010" then String c (squeeze_from None false rest)
      else if bool_decide (prev = Some c)
      then (if twice then squeeze_from prev true rest
            else String c (squeeze_from prev true rest))
      else String c (squeeze_from (Some c) false rest)
  end.

Definition squeeze_repeats (text : string) : string := squeeze_from None false text.

(** [text.split()]: the maximal runs of characters that are not white
    space. [cur] is the current run, reversed. *)
Fixpoint split_from (cur : list ascii) (text : string) : list string :=
  match text with
  | EmptyString => match cur with [] => [] | _ => [of_list (rev cur)] end
  | String c rest =>
      if is_space c
      then match cur with
           | [] => split_from [] rest
           | _ => of_list (rev cur) :: split_from [] rest
           end
      else split_from (c :: cur) rest
  end.

Definition split (text : string) : list string := split_from [] text.

(** [sep.join(parts)] *)
Fixpoint join (sep : string) (parts : list string) : string :=
  match parts with
  | [] => ""
  | [p] => p
  | p :: rest => p ++ sep ++ join sep rest
  end.

Definition COMPOUND_SURNAME_PREFIXES : list string :=
  ["van"; "der"; "de"; "la"; "del"; "di"; "da"; "dos"; "el"; "al"; "abu"].

(** The [while] loop of [normalize_component]: a prefix that is not the
    last part takes the next part with it. *)
Fixpoint join_compound (parts : list string) : list string :=
  match parts with
  | [] => []
  | [p] => [p]
  | p :: ((q :: rest') as rest) =>
      if bool_decide (p ∈ COMPOUND_SURNAME_PREFIXES)
      then (p ++ " " ++ q) :: join_compound rest'
      else p :: join_compound rest
  end.

Definition normalize_component (text : string) (enable_compound : bool) : string :=
  if is_empty text then ""
  else
    let t := strip text in
    let t := strip_accents t in
    let t := squeeze_repeats t in
    let t := basic_clean t in
    if is_empty t then ""
    else if enable_compound
    then let parts := split t in
         if (1 <? length parts)%nat then join " " (join_compound parts) else t
    else t.

Definition FIRST_NAME_VARIANTS : list (string * string) :=
  [("mo", "mohamed"); ("mohammed", "mohamed"); ("muhammad", "mohamed");
   ("muhammed", "mohamed"); ("mohammad", "mohamed"); ("alex", "alexander");
   ("tony", "anthony"); ("mike", "michael"); ("mikey", "michael");
   ("tom", "thomas"); ("johnny", "john"); ("jon", "john")].

(** [d.get(k, default)] on a dictionary given by its items. *)
Fixpoint dict_get (d : list (string * string)) (k default : string) : string :=
  match d with
  | [] => default
  | (k', v) :: rest => if String.eqb k' k then v else dict_get rest k default
  end.

Definition canonical_first_name (first : string) : string :=
  if is_empty first then ""
  else let f := basic_clean (strip_accents first) in
       dict_get FIRST_NAME_VARIANTS f f.

End WithUnicodedata.

End NameNormalizer.

(** *** The phonetic code on Unicode text

    A Python [str] is a sequence of code points. The functions of
    [str], [re] and [unicodedata] whose result depends on the Unicode
    database are an interface; [s.lower()] and [s.upper()] are functions of
    the whole text, and can change its length. *)

Class UnicodeStr := {
  u_isspace : N -> bool;              (* [ch.isspace()], [\s], [strip()] *)
  u_isalpha : N -> bool;              (* [ch.isalpha()] *)
  u_lower : list N -> list N;         (* [s.lower()] *)
  u_upper : list N -> list N;         (* [s.upper()] *)
  u_normalize_NFD : list N -> list N;
  u_normalize_NFC : list N -> list N;
  u_category_is_Mn : N -> bool
}.

(** The code points of a literal of the source. *)
Definition codes (s : string) : list N := N_of_ascii <$> PyStr.to_list s.

Module UnicodeNames.
Local Open Scope list_scope.

Section WithUnicode.
Context {US : UnicodeStr}.

Fixpoint lstrip (s : list N) : list N :=
  match s with
  | [] => []
  | c :: s' => if u_isspace c then lstrip s' else s
  end.

Fixpoint rstrip (s : list N) : list N :=
  match s with
  | [] => []
  | c :: s' =>
      match rstrip s' with
      | [] => if u_isspace c then [] else [c]
      | r => c :: r
      end
  end.

Definition strip (s : list N) : list N := rstrip (lstrip s).

(** [re.sub(r"[class]+", " ", s)] *)
Fixpoint sub_runs (cls : N -> bool) (in_run : bool) (s : list N) : list N :=
  match s with
  | [] => []
  | c :: s' =>
      if cls c
      then (if in_run then sub_runs cls true s' else 32%N :: sub_runs cls true s')
      else c :: sub_runs cls false s'
  end.

Definition strip_accents (text : list N) : list N :=
  let text := u_normalize_NFD text in
  let text := List.filter (fun ch => negb (u_category_is_Mn ch)) text in
  u_normalize_NFC text.

(** The class [[\.,;:!\?\-_/\\]]. *)
Definition is_punct (c : N) : bool := bool_decide (c ∈ codes ".,;:!?-_/\").

Definition basic_clean (text : list N) : list N :=
  let text := u_lower (strip text) in
  let text := sub_runs is_punct false text in
  let text := sub_runs u_isspace false text in
  strip text.

Definition mapping : list (string * string) :=
  [("bfpv", "1"); ("cgjkqsxz", "2"); ("dt", "3"); ("l", "4"); ("mn", "5"); ("r", "6")].

(** The inner function [code]: the digit of the first entry of [mapping]
    whose letters have [ch], the empty text when there is none. *)
Definition code (ch : N) : list N :=
  match List.find (fun entry => bool_decide (ch ∈ codes (fst entry))) mapping with
  | Some entry => codes (snd entry)
  | None => []
  end.

(** The loop over [digits], with its variable [prev]. *)
Fixpoint soundex_filter (prev : list N) (digits : list (list N)) : list (list N) :=
  match digits with
  | [] => []
  | d :: rest =>
      if negb (bool_decide (d = [])) && negb (bool_decide (d = prev))
      then d :: soundex_filter d rest
      else soundex_filter d rest
  end.

Definition soundex_code (name : list N) : list N :=
  match name with
  | [] => []
  | _ =>
      let name := basic_clean (strip_accents name) in
      match name with
      | [] => []
      | c0 :: tail =>
          let first_letter := u_upper [c0] in
          let digits := code <$> List.filter u_isalpha tail in
          let filtered := soundex_filter [] digits in
          let code_str := first_letter ++ concat filtered in
          take 4 (code_str ++ codes "000")
      end
  end.

End WithUnicode.

End UnicodeNames.

(** Python on ASCII text, for examples: the characters from 128 on are
    left alone, and are neither space nor letter. *)
Definition on_ascii {A} (f : ascii -> A) (other : A) (c : N) : A :=
  if (c <? 128)%N then f (ascii_of_N c) else other.

Definition ascii_unicode_str : UnicodeStr := {|
  u_isspace := on_ascii PyStr.is_space false;
  u_isalpha := on_ascii PyStr.is_alpha false;
  u_lower := fun s => (fun c => on_ascii (fun a => N_of_ascii (PyStr.lower_char a)) c c) <$> s;
  u_upper := fun s => (fun c => on_ascii (fun a => N_of_ascii (PyStr.upper_char a)) c c) <$> s;
  u_normalize_NFD := fun s => s;
  u_normalize_NFC := fun s => s;
  u_category_is_Mn := fun _ => false
|}.

(** ** date_normalizer.py *)

(** *** Calendar dates of [datetime]

    A [date] holds year, month and day; a [pydate] is one that the
    constructor [datetime.date(y, m, d)] accepts (it raises [ValueError]
    otherwise), and a [datetime] adds a time of day. *)

Module Calendar.

Record date := mkdate { year : Z; month : Z; day : Z }.

#[global] Instance date_eq_dec : EqDecision date.
Proof. solve_decision. Defined.

Definition is_leap (y : Z) : bool :=
  (y mod 4 =? 0) && (negb (y mod 100 =? 0) || (y mod 400 =? 0)).

Definition days_in_month (y m : Z) : Z :=
  if m =? 2 then (if is_leap y then 29 else 28)
  else if (m =? 4) || (m =? 6) || (m =? 9) || (m =? 11) then 30
  else 31.

Definition valid_date (d : date) : bool :=
  (1 <=? year d) && (year d <=? 9999) &&
  (1 <=? month d) && (month d <=? 12) &&
  (1 <=? day d) && (day d <=? days_in_month (year d) (month d)).

Record pydate := mkpydate { the_date : date; date_ok : valid_date the_date = true }.

(** Microseconds since midnight; 0 is [datetime.min.time()]. *)
Record datetime := mkdatetime { date_part : pydate; time_part : Z }.

(** [datetime.date(y, m, d)]: [None] stands for the [ValueError]. *)
Definition new_date (y m d : Z) : option pydate :=
  match bool_dec (valid_date (mkdate y m d)) true with
  | left H => Some (mkpydate (mkdate y m d) H)
  | right _ => None
  end.

(** [datetime(y, m, d)]: midnight of that day. *)
Definition new_datetime (y m d : Z) : option datetime :=
  (fun p => mkdatetime p 0) <$> new_date y m d.

(** [dt.date()] as its three fields. *)
Definition ymd (dt : datetime) : date := the_date (date_part dt).

Definition days_before_year (y : Z) : Z :=
  let y := y - 1 in y * 365 + y / 4 - y / 100 + y / 400.

Fixpoint days_before_month (y : Z) (m : nat) : Z :=
  match m with
  | O => 0
  | S m' => days_before_month y m' + days_in_month y (Z.of_nat m)
  end.

(** [date.toordinal()]: 1 for 0001-01-01. *)
Definition toordinal (d : date) : Z :=
  days_before_year (year d) + days_before_month (year d) (Z.to_nat (month d - 1)) + day d.

(** [date.fromordinal(n)], after CPython's [_ord2ymd]; the days before a
    month are counted with the month lengths of the year found. *)
Definition fromordinal (n : Z) : option pydate :=
  let n := n - 1 in
  let n400 := n / 146097 in let n := n mod 146097 in
  let n100 := n / 36524 in let n := n mod 36524 in
  let n4 := n / 1461 in let n := n mod 1461 in
  let n1 := n / 365 in let n := n mod 365 in
  let y := n400 * 400 + 1 + n100 * 100 + n4 * 4 + n1 in
  if (n1 =? 4) || (n100 =? 4) then new_date (y - 1) 12 31
  else
    let m := Z.shiftr (n + 50) 5 in
    let preceding := days_before_month y (Z.to_nat (m - 1)) in
    if preceding >? n
    then new_date y (m - 1) (n - (preceding - days_in_month y (m - 1)) + 1)
    else new_date y m (n - preceding + 1).

(** [date.max.toordinal()], the ordinal of 9999-12-31. *)
Definition MAXORDINAL : Z := 3652059.

(** [d + timedelta(days)] on the ordinal of [d]: an [OverflowError] when
    the result is outside the calendar. *)
Definition add_days (ordinal days : Z) : Exc Z :=
  let o := ordinal + days in
  if (0 <? o) && (o <=? MAXORDINAL) then Ok o else Raise "OverflowError".

Definition digit_char (k : Z) : ascii := ascii_of_nat (48 + Z.to_nat k).

Definition pad2 (n : Z) (rest : string) : string :=
  String (digit_char (n / 10 mod 10)) (String (digit_char (n mod 10)) rest).

Definition pad4 (n : Z) (rest : string) : string :=
  String (digit_char (n / 1000 mod 10)) (String (digit_char (n / 100 mod 10)) (pad2 n rest)).

(** [date.isoformat()]: YYYY-MM-DD, zero-padded. *)
Definition isoformat (d : date) : string :=
  pad4 (year d) (String "-" (pad2 (month d) (String "-" (pad2 (day d) "")))).

End Calendar.

(** *** Regular expressions, as backtracking matchers

    A matcher lists the ways a pattern matches a prefix of the text, in the
    order the regex engine tries them; the first is the match [re.match]
    reports. *)

Module Regex.
Import PyStr.

Definition Matcher (A : Type) : Type := string -> list (A * string).

Definition m_ret {A} (a : A) : Matcher A := fun s => [(a, s)].

Definition m_fail {A} : Matcher A := fun _ => [].

Definition m_bind {A B} (m : Matcher A) (k : A -> Matcher B) : Matcher B :=
  fun s => flat_map (fun ar => k (fst ar) (snd ar)) (m s).

Definition m_alt {A} (m1 m2 : Matcher A) : Matcher A :=
  fun s => (m1 s ++ m2 s)%list.

Definition m_char (p : ascii -> bool) : Matcher ascii :=
  fun s =>
    match s with
    | String c r => if p c then [(c, r)] else []
    | EmptyString => []
    end.

Definition digit_val (c : ascii) : Z := Z.of_nat (code c) - 48.

(** [\d] *)
Definition m_digit : Matcher Z :=
  m_bind (m_char is_digit) (fun c => m_ret (digit_val c)).

(** [\d\d] *)
Definition m_digit2 : Matcher Z :=
  m_bind m_digit (fun a => m_bind m_digit (fun b => m_ret (10 * a + b))).

(** [\d{4}] *)
Definition m_digit4 : Matcher Z :=
  m_bind m_digit2 (fun a => m_bind m_digit2 (fun b => m_ret (100 * a + b))).

(** [\d{1,2}], greedy. *)
Definition m_digit12 : Matcher Z := m_alt m_digit2 m_digit.

(** [\s*], greedy: the longest run first, then each shorter one. *)
Fixpoint m_spaces (s : string) : list (unit * string) :=
  match s with
  | String c r => if is_space c then (m_spaces r ++ [(tt, s)])%list else [(tt, s)]
  | EmptyString => [(tt, s)]
  end.

(** [\s+], greedy. *)
Definition m_spaces1 : Matcher unit :=
  m_bind (m_char is_space) (fun _ => m_spaces).

(** A literal character under [re.IGNORECASE]. *)
Definition m_lit (c : ascii) : Matcher unit :=
  m_bind (m_char (fun x => Ascii.eqb (lower_char x) (lower_char c))) (fun _ => m_ret tt).

Fixpoint m_word (w : string) : Matcher unit :=
  match w with
  | EmptyString => m_ret tt
  | String c w' => m_bind (m_lit c) (fun _ => m_word w')
  end.

(** An alternation of words, each with its value. *)
Fixpoint m_words {A} (table : list (string * A)) : Matcher A :=
  match table with
  | [] => m_fail
  | (w, a) :: rest => m_alt (m_bind (m_word w) (fun _ => m_ret a)) (m_words rest)
  end.

(** [$]: the end of the text, or just before a final newline. *)
Definition m_end : Matcher unit :=
  fun s => if bool_decide (s = "" \/ s = String "010" "") then [(tt, s)] else [].

(** [re.match]: the first way the pattern matches at the start. *)
Definition re_match {A} (m : Matcher A) (s : string) : option (A * string) := head (m s).

(** [re.search]: the first start position with a match. *)
Fixpoint re_search {A} (m : Matcher A) (s : string) : option (A * string) :=
  match head (m s) with
  | Some r => Some r
  | None =>
      match s with
      | String _ s' => re_search m s'
      | EmptyString => None
      end
  end.

End Regex.

(** *** Values of table cells and the libraries the parser calls *)

Inductive PyValue :=
  | VNone
  | VInt (n : Z)
  | VFloat (x : option Q)            (* [None] is NaN *)
  | VStr (s : string)
  | VDate (d : Calendar.pydate)
  | VDatetime (dt : Calendar.datetime).

(** [pandas.to_datetime(s, errors="raise", dayfirst=...)]: the timestamp
    of a calendar date, or [None] when the call raises; [to_datetime_fuzzy]
    is the call with [fuzzy=True]. The texts that pandas reads as [NaT]
    are left out. *)
Class Pandas := {
  to_datetime : forall (dayfirst : bool), string -> option Calendar.datetime;
  to_datetime_fuzzy : string -> option Calendar.datetime
}.

(** [str(x)] of a float. *)
Class Builtins := {
  str_of_float : Q -> string
}.

Module DateNormalizer.
Import PyStr PyNum Calendar Regex.

(** **** [datetime.strptime] for the directives of [common_formats] *)

Definition in_range (lo hi c : ascii) : bool :=
  ((code lo <=? code c) && (code c <=? code hi))%nat.

(** [%m]: [1[0-2]|0[1-9]|[1-9]] *)
Definition re_m : Matcher Z :=
  m_alt (m_bind (m_char (Ascii.eqb "1")) (fun _ =>
         m_bind (m_char (in_range "0" "2")) (fun c => m_ret (10 + digit_val c))))
 (m_alt (m_bind (m_char (Ascii.eqb "0")) (fun _ =>
         m_bind (m_char (in_range "1" "9")) (fun c => m_ret (digit_val c))))
        (m_bind (m_char (in_range "1" "9")) (fun c => m_ret (digit_val c)))).

(** [%d]: [3[0-1]|[1-2]\d|0[1-9]|[1-9]| [1-9]] *)
Definition re_d : Matcher Z :=
  m_alt (m_bind (m_char (Ascii.eqb "3")) (fun _ =>
         m_bind (m_char (in_range "0" "1")) (fun c => m_ret (30 + digit_val c))))
 (m_alt (m_bind (m_char (in_range "1" "2")) (fun a =>
         m_bind (m_char is_digit) (fun c => m_ret (10 * digit_val a + digit_val c))))
 (m_alt (m_bind (m_char (Ascii.eqb "0")) (fun _ =>
         m_bind (m_char (in_range "1" "9")) (fun c => m_ret (digit_val c))))
 (m_alt (m_bind (m_char (in_range "1" "9")) (fun c => m_ret (digit_val c)))
        (m_bind (m_char (Ascii.eqb " ")) (fun _ =>
         m_bind (m_char (in_range "1" "9")) (fun c => m_ret (digit_val c))))))).

(** Month names of the C locale, longest first as [_strptime] orders them. *)
Definition full_months : list (string * Z) :=
  [("september", 9); ("february", 2); ("november", 11); ("december", 12);
   ("january", 1); ("october", 10); ("august", 8); ("march", 3);
   ("april", 4); ("june", 6); ("july", 7); ("may", 5)].

Definition abbr_months : list (string * Z) :=
  [("jan", 1); ("feb", 2); ("mar", 3); ("apr", 4); ("may", 5); ("jun", 6);
   ("jul", 7); ("aug", 8); ("sep", 9); ("oct", 10); ("nov", 11); ("dec", 12)].

(** One directive: what it matches and the field it sets. [%y] pivots at
    69, as [_strptime] does. *)
Definition directive (d : ascii) (st : date) : Matcher date :=
  if Ascii.eqb d "Y" then m_bind m_digit4 (fun y => m_ret (mkdate y (month st) (day st)))
  else if Ascii.eqb d "y" then
    m_bind m_digit2 (fun y => m_ret (mkdate (if y <=? 68 then 2000 + y else 1900 + y) (month st) (day st)))
  else if Ascii.eqb d "m" then m_bind re_m (fun m => m_ret (mkdate (year st) m (day st)))
  else if Ascii.eqb d "d" then m_bind re_d (fun x => m_ret (mkdate (year st) (month st) x))
  else if Ascii.eqb d "B" then m_bind (m_words full_months) (fun m => m_ret (mkdate (year st) m (day st)))
  else if Ascii.eqb d "b" then m_bind (m_words abbr_months) (fun m => m_ret (mkdate (year st) m (day st)))
  else m_fail.

(** The regex of a format: a directive after [%], [\s+] for a run of
    white space ([ws] tells that the run has begun), the character itself
    otherwise. *)
Fixpoint format_regex (fmt : string) (ws : bool) (st : date) : Matcher date :=
  match fmt with
  | EmptyString => m_ret st
  | String "%" (String d fmt') => m_bind (directive d st) (format_regex fmt' false)
  | String c fmt' =>
      if is_space c
      then (if ws then format_regex fmt' true st
            else m_bind m_spaces1 (fun _ => format_regex fmt' true st))
      else m_bind (m_lit c) (fun _ => format_regex fmt' false st)
  end.

(** [datetime.strptime(s, fmt)]; [None] stands for the [ValueError]
    (no match, unconverted data, or no such day). *)
Definition strptime (date_string fmt : string) : option datetime :=
  match re_match (format_regex fmt false (mkdate 1900 1 1)) date_string with
  | Some (st, EmptyString) => new_datetime (year st) (month st) (day st)
  | _ => None
  end.

Definition common_formats : list string :=
  ["%Y-%m-%d"; "%d/%m/%Y"; "%m/%d/%Y"; "%d-%m-%Y"; "%m-%d-%Y"; "%Y/%m/%d";
   "%d.%m.%Y"; "%m.%d.%Y"; "%d %m %Y"; "%m %d %Y"; "%Y %m %d";
   "%d/%m/%y"; "%m/%d/%y"; "%d-%m-%y"; "%m-%d-%y"; "%d.%m.%y"; "%m.%d.%y";
   "%d %B %Y"; "%B %d, %Y"; "%d %b %Y"; "%b %d, %Y"].

Fixpoint try_formats (date_str : string) (formats : list string) : option datetime :=
  match formats with
  | [] => None
  | fmt :: rest =>
      match strptime date_str fmt with
      | Some dt => Some dt
      | None => try_formats date_str rest
      end
  end.

(** [None] stands for the final [ValueError]. *)
Definition _try_common_formats (date_str : string) : option datetime :=
  try_formats date_str common_formats.

(** **** [_regex_date_parse] *)

Definition is_sep (c : ascii) : bool := Ascii.eqb c "/" || Ascii.eqb c "-".

(** [^(date|on|at|from|to):?\s*] *)
Definition label_re : Matcher unit :=
  m_bind (m_words [("date", tt); ("on", tt); ("at", tt); ("from", tt); ("to", tt)]) (fun _ =>
  m_bind (m_alt (m_lit ":") (m_ret tt)) (fun _ => m_spaces)).

Definition strip_label (date_str : string) : string :=
  match re_match label_re date_str with
  | Some (_, rest) => rest
  | None => date_str
  end.

Definition three (a b c : Matcher Z) (anchored : bool) : Matcher (Z * Z * Z) :=
  m_bind a (fun x => m_bind (m_char is_sep) (fun _ =>
  m_bind b (fun y => m_bind (m_char is_sep) (fun _ =>
  m_bind c (fun z =>
  if anchored then m_bind m_end (fun _ => m_ret (x, y, z)) else m_ret (x, y, z)))))).

(** The loop [for day, month in [(d1, d2), (d2, d1)]]. *)
Fixpoint first_valid (year : Z) (orders : list (Z * Z)) : option datetime :=
  match orders with
  | [] => None
  | (day, month) :: rest =>
      if (1 <=? month) && (month <=? 12) && (1 <=? day) && (day <=? 31)
      then match new_datetime year month day with
           | Some dt => Some dt
           | None => first_valid year rest
           end
      else first_valid year rest
  end.

Definition pattern1 (s : string) : option datetime :=
  match re_match (three m_digit12 m_digit12 m_digit4 true) s with
  | Some ((d1, d2, year), _) => first_valid year [(d1, d2); (d2, d1)]
  | None => None
  end.

Definition pattern2 (s : string) : option datetime :=
  match re_match (three m_digit12 m_digit12 m_digit2 true) s with
  | Some ((d1, d2, yy), _) =>
      let year := if yy <=? 30 then 2000 + yy else 1900 + yy in
      first_valid year [(d1, d2); (d2, d1)]
  | None => None
  end.

Definition pattern3 (s : string) : option datetime :=
  match re_match (three m_digit4 m_digit12 m_digit12 true) s with
  | Some ((year, month, day), _) => first_valid year [(day, month)]
  | None => None
  end.

Definition pattern4 (s : string) : option datetime :=
  match re_search (three m_digit4 m_digit12 m_digit12 false) s with
  | Some ((year, month, day), _) => first_valid year [(day, month)]
  | None => None
  end.

Fixpoint first_some {A B} (fs : list (A -> option B)) (a : A) : option B :=
  match fs with
  | [] => None
  | f :: rest =>
      match f a with
      | Some b => Some b
      | None => first_some rest a
      end
  end.

Definition _regex_date_parse (date_str : string) : option datetime :=
  let date_str := strip (strip_label date_str) in
  first_some [pattern1; pattern2; pattern3; pattern4] date_str.

(** **** [parse_date_safe] *)

Section WithLibraries.
Context {P : Pandas} {B : Builtins}.

Definition py_str (value : PyValue) : string :=
  match value with
  | VStr s => s
  | VInt n => DecimalString.NilZero.string_of_int (Z.to_int n)
  | VFloat (Some x) => str_of_float x
  | VFloat None => "nan"
  | VNone => "None"
  | VDate d => isoformat (the_date d)
  | VDatetime dt => isoformat (ymd dt)
  end.

Definition excel_epoch : date := mkdate 1899 12 30.

(** [excel_epoch + pd.Timedelta(days=n)]; [None] when it overflows. *)
Definition excel_date (n : Z) : option datetime :=
  (fun p => mkdatetime p 0) <$> fromordinal (toordinal excel_epoch + n).

(** The guarded block for spreadsheet serial numbers. *)
Definition excel_serial (value : PyValue) : option datetime :=
  match value with
  | VInt n => if (1 <=? n) && (n <=? 100000) then excel_date n else None
  | VFloat (Some x) =>
      if Qle_bool 1 x && Qle_bool x 100000 then excel_date (py_int x) else None
  | _ => None
  end.

Definition strategies : list (string -> option datetime) :=
  [to_datetime false; to_datetime true; _try_common_formats; to_datetime_fuzzy].

Definition null_words : list string := ["nan"; "none"; "null"; ""].

Definition parse_date_safe (value : PyValue) : option datetime :=
  match value with
  | VNone => None
  | VFloat None => None
  | VDatetime dt => Some dt
  | VDate d => Some (mkdatetime d 0)
  | _ =>
      let s := strip (py_str value) in
      if is_empty s || bool_decide (lower s ∈ null_words) then None
      else
        match excel_serial value with
        | Some dt => Some dt
        | None =>
            match first_some strategies s with
            | Some dt => Some dt
            | None => _regex_date_parse s
            end
        end
  end.

End WithLibraries.

End DateNormalizer.

(** A pandas whose every call raises, and a float printer: enough to run
    the parser on text that the explicit formats cover. *)
Definition failing_pandas : Pandas := {|
  to_datetime := fun _ _ => None;
  to_datetime_fuzzy := fun _ => None
|}.

Definition plain_builtins : Builtins := {|
  str_of_float := fun x => DecimalString.NilZero.string_of_int (Z.to_int (PyNum.py_int x)) ++ ".0"
|}.

(** ** constants.py *)

Module Constants.
Definition EXACT_DATE_NAME_BOOST : Z := 3.
Definition EXACT_DATE_COMBINED_BOOST : Z := 10.
Definition CLOSE_DATE_NAME_BOOST : Z := 1.
Definition CLOSE_DATE_COMBINED_BOOST : Z := 5.
Definition PHONETIC_BOOST : Z := 15.
Definition DATE_TOLERANCE_THRESHOLD_REDUCTION : Z := 8.
Definition CONFIDENCE_HIGH_THRESHOLD : Z := 90.
Definition CONFIDENCE_MEDIUM_THRESHOLD : Z := 80.
Definition CONFIDENCE_LOW_THRESHOLD : Z := 70.
Definition MULTI_PASS_MEDIUM_THRESHOLD_REDUCTION : Z := 10.
Definition MULTI_PASS_LENIENT_THRESHOLD_REDUCTION : Z := 15.
Definition MAX_NAME_LENGTH_DIFF_RATIO : Q := 1 # 2.
Definition PROGRESS_UPDATE_INTERVAL_PERCENT : Z := 1.
End Constants.

(** ** matcher.py: the scoring functions *)

(** rapidfuzz: the three ratios (0..100, at the [int] the signatures of the
    callers declare) and the Jaro-Winkler similarity (0..1). *)
Class RapidFuzz := {
  partial_ratio : string -> string -> Z;
  WRatio : string -> string -> Z;
  token_sort_ratio : string -> string -> Z;
  JaroWinkler_similarity : string -> string -> Q
}.

(** The optional imports of matcher.py. [HAS_SEMANTIC] and [HAS_METAPHONE]
    tell whether the import succeeded; [get_semantic_model] is the lazily
    loaded model ([None] when loading failed), given by the cosine
    similarity of the embeddings of two texts; both it and
    [doublemetaphone] can raise. *)
Class OptionalLibraries := {
  HAS_SEMANTIC : bool;
  get_semantic_model : option (string -> string -> Exc Q);
  HAS_METAPHONE : bool;
  doublemetaphone : string -> Exc (string * string)
}.

Record MatchConfig := {
  t1_last : string;
  t1_first : string;
  t1_date : string;
  t1_itr : option string;
  t2_last : string;
  t2_first : string;
  t2_date : string;
  t2_userid : string;
  algorithm : string;
  threshold : Z;
  enable_pre_norm : bool;
  enable_enhanced_fuzzy : bool;
  enable_date_bonus : bool;
  enable_phonetic : bool;
  enable_variants : bool;
  enable_double_surname : bool;
  enable_safe_missing : bool;
  show_all_matches : bool;
  date_tolerance_days : Z;
  enable_multi_pass : bool
}.

Module Scoring.
Import PyStr PyNum.

Section WithLibraries.
Context {U : Unicodedata} {F : RapidFuzz} {O : OptionalLibraries}.

(** [int(round(JaroWinkler.similarity(a, b) * 100))] *)
Definition jaro_winkler_score (a b : string) : Z :=
  py_round (JaroWinkler_similarity a b * 100).

Definition _base_fuzzy (a b algorithm : string) : Z :=
  if is_empty a && is_empty b then 100
  else if is_empty a || is_empty b then 0
  else if String.eqb algorithm "Partial Ratio" then partial_ratio a b
  else if String.eqb algorithm "Jaro-Winkler" then jaro_winkler_score a b
  else WRatio a b.

Definition _enhanced_fuzzy (a b : string) : Z :=
  if is_empty a && is_empty b then 100
  else if is_empty a || is_empty b then 0
  else
    let ts := token_sort_ratio a b in
    let pr := partial_ratio a b in
    py_round (inject_Z ts * (6 # 10) + inject_Z pr * (4 # 10)).

Definition _ensemble_score (a b : string) : Z :=
  if is_empty a && is_empty b then 100
  else if is_empty a || is_empty b then 0
  else
    let jw_score := jaro_winkler_score a b in
    let wr_score := WRatio a b in
    let ts_score := token_sort_ratio a b in
    let pr_score := partial_ratio a b in
    py_round (inject_Z jw_score * (35 # 100) + inject_Z wr_score * (30 # 100) +
              inject_Z ts_score * (20 # 100) + inject_Z pr_score * (15 # 100)).

Definition _semantic_score (a b : string) : Z :=
  if negb HAS_SEMANTIC then jaro_winkler_score a b
  else
    match get_semantic_model with
    | None => jaro_winkler_score a b
    | Some model =>
        match model a b with
        | Ok similarity => py_round (similarity * 100)
        | Raise _ => jaro_winkler_score a b
        end
    end.

Definition _double_metaphone_score (a b : string) : Z :=
  if negb HAS_METAPHONE then
    let code1 := NameNormalizer.soundex_code a in
    let code2 := NameNormalizer.soundex_code b in
    if nonempty code1 && String.eqb code1 code2 then 100 else 0
  else
    match doublemetaphone a, doublemetaphone b with
    | Ok dm1, Ok dm2 =>
        if nonempty (fst dm1) && nonempty (fst dm2) && String.eqb (fst dm1) (fst dm2) then 100
        else if nonempty (snd dm1) && nonempty (snd dm2) && String.eqb (snd dm1) (snd dm2) then 90
        else if (nonempty (fst dm1) && nonempty (snd dm2) && String.eqb (fst dm1) (snd dm2))
                || (nonempty (snd dm1) && nonempty (fst dm2) && String.eqb (fst dm1) (fst dm2))
        then 85
        else jaro_winkler_score a b
    | _, _ => jaro_winkler_score a b
    end.

Definition _fuzzy_score (a b : string) (cfg : MatchConfig) : Z :=
  if enable_enhanced_fuzzy cfg && negb (String.eqb (algorithm cfg) "Ensemble")
  then _enhanced_fuzzy a b
  else if String.eqb (algorithm cfg) "Ensemble" then _ensemble_score a b
  else if String.eqb (algorithm cfg) "Semantic Matching" then _semantic_score a b
  else if String.eqb (algorithm cfg) "Double Metaphone" then _double_metaphone_score a b
  else if String.eqb (algorithm cfg) "Record Linkage" then jaro_winkler_score a b
  else _base_fuzzy a b (algorithm cfg).

End WithLibraries.

End Scoring.

(** A rapidfuzz that only tells equal texts from different ones, and an
    installation without the optional libraries: enough to run the
    pipeline on examples. *)
Definition exact_rapidfuzz : RapidFuzz := {|
  partial_ratio := fun a b => if String.eqb a b then 100 else 0;
  WRatio := fun a b => if String.eqb a b then 100 else 0;
  token_sort_ratio := fun a b => if String.eqb a b then 100 else 0;
  JaroWinkler_similarity := fun a b => if String.eqb a b then 1%Q else 0%Q
|}.

Definition no_optional_libraries : OptionalLibraries := {|
  HAS_SEMANTIC := false;
  get_semantic_model := None;
  HAS_METAPHONE := false;
  doublemetaphone := fun _ => Raise "ImportError"
|}.

(** A semantic model whose cosine similarity is 1 on equal texts and
    slightly negative on different ones, for examples. *)
Definition distant_semantic_model : OptionalLibraries := {|
  HAS_SEMANTIC := true;
  get_semantic_model :=
    Some (fun a b => Ok (if String.eqb a b then 1%Q else (-8 # 100)%Q));
  HAS_METAPHONE := false;
  doublemetaphone := fun _ => Raise "ImportError"
|}.

(** ** Tables and result rows *)

(** A row of an input table, as the pipeline reads it: the text of its two
    name cells ([str(row.get(col, "") or "")]) and its date cell; the
    configured columns are columns of the table. The other columns are
    copied to the output unchanged, and [ITR_Bucket] is computed from one
    of them by [categorize_itr], which returns for every value; an output
    row names its source rows by their index instead. *)
Record Row := {
  row_last : string;
  row_first : string;
  row_date : PyValue
}.

(** A [DataFrame] with the default index: row [i] is the [i]-th. *)
Abbreviation Table := (list Row) (only parsing).

Record NormalizedRow := {
  last_norm : string;
  first_norm : string;
  last_raw : string;
  first_raw : string;
  last_len : Z;
  first_len : Z;
  last_first_char : string;
  first_first_char : string;
  last_soundex : option string;
  first_soundex : option string
}.

(** One row of the result: the indices of the primary row and of the
    secondary row ([None] on a placeholder), and the computed columns, empty
    on a placeholder. *)
Record ResultRow := {
  res_t1 : nat;
  res_t2 : option nat;
  LastName_Score : option Z;
  FirstName_Score : option Z;
  Combined_Score : option Z;
  Confidence : string
}.

(** The placeholder for a primary row without a match. *)
Definition no_match_row (idx1 : nat) : ResultRow :=
  {| res_t1 := idx1; res_t2 := None;
     LastName_Score := None; FirstName_Score := None; Combined_Score := None;
     Confidence := "No Match" |}.

(** [t.iterrows()] for the default index: the rows under their position. *)
Fixpoint enumerate_from {A} (n : nat) (t : list A) : list (nat * A) :=
  match t with
  | [] => []
  | r :: t' => (n, r) :: enumerate_from (S n) t'
  end.

Definition iterrows {A} (t : list A) : list (nat * A) := enumerate_from 0 t.

(** ** record_linkage_matcher.py *)

(** One comparison vector of [compare.compute]: the columns [last_name],
    [first_name] and [date_exact]. *)
Record Features := {
  f_last_name : Q;
  f_first_name : Q;
  f_date_exact : Q
}.

(** A frame after the date filter: the surviving rows under their original
    index, with their [__date]. *)
Definition Frame : Type := list (nat * (Row * Calendar.datetime)).

(** The recordlinkage library: whether its import succeeded, the candidate
    pairs of [Index().block('__date').index(t1, t2)], and the comparison
    vectors of [Compare.compute(pairs, t1, t2)], one per pair. Either call
    can raise. *)
Class RecordLinkageLib := {
  HAS_RECORDLINKAGE : bool;
  rl_index : Frame -> Frame -> Exc (list (nat * nat));
  rl_compute : list (nat * nat) -> Frame -> Frame -> Exc (list ((nat * nat) * Features))
}.

Module RecordLinkage.
Import PyStr PyNum Calendar.

Section WithLibraries.
Context {P : Pandas} {B : Builtins} {R : RecordLinkageLib}.

(** [t["__date"] = t[col].apply(parse_date_safe)] followed by
    [t[t["__date"].notna()]]. *)
Definition clean (t : Table) : Frame :=
  omap (fun ir : nat * Row =>
          match DateNormalizer.parse_date_safe (row_date (snd ir)) with
          | Some dt => Some (fst ir, (snd ir, dt))
          | None => None
          end) (iterrows t).

(** [frame.loc[idx]]: a [KeyError] when the label is absent. *)
Fixpoint loc {A} (frame : list (nat * A)) (idx : nat) : Exc A :=
  match frame with
  | [] => Raise "KeyError"
  | (i, r) :: rest => if Nat.eqb i idx then Ok r else loc rest idx
  end.

(** [int(features.loc[(idx1, idx2), column] * 100)] up to the scaling: a
    [KeyError] when the pair is absent, and a [TypeError] from [int] when
    the pair occurs more than once (the lookup is then a Series). *)
Definition loc_pair {A} (frame : list ((nat * nat) * A)) (key : nat * nat) : Exc A :=
  match filter (fun kr : (nat * nat) * A => fst kr = key) frame with
  | [] => Raise "KeyError"
  | [kr] => Ok (snd kr)
  | _ => Raise "TypeError"
  end.

(** [features.sum(axis=1)] *)
Definition feature_sum (f : Features) : Q :=
  f_last_name f + f_first_name f + f_date_exact f.

Definition confidence_of (combined : Z) : string :=
  if 90 <=? combined then "High"
  else if 80 <=? combined then "Medium"
  else if 70 <=? combined then "Low"
  else "Very Low".

(** The call of the progress callback after a row is appended. *)
Definition report_progress (progress_cb : option (Z -> Exc unit))
    (n_results n_matches : nat) : Exc unit :=
  match progress_cb with
  | Some cb =>
      if (Z.of_nat n_results mod 10 =? 0)
      then cb (Z.min 99 (Z.of_nat n_results * 100 / Z.max 1 (Z.of_nat n_matches)))
      else Ok tt
  | None => Ok tt
  end.

(** The loop over [matches.items()]. *)
Fixpoint emit_matches (show_all_matches : bool) (t1_clean t2_clean : Frame)
    (features : list ((nat * nat) * Features)) (n_matches : nat)
    (progress_cb : option (Z -> Exc unit))
    (items : list ((nat * nat) * Q))
    (results : list ResultRow) (seen_pairs : gset (nat * nat)) : Exc (list ResultRow) :=
  match items with
  | [] => Ok results
  | (key, score) :: rest =>
      if negb show_all_matches && bool_decide (key ∈ seen_pairs)
      then emit_matches show_all_matches t1_clean t2_clean features n_matches
             progress_cb rest results seen_pairs
      else
        let seen_pairs := {[key]} ∪ seen_pairs in
        r1 ← loc t1_clean (fst key);
        r2 ← loc t2_clean (snd key);
        f ← loc_pair features key;
        let last_score := py_int (f_last_name f * 100) in
        let first_score := py_int (f_first_name f * 100) in
        let combined := py_int (score * 100) in
        let merged :=
          {| res_t1 := fst key; res_t2 := Some (snd key);
             LastName_Score := Some last_score;
             FirstName_Score := Some first_score;
             Combined_Score := Some combined;
             Confidence := confidence_of combined |} in
        let results := (results ++ [merged])%list in
        _ ← report_progress progress_cb (length results) n_matches;
        emit_matches show_all_matches t1_clean t2_clean features n_matches
          progress_cb rest results seen_pairs
  end.

(** The rows added for the primary rows that no match names. *)
Definition unmatched_rows (t1 : Table) (matches : list ((nat * nat) * Q)) : list ResultRow :=
  omap (fun ir : nat * Row =>
          if bool_decide (fst ir ∈ (fst ∘ fst) <$> matches) then None
          else Some (no_match_row (fst ir))) (iterrows t1).

Definition call_final (progress_cb : option (Z -> Exc unit)) : Exc unit :=
  match progress_cb with
  | Some cb => cb 100
  | None => Ok tt
  end.

(** The body of the [try] block. *)
Definition linkage_body (t1 t2 : Table) (threshold : Q) (show_all_matches : bool)
    (progress_cb : option (Z -> Exc unit)) : Exc (list ResultRow) :=
  let t1_clean := clean t1 in
  let t2_clean := clean t2 in
  if (length t1_clean =? 0)%nat || (length t2_clean =? 0)%nat then Ok []
  else
    candidate_pairs ← rl_index t1_clean t2_clean;
    if (length candidate_pairs =? 0)%nat then Ok []
    else
      features ← rl_compute candidate_pairs t1_clean t2_clean;
      let sums := (fun kf : (nat * nat) * Features => (fst kf, feature_sum (snd kf))) <$> features in
      let matches := List.filter (fun ks : (nat * nat) * Q => Qle_bool threshold (snd ks)) sums in
      results ← emit_matches show_all_matches t1_clean t2_clean features (length matches)
                  progress_cb matches [] ∅;
      let results :=
        if show_all_matches then (results ++ unmatched_rows t1 matches)%list else results in
      _ ← call_final progress_cb;
      Ok results.

(** [match_with_recordlinkage]: without the library the empty table;
    otherwise the body, and the empty table when it raises (the
    handler also writes a log entry). *)
Definition match_with_recordlinkage (t1 t2 : Table) (threshold : Q)
    (show_all_matches : bool) (progress_cb : option (Z -> Exc unit)) : list ResultRow :=
  if negb HAS_RECORDLINKAGE then []
  else
    match linkage_body t1 t2 threshold show_all_matches progress_cb with
    | Ok results => results
    | Raise _ => []
    end.

End WithLibraries.

(** A recordlinkage that behaves as documented, over a given string
    similarity: blocking pairs the rows with equal [__date];
    [Compare.string(..., threshold=0.7)] yields 1 when the similarity
    reaches 0.7 and 0 otherwise; [Compare.exact] yields 1 on equal
    values. *)
Definition same_datetime (a b : datetime) : bool :=
  bool_decide (ymd a = ymd b) && (time_part a =? time_part b).

Definition block_on_date (t1 t2 : Frame) : list (nat * nat) :=
  flat_map (fun a : nat * (Row * datetime) =>
    omap (fun b : nat * (Row * datetime) =>
            if same_datetime (snd (snd a)) (snd (snd b)) then Some (fst a, fst b) else None) t2) t1.

Definition indicator (b : bool) : Q := if b then 1%Q else 0%Q.

Definition compare_pair (sim : string -> string -> Q) (t1 t2 : Frame) (key : nat * nat)
    : option ((nat * nat) * Features) :=
  match list_find (fun a : nat * (Row * datetime) => fst a = fst key) t1,
        list_find (fun b : nat * (Row * datetime) => fst b = snd key) t2 with
  | Some (_, (_, (r1, d1))), Some (_, (_, (r2, d2))) =>
      Some (key,
            {| f_last_name := indicator (Qle_bool (7 # 10) (sim (row_last r1) (row_last r2)));
               f_first_name := indicator (Qle_bool (7 # 10) (sim (row_first r1) (row_first r2)));
               f_date_exact := indicator (same_datetime d1 d2) |})
  | _, _ => None
  end.

Definition documented_recordlinkage (sim : string -> string -> Q) : RecordLinkageLib := {|
  HAS_RECORDLINKAGE := true;
  rl_index := fun t1 t2 => Ok (block_on_date t1 t2);
  rl_compute := fun pairs t1 t2 => Ok (omap (compare_pair sim t1 t2) pairs)
|}.

End RecordLinkage.

(** ** matcher.py: the matching pipeline *)

Module MatchEngine.
Import PyStr PyNum Calendar Constants.

(** Python truthiness of an optional string: [None] and the empty string
    are false. *)
Definition truthy (o : option string) : bool :=
  match o with
  | Some s => nonempty s
  | None => false
  end.

Definition Qlt_bool (a b : Q) : bool := negb (Qle_bool b a).

(** [x[0] if x else ""] *)
Definition first_char (x : string) : string :=
  match x with
  | String c _ => String c ""
  | EmptyString => ""
  end.

(** A candidate that passed classification:
    [(i2, last_score, first_score, combined, date_diff, confidence)]. *)
Record Match := {
  m_idx2 : nat;
  m_last : Z;
  m_first : Z;
  m_combined : Z;
  m_date_diff : Z;
  m_confidence : string
}.

(** A row of the secondary table with what the pipeline derives from it:
    its [__date] and its normalized names. *)
Record Prepared := {
  p_date : option datetime;
  p_norm : NormalizedRow
}.

Section WithLibraries.
Context {U : Unicodedata} {F : RapidFuzz} {O : OptionalLibraries}
        {P : Pandas} {B : Builtins}.

Definition _prepare_name (last first : string) (cfg : MatchConfig) : string * string :=
  let last_norm :=
    if enable_pre_norm cfg
    then NameNormalizer.normalize_component last (enable_double_surname cfg)
    else lower (strip last) in
  let first_norm_raw :=
    if enable_pre_norm cfg
    then NameNormalizer.normalize_component first false
    else lower (strip first) in
  let first_norm :=
    if enable_variants cfg
    then NameNormalizer.canonical_first_name first_norm_raw
    else first_norm_raw in
  (last_norm, first_norm).

(** The body of the loop of [_precompute_normalized_data]. *)
Definition normalize_row (r : Row) (cfg : MatchConfig) : NormalizedRow :=
  let last_raw := row_last r in
  let first_raw := row_first r in
  let '(last_norm, first_norm) := _prepare_name last_raw first_raw cfg in
  {| last_norm := last_norm;
     first_norm := first_norm;
     last_raw := last_raw;
     first_raw := first_raw;
     last_len := len last_norm;
     first_len := len first_norm;
     last_first_char := first_char last_norm;
     first_first_char := first_char first_norm;
     last_soundex :=
       if enable_phonetic cfg && nonempty last_norm
       then Some (NameNormalizer.soundex_code last_norm) else None;
     first_soundex :=
       if enable_phonetic cfg && nonempty first_norm
       then Some (NameNormalizer.soundex_code first_norm) else None |}.

(** [abs(a - b) / max(a, b, 1)] *)
Definition len_diff_ratio (a b : Z) : Q :=
  inject_Z (Z.abs (a - b)) / inject_Z (Z.max (Z.max a b) 1).

Definition _quick_filter (t1_norm t2_norm : NormalizedRow) (cfg : MatchConfig) : bool :=
  if is_empty (last_norm t1_norm) && is_empty (first_norm t1_norm) then false
  else if is_empty (last_norm t2_norm) && is_empty (first_norm t2_norm) then false
  else if enable_safe_missing cfg
          && (is_empty (last_norm t1_norm) || is_empty (last_norm t2_norm)) then false
  else if nonempty (last_norm t1_norm) && nonempty (last_norm t2_norm)
          && Qlt_bool MAX_NAME_LENGTH_DIFF_RATIO
               (len_diff_ratio (last_len t1_norm) (last_len t2_norm)) then false
  else if nonempty (first_norm t1_norm) && nonempty (first_norm t2_norm)
          && Qlt_bool MAX_NAME_LENGTH_DIFF_RATIO
               (len_diff_ratio (first_len t1_norm) (first_len t2_norm)) then false
  else if nonempty (last_norm t1_norm) && nonempty (last_norm t2_norm)
          && nonempty (last_first_char t1_norm) && nonempty (last_first_char t2_norm)
          && negb (String.eqb (last_first_char t1_norm) (last_first_char t2_norm))
  then
    if enable_phonetic cfg && truthy (last_soundex t1_norm) && truthy (last_soundex t2_norm)
    then bool_decide (last_soundex t1_norm = last_soundex t2_norm)
    else false
  else true.

(** The adaptive weights [(last_weight, first_weight)]. *)
Definition adaptive_weights (t1_norm t2_norm : NormalizedRow) : Q * Q :=
  let total_len :=
    (last_len t1_norm + last_len t2_norm) + (first_len t1_norm + first_len t2_norm) in
  if 0 <? total_len then
    let last_portion := (inject_Z (last_len t1_norm + last_len t2_norm) / inject_Z total_len)%Q in
    let first_portion := (inject_Z (first_len t1_norm + first_len t2_norm) / inject_Z total_len)%Q in
    if Qlt_bool (6 # 10) last_portion then
      let last_weight := Qmin (7 # 10) last_portion in (last_weight, 1 - last_weight)%Q
    else if Qlt_bool (6 # 10) first_portion then
      let first_weight := Qmin (7 # 10) first_portion in (1 - first_weight, first_weight)%Q
    else (5 # 10, 5 # 10)%Q
  else (5 # 10, 5 # 10)%Q.

(** The four steps of [_detailed_scoring] after the two fuzzy scores: the
    boost of the name scores by date proximity, ... *)
Definition boost_names (cfg : MatchConfig) (date_diff last_score first_score : Z) : Z * Z :=
  if date_diff =? 0
  then (Z.min 100 (last_score + EXACT_DATE_NAME_BOOST),
        Z.min 100 (first_score + EXACT_DATE_NAME_BOOST))
  else if date_diff <=? date_tolerance_days cfg
  then (Z.min 100 (last_score + CLOSE_DATE_NAME_BOOST),
        Z.min 100 (first_score + CLOSE_DATE_NAME_BOOST))
  else (last_score, first_score).

(** ... the combined score, on exact rationals: Python computes the
    weighted sum in binary floating point, so where the exact sum lies
    half way between two integers its rounded score can be the other
    neighbour, ... *)
Definition combine_scores (cfg : MatchConfig) (t1_norm t2_norm : NormalizedRow)
    (last_score first_score : Z) : Z :=
  if enable_safe_missing cfg
     && (is_empty (first_norm t1_norm) || is_empty (first_norm t2_norm))
  then last_score
  else
    let '(last_weight, first_weight) := adaptive_weights t1_norm t2_norm in
    py_round (inject_Z last_score * last_weight + inject_Z first_score * first_weight).

(** ... the date bonus, ... *)
Definition date_bonus (cfg : MatchConfig) (date_diff combined : Z) : Z :=
  if enable_date_bonus cfg
  then (if date_diff =? 0 then Z.min 100 (combined + EXACT_DATE_COMBINED_BOOST)
        else if date_diff <=? date_tolerance_days cfg
        then Z.min 100 (combined + CLOSE_DATE_COMBINED_BOOST)
        else combined)
  else combined.

(** ... and the phonetic bonus. *)
Definition phonetic_bonus (cfg : MatchConfig) (t1_norm t2_norm : NormalizedRow)
    (combined : Z) : Z :=
  if enable_phonetic cfg && (combined <? threshold cfg)
     && truthy (last_soundex t1_norm) && truthy (last_soundex t2_norm)
     && bool_decide (last_soundex t1_norm = last_soundex t2_norm)
  then Z.min 100 (combined + PHONETIC_BOOST)
  else combined.

Definition _detailed_scoring (t1_norm t2_norm : NormalizedRow) (date_diff : Z)
    (cfg : MatchConfig) : Z * Z * Z :=
  let last_score := Scoring._fuzzy_score (last_norm t1_norm) (last_norm t2_norm) cfg in
  let first_score :=
    if nonempty (first_norm t1_norm) || nonempty (first_norm t2_norm)
    then Scoring._fuzzy_score (first_norm t1_norm) (first_norm t2_norm) cfg else 0 in
  let '(last_score, first_score) := boost_names cfg date_diff last_score first_score in
  let combined := combine_scores cfg t1_norm t2_norm last_score first_score in
  let combined := date_bonus cfg date_diff combined in
  let combined := phonetic_bonus cfg t1_norm t2_norm combined in
  (last_score, first_score, combined).

Definition _get_confidence_band (score : Z) : string * Z * Z :=
  if CONFIDENCE_HIGH_THRESHOLD <=? score then ("High", CONFIDENCE_HIGH_THRESHOLD, 100)
  else if CONFIDENCE_MEDIUM_THRESHOLD <=? score
  then ("Medium", CONFIDENCE_MEDIUM_THRESHOLD, CONFIDENCE_HIGH_THRESHOLD - 1)
  else if CONFIDENCE_LOW_THRESHOLD <=? score
  then ("Low", CONFIDENCE_LOW_THRESHOLD, CONFIDENCE_MEDIUM_THRESHOLD - 1)
  else ("Very Low", 0, CONFIDENCE_LOW_THRESHOLD - 1).

(** The multi-pass branch of the scoring loop: the confidence of a
    retained candidate, [None] on [continue]. *)
Definition classify_multi_pass (cfg : MatchConfig) (date_diff combined : Z) : option string :=
  if (date_diff =? 0) && (threshold cfg <=? combined) then Some "High"
  else if (date_diff <=? date_tolerance_days cfg)
          && (Z.max 0 (threshold cfg - MULTI_PASS_MEDIUM_THRESHOLD_REDUCTION) <=? combined)
  then Some "Medium"
  else if (date_diff <=? date_tolerance_days cfg)
          && (Z.max 0 (threshold cfg - MULTI_PASS_LENIENT_THRESHOLD_REDUCTION) <=? combined)
  then Some "Low"
  else None.

Definition effective_threshold (cfg : MatchConfig) (date_diff : Z) : Z :=
  if date_diff <=? date_tolerance_days cfg
  then Z.max 0 (threshold cfg - DATE_TOLERANCE_THRESHOLD_REDUCTION)
  else threshold cfg.

(** The single-pass branch. *)
Definition classify_single_pass (cfg : MatchConfig) (date_diff combined : Z) : option string :=
  let '(confidence_level, _, _) := _get_confidence_band combined in
  if combined <? effective_threshold cfg date_diff then None
  else Some confidence_level.

Definition classify (cfg : MatchConfig) (date_diff combined : Z) : option string :=
  if enable_multi_pass cfg then classify_multi_pass cfg date_diff combined
  else classify_single_pass cfg date_diff combined.

(** **** [match_tables] *)

(** The columns [__date] and the normalized names of a table. The
    [__date] cell of a row is what [parse_date_safe] returned for it, a
    [datetime] or [None], and the pipeline reads it back as such. *)
Definition prepare (t : Table) (cfg : MatchConfig) : list (nat * Prepared) :=
  iterrows ((fun r => {| p_date := DateNormalizer.parse_date_safe (row_date r);
                         p_norm := normalize_row r cfg |}) <$> t).

(** [dt.date()], as a dictionary key: its ordinal. A date and its
    ordinal determine each other, [d - timedelta(days=k)] is the ordinal
    less [k], and [(d1 - d2).days] is the difference of the ordinals. *)
Definition date_key (dt : datetime) : Z := toordinal (ymd dt).

(** [t2_by_date.setdefault(date_key, []).append((idx, row))] over the
    rows that have a date. *)
Definition index_row (t2_by_date : gmap Z (list (nat * Prepared))) (e : nat * Prepared)
    : gmap Z (list (nat * Prepared)) :=
  match p_date (snd e) with
  | None => t2_by_date
  | Some dt =>
      <[date_key dt := (default [] (t2_by_date !! date_key dt) ++ [e])%list]> t2_by_date
  end.

Definition build_date_index (t2 : list (nat * Prepared)) : gmap Z (list (nat * Prepared)) :=
  fold_left index_row t2 ∅.

(** One of the three loops [for cand in t2_by_date[check_date]]. *)
Definition add_candidate (acc : list (nat * Prepared) * gset nat) (cand : nat * Prepared)
    : list (nat * Prepared) * gset nat :=
  if bool_decide (fst cand ∈ snd acc) then acc
  else ((fst acc ++ [cand])%list, {[fst cand]} ∪ snd acc).

Definition add_bucket (t2_by_date : gmap Z (list (nat * Prepared))) (check_date : Z)
    (acc : list (nat * Prepared) * gset nat) : list (nat * Prepared) * gset nat :=
  match t2_by_date !! check_date with
  | Some bucket => fold_left add_candidate bucket acc
  | None => acc
  end.

(** [range(1, n + 1)] *)
Definition day_offsets (n : Z) : list Z := Z.of_nat <$> seq 1 (Z.to_nat n).

(** A [for] loop whose body can raise: the state after the last turn, or
    the first exception. *)
Fixpoint for_each {A S} (body : S -> A -> Exc S) (l : list A) (s : S) : Exc S :=
  match l with
  | [] => Ok s
  | a :: l' => s' ← body s a; for_each body l' s'
  end.

(** One turn of [for day_offset in range(1, cfg.date_tolerance_days + 1)]:
    the day before, then the day after. *)
Definition add_offset (t2_by_date : gmap Z (list (nat * Prepared))) (date1 : Z)
    (acc : list (nat * Prepared) * gset nat) (day_offset : Z)
    : Exc (list (nat * Prepared) * gset nat) :=
  check_date ← add_days date1 (- day_offset);
  let acc := add_bucket t2_by_date check_date acc in
  check_date ← add_days date1 day_offset;
  Ok (add_bucket t2_by_date check_date acc).

Definition find_candidates (cfg : MatchConfig) (t2_by_date : gmap Z (list (nat * Prepared)))
    (date1 : Z) : Exc (list (nat * Prepared)) :=
  if 0 <=? date_tolerance_days cfg then
    let acc := add_bucket t2_by_date date1 ([], ∅) in
    acc ← (if 0 <? date_tolerance_days cfg
           then for_each (add_offset t2_by_date date1) (day_offsets (date_tolerance_days cfg)) acc
           else Ok acc);
    Ok (fst acc)
  else Ok [].

(** The body of the loop [for i2, r2 in candidates]: the entry appended
    to [matching_rows], [None] on [continue]. *)
Definition score_candidate (cfg : MatchConfig) (t1_norm : NormalizedRow) (date1 : Z)
    (cand : nat * Prepared) : option Match :=
  match p_date (snd cand) with
  | None => None
  | Some date2 =>
      let date_diff := Z.abs (date1 - date_key date2) in
      if negb (_quick_filter t1_norm (p_norm (snd cand)) cfg) then None
      else
        let '(last_score, first_score, combined) :=
          _detailed_scoring t1_norm (p_norm (snd cand)) date_diff cfg in
        match classify cfg date_diff combined with
        | None => None
        | Some confidence_level =>
            Some {| m_idx2 := fst cand; m_last := last_score; m_first := first_score;
                    m_combined := combined; m_date_diff := date_diff;
                    m_confidence := confidence_level |}
        end
  end.

(** [matching_rows] after the scoring loop of a primary row whose date has
    the ordinal [date1]. *)
Definition matching_rows (cfg : MatchConfig) (t1_norm : NormalizedRow) (date1 : Z)
    (candidates : list (nat * Prepared)) : list Match :=
  omap (score_candidate cfg t1_norm date1) candidates.

(** Show-all mode: whether [match] replaces the entry [existing] of
    [seen_pairs]. *)
Definition replaces (existing new : Match) : bool :=
  if (m_date_diff new =? 0) && negb (m_date_diff existing =? 0) then true
  else if (m_date_diff existing =? 0) && negb (m_date_diff new =? 0) then false
  else m_combined existing <? m_combined new.

(** [seen_pairs], a dictionary in insertion order, keyed by the index
    of the secondary row (the primary one is fixed). *)
Fixpoint seen_pairs_put (seen_pairs : list (nat * Match)) (m : Match) : list (nat * Match) :=
  match seen_pairs with
  | [] => [(m_idx2 m, m)]
  | (k, existing) :: rest =>
      if Nat.eqb k (m_idx2 m)
      then (k, if replaces existing m then m else existing) :: rest
      else (k, existing) :: seen_pairs_put rest m
  end.

(** The order of [(x[5], -x[4])]. *)
Definition key_le (a b : Match) : bool :=
  (m_date_diff a <? m_date_diff b)
  || ((m_date_diff a =? m_date_diff b) && (- m_combined a <=? - m_combined b)).

(** [list.sort] is stable: an entry goes before the later entries of
    equal key. *)
Fixpoint insert_sorted (x : Match) (l : list Match) : list Match :=
  match l with
  | [] => [x]
  | y :: l' => if key_le x y then x :: l else y :: insert_sorted x l'
  end.

Definition sort_matches (l : list Match) : list Match := foldr insert_sorted [] l.

Definition rows_to_add (cfg : MatchConfig) (rows : list Match) : list Match :=
  if show_all_matches cfg
  then snd <$> fold_left seen_pairs_put rows []
  else match rows with
       | [] => []
       | _ => take 1 (sort_matches rows)
       end.

Definition matched_row (i1 : nat) (m : Match) : ResultRow :=
  {| res_t1 := i1; res_t2 := Some (m_idx2 m);
     LastName_Score := Some (m_last m);
     FirstName_Score := Some (m_first m);
     Combined_Score := Some (m_combined m);
     Confidence := m_confidence m |}.

(** The state of the main loop: [results] and [global_seen_pairs]. *)
Definition LoopState : Type := list ResultRow * option (gset (nat * nat)).

(** The loop over [rows_to_add]. *)
Definition emit_row (i1 : nat) (st : LoopState) (m : Match) : LoopState :=
  match snd st with
  | Some global_seen_pairs =>
      if bool_decide ((i1, m_idx2 m) ∈ global_seen_pairs) then st
      else ((fst st ++ [matched_row i1 m])%list, Some ({[(i1, m_idx2 m)]} ∪ global_seen_pairs))
  | None => ((fst st ++ [matched_row i1 m])%list, None)
  end.

Definition add_no_match (cfg : MatchConfig) (i1 : nat) (st : LoopState) : LoopState :=
  if show_all_matches cfg then ((fst st ++ [no_match_row i1])%list, snd st) else st.

(** What follows the scoring loop of a primary row: the choice of the rows
    to add, the placeholder, and the rows added. *)
Definition add_rows (cfg : MatchConfig) (i1 : nat) (rows : list Match) (st : LoopState)
    : LoopState :=
  let st :=
    match rows with
    | [] => add_no_match cfg i1 st
    | _ => st
    end in
  fold_left (emit_row i1) (rows_to_add cfg rows) st.

(** [max(1, total // (100 // PROGRESS_UPDATE_INTERVAL_PERCENT))] *)
Definition progress_step (total : Z) : Z :=
  Z.max 1 (total / (100 / PROGRESS_UPDATE_INTERVAL_PERCENT)).

(** The throttled progress update after the primary row [i1]; the one
    at the end of the loop body is also due on the last row. An exception of
    the callback is not handled. *)
Definition progress_update (progress_cb : option (Z -> Exc unit)) (i1 : nat) (total : Z)
    (or_last : bool) : Exc unit :=
  match progress_cb with
  | None => Ok tt
  | Some cb =>
      if ((Z.of_nat i1 + 1) mod progress_step total =? 0)
         || (or_last && (Z.of_nat i1 + 1 =? total))
      then cb ((Z.of_nat i1 + 1) * 100 / total)
      else Ok tt
  end.

(** One turn of the loop [for i1, r1 in t1.iterrows()]. The entry of
    [t1_normalized] is there for every row, and a [NormalizedRow] is
    truthy. *)
Definition process_row (cfg : MatchConfig) (t2_by_date : gmap Z (list (nat * Prepared)))
    (progress_cb : option (Z -> Exc unit)) (total : Z)
    (st : LoopState) (e1 : nat * Prepared) : Exc LoopState :=
  match p_date (snd e1) with
  | None =>
      let st := add_no_match cfg (fst e1) st in
      _ ← progress_update progress_cb (fst e1) total false;
      Ok st
  | Some date1 =>
      candidates ← find_candidates cfg t2_by_date (date_key date1);
      match candidates with
      | [] =>
          let st := add_no_match cfg (fst e1) st in
          _ ← progress_update progress_cb (fst e1) total false;
          Ok st
      | _ :: _ =>
          let rows := matching_rows cfg (p_norm (snd e1)) (date_key date1) candidates in
          let st := add_rows cfg (fst e1) rows st in
          _ ← progress_update progress_cb (fst e1) total true;
          Ok st
      end
  end.

(** The standard pipeline, after the dispatch on the algorithm. *)
Definition standard_pipeline (t1 t2 : Table) (cfg : MatchConfig)
    (progress_cb : option (Z -> Exc unit)) : Exc (list ResultRow) :=
  let t1_rows := prepare t1 cfg in
  let t2_by_date := build_date_index (prepare t2 cfg) in
  let total := Z.of_nat (length t1) in
  if (total =? 0) || (length t2 =? 0)%nat then Ok []
  else
    let global_seen_pairs := if show_all_matches cfg then Some ∅ else None in
    st ← for_each (process_row cfg t2_by_date progress_cb total) t1_rows
           ([], global_seen_pairs);
    Ok (fst st).

Context {R : RecordLinkageLib}.

(** [match_tables]: the record-linkage path returns a table in every
    case; the standard pipeline returns one unless date arithmetic or the
    progress callback raises. *)
Definition match_tables (t1 t2 : Table) (cfg : MatchConfig)
    (progress_cb : option (Z -> Exc unit)) : Exc (list ResultRow) :=
  if String.eqb (algorithm cfg) "Record Linkage"
  then Ok (RecordLinkage.match_with_recordlinkage t1 t2 (inject_Z (threshold cfg) / 100)
             (show_all_matches cfg) progress_cb)
  else standard_pipeline t1 t2 cfg progress_cb.

End WithLibraries.

End MatchEngine.

(** ** file_loader.py: the raw log format *)

Module FileLoader.
Import PyStr.

(** [s.split(sep)] for a separator of one character. [cur] is the current
    piece, reversed. *)
Fixpoint split_at (sep : ascii) (cur : list ascii) (s : string) : list string :=
  match s with
  | EmptyString => [of_list (rev cur)]
  | String c s' =>
      if Ascii.eqb c sep then of_list (rev cur) :: split_at sep [] s'
      else split_at sep (c :: cur) s'
  end.

(** [s.startswith(p)] *)
Fixpoint startswith (p s : string) : bool :=
  match p with
  | EmptyString => true
  | String a p' =>
      match s with
      | EmptyString => false
      | String b s' => Ascii.eqb a b && startswith p' s'
      end
  end.

(** [s.find(sub)]: the least index at which [sub] occurs, [None] for -1. *)
Fixpoint find (sub s : string) : option nat :=
  if startswith sub s then Some 0%nat
  else match s with
       | EmptyString => None
       | String _ s' => S <$> find sub s'
       end.

(** [s.split(sep, 1)] when [sep] occurs in [s]: the text before its first
    occurrence and the text after it; [None] when it does not occur. *)
Fixpoint split_once (sep : ascii) (s : string) : option (string * string) :=
  match s with
  | EmptyString => None
  | String c s' =>
      if Ascii.eqb c sep then Some (EmptyString, s')
      else (fun ab : string * string => (String c (fst ab), snd ab)) <$> split_once sep s'
  end.

Record OperaRow := {
  USERID : string;
  Time : string;
  Date : string;
  Action : string;
  LastName : string;
  FirstName : string;
  RawText : string
}.

(** The names before the phrase " has " of the tail of a line. The index
    found in the lower-cased tail is used on the tail itself; on ASCII text
    [lower] keeps the length of a text, as Python's does there. *)
Definition extract_name (tail : string) : string * string :=
  let tail_lower := lower tail in
  match find " has " tail_lower with
  | Some idx =>
      let name_part := strip (slice_to idx tail) in
      match split_once "," name_part with
      | Some segs => (strip (fst segs), strip (snd segs))
      | None => if nonempty name_part then (name_part, "") else ("", "")
      end
  | None => ("", "")
  end.

(** The body of the loop over the lines: the row of a line, [None] on
    [continue]. *)
Definition parse_line (line : string) : option OperaRow :=
  let line := strip line in
  if is_empty line then None
  else
    let parts := split_at "," [] line in
    if (length parts <? 6)%nat then None
    else
      let tail := strip (NameNormalizer.join "," (drop 5 parts)) in
      let '(last, first) := extract_name tail in
      Some {| USERID := strip (nth 0 parts "");
              Time := strip (nth 1 parts "");
              Date := strip (nth 2 parts "");
              Action := strip (nth 4 parts "");
              LastName := last;
              FirstName := first;
              RawText := tail |}.

(** The [.txt] branch of [read_full] on the lines of the file: [None] when
    no line gives a row. *)
Definition read_txt (lines : list string) : option (list OperaRow) :=
  match omap parse_line lines with
  | [] => None
  | rows => Some rows
  end.

End FileLoader.

(** ** itr_categorizer.py *)

(** A Python [float]: a rational, an infinity or NaN. *)
Inductive PyFloat :=
  | Finite (x : Q)
  | PosInf
  | NegInf
  | NaN.

(** [float(s)] on a text: [None] stands for the [ValueError]. *)
Class FloatParser := {
  float_of_str : string -> option PyFloat
}.

Module ItrCategorizer.
Import PyStr Calendar.

(** [v <= q], [v == q] and [v >= q] for a float [v] and a number [q]: every
    comparison with NaN is false. *)
Definition float_le (v : PyFloat) (q : Q) : bool :=
  match v with
  | Finite x => Qle_bool x q
  | NegInf => true
  | PosInf | NaN => false
  end.

Definition float_eq (v : PyFloat) (q : Q) : bool :=
  match v with
  | Finite x => Qeq_bool x q
  | _ => false
  end.

Definition float_ge (v : PyFloat) (q : Q) : bool :=
  match v with
  | Finite x => Qle_bool q x
  | PosInf => true
  | NegInf | NaN => false
  end.

(** The chain of comparisons on the parsed value. *)
Definition bucket (v : PyFloat) : option Z :=
  if float_le v 7 then Some 0
  else if float_eq v 8 then Some 8
  else if float_ge v 9 then Some 10
  else None.

(** The time of [str(dt)]: a space, HH:MM:SS, and the microseconds when
    there are some. *)
Definition time_text (us : Z) : string :=
  let s := us / 1000000 in
  let f := us mod 1000000 in
  String " " (pad2 (s / 3600) (String ":" (pad2 (s / 60 mod 60) (String ":" (pad2 (s mod 60)
    (if f =? 0 then "" else String "." (pad2 (f / 10000) (pad4 f "")))))))).

Section WithLibraries.
Context {B : Builtins} {FP : FloatParser}.

(** [str(value)] *)
Definition str_value (value : PyValue) : string :=
  match value with
  | VStr s => s
  | VInt n => DecimalString.NilZero.string_of_int (Z.to_int n)
  | VFloat (Some x) => str_of_float x
  | VFloat None => "nan"
  | VNone => "None"
  | VDate d => isoformat (the_date d)
  | VDatetime dt => isoformat (the_date (date_part dt)) ++ time_text (time_part dt)
  end.

Definition categorize_itr (value : PyValue) : option Z :=
  match value with
  | VNone => None
  | _ =>
      let s := strip (str_value value) in
      if is_empty s then None
      else match float_of_str s with
           | Some v => bucket v
           | None => None
           end
  end.

End WithLibraries.

End ItrCategorizer.

(** A [float] that reads the decimal integers without a sign, for
    examples. *)
Definition integer_float_parser : FloatParser := {|
  float_of_str := fun s =>
    match DecimalString.NilZero.uint_of_string s with
    | Some u => Some (Finite (inject_Z (Z.of_uint u)))
    | None => None
    end
|}.

(** ** Vocabulary of the statements *)

(** The digits a phonetic code is made of. *)
Definition code_digit (c : ascii) : Prop :=
  c ∈ ["0"; "1"; "2"; "3"; "4"; "5"; "6"]%char.

(** The three identities asked of a scoring function. *)
Definition score_identities (score : string -> string -> Z) : Prop :=
  (forall a, score a a = 100) /\ score "" "" = 100 /\ (forall a, a <> "" -> score a "" = 0).

(** What the statements assume of rapidfuzz: a non-empty text is 100 to
    itself under each ratio, the Jaro-Winkler similarity of a text to itself
    is 1 and of a non-empty text to the empty one is 0. *)
Record RapidFuzzFacts (F : RapidFuzz) : Prop := {
  partial_ratio_same : forall a, a <> "" -> partial_ratio a a = 100;
  WRatio_same : forall a, a <> "" -> WRatio a a = 100;
  token_sort_ratio_same : forall a, a <> "" -> token_sort_ratio a a = 100;
  JaroWinkler_same : forall a, (JaroWinkler_similarity a a == 1)%Q;
  JaroWinkler_empty : forall a, a <> "" -> (JaroWinkler_similarity a "" == 0)%Q
}.

(** What they assume of the optional libraries: the empty text has an empty
    primary code, no text has a secondary code without a primary one, and
    the cosine similarity of a text to itself is 1. *)
Record OptionalFacts (O : OptionalLibraries) : Prop := {
  doublemetaphone_empty : forall p s, doublemetaphone "" = Ok (p, s) -> p = "";
  doublemetaphone_secondary : forall a p s, doublemetaphone a = Ok (p, s) -> p = "" -> s = "";
  cosine_same : forall model a x, get_semantic_model = Some model -> model a a = Ok x -> (x == 1)%Q
}.

(** The semantic score falls back to Jaro-Winkler on every pair: the import
    failed, the model did not load, or encoding raises. *)
Definition semantic_fallback (O : OptionalLibraries) : Prop :=
  HAS_SEMANTIC = false \/ get_semantic_model = None \/
  (forall model a b, get_semantic_model = Some model -> exists e, model a b = Raise e).

(** A metaphone that codes a text by itself, for examples. *)
Definition literal_metaphone : OptionalLibraries := {|
  HAS_SEMANTIC := false;
  get_semantic_model := None;
  HAS_METAPHONE := true;
  doublemetaphone := fun a => Ok (a, "")
|}.

(** The identities of the scoring functions, as the code has them: the
    three identities for the base, enhanced and ensemble scores, for the
    semantic score when it falls back to Jaro-Winkler, and for the Double
    Metaphone score when the codec is there; 100 for a text and itself
    under the semantic score in any case; and, for the phonetic score
    without the codec, 100 for a text and itself only when its phonetic
    code is not empty (0 otherwise, so 0 for two empty texts), and 0 against
    the empty text. *)
Definition scoring_contract (U : Unicodedata) (F : RapidFuzz) (O : OptionalLibraries) : Prop :=
  (forall algorithm, score_identities (fun a b => Scoring._base_fuzzy a b algorithm))
  /\ score_identities Scoring._enhanced_fuzzy
  /\ score_identities Scoring._ensemble_score
  /\ (semantic_fallback O -> score_identities Scoring._semantic_score)
  /\ (forall a, Scoring._semantic_score a a = 100)
  /\ (HAS_METAPHONE = true -> score_identities Scoring._double_metaphone_score)
  /\ (HAS_METAPHONE = false ->
        (forall a, Scoring._double_metaphone_score a a =
                     if PyStr.nonempty (NameNormalizer.soundex_code a) then 100 else 0)
        /\ Scoring._double_metaphone_score "" "" = 0
        /\ (forall a, Scoring._double_metaphone_score a "" = 0)).

(** A configuration for examples: the column names of the two sources and
    the settings that vary. *)
Definition config (algorithm : string) (threshold date_tolerance_days : Z)
    (phonetic safe_missing show_all multi_pass : bool) : MatchConfig := {|
  t1_last := "Last Name"; t1_first := "First Name"; t1_date := "Date"; t1_itr := None;
  t2_last := "LastName"; t2_first := "FirstName"; t2_date := "Date"; t2_userid := "USERID";
  algorithm := algorithm; threshold := threshold;
  enable_pre_norm := true; enable_enhanced_fuzzy := false; enable_date_bonus := true;
  enable_phonetic := phonetic; enable_variants := true; enable_double_surname := true;
  enable_safe_missing := safe_missing; show_all_matches := show_all;
  date_tolerance_days := date_tolerance_days; enable_multi_pass := multi_pass
|}.

(** The fixed bands: High from 90, Medium from 80, Low from 70, else Very
    Low. *)
Definition fixed_band (score : Z) : string :=
  if 90 <=? score then "High"
  else if 80 <=? score then "Medium"
  else if 70 <=? score then "Low"
  else "Very Low".

(** Single-pass classification as C3 states it: the threshold is lowered
    by 8 when the date difference is within the tolerance and not zero, and
    is the configured one when the difference is zero. *)
Definition stated_single_pass (threshold tolerance date_diff combined : Z) : option string :=
  let effective :=
    if date_diff =? 0 then threshold
    else if date_diff <=? tolerance then threshold - 8
    else threshold in
  if combined <? effective then None else Some (fixed_band combined).

(** Multi-pass classification as C4 states it. *)
Definition stated_multi_pass (threshold tolerance date_diff combined : Z) : option string :=
  if (date_diff =? 0) && (threshold <=? combined) then Some "High"
  else if (date_diff <=? tolerance) && (threshold - 10 <=? combined) then Some "Medium"
  else if (date_diff <=? tolerance) && (threshold - 15 <=? combined) then Some "Low"
  else None.

(** Rows for examples. *)
Definition row (last first : string) (date : string) : Row :=
  {| row_last := last; row_first := first; row_date := VStr date |}.

(** The candidates that the search collects when no date is outside the
    calendar: the bucket of the date, then for each offset the bucket of
    the day before and of the day after. *)
Definition candidates_of (cfg : MatchConfig)
    (t2_by_date : gmap Z (list (nat * MatchEngine.Prepared))) (date1 : Z)
    : list (nat * MatchEngine.Prepared) :=
  if 0 <=? date_tolerance_days cfg then
    let acc := MatchEngine.add_bucket t2_by_date date1 ([], ∅) in
    let acc :=
      if 0 <? date_tolerance_days cfg
      then fold_left (fun acc day_offset =>
                        MatchEngine.add_bucket t2_by_date (date1 + day_offset)
                          (MatchEngine.add_bucket t2_by_date (date1 - day_offset) acc))
             (MatchEngine.day_offsets (date_tolerance_days cfg)) acc
      else acc in
    fst acc
  else [].

(** The state that a turn of the main loop leaves when nothing raises. *)
Definition row_step {U : Unicodedata} {F : RapidFuzz} {O : OptionalLibraries}
    (cfg : MatchConfig) (t2_by_date : gmap Z (list (nat * MatchEngine.Prepared)))
    (st : MatchEngine.LoopState) (e1 : nat * MatchEngine.Prepared) : MatchEngine.LoopState :=
  match MatchEngine.p_date (snd e1) with
  | None => MatchEngine.add_no_match cfg (fst e1) st
  | Some date1 =>
      match candidates_of cfg t2_by_date (MatchEngine.date_key date1) with
      | [] => MatchEngine.add_no_match cfg (fst e1) st
      | _ :: _ =>
          let rows := MatchEngine.matching_rows cfg (MatchEngine.p_norm (snd e1))
                        (MatchEngine.date_key date1)
                        (candidates_of cfg t2_by_date (MatchEngine.date_key date1)) in
          let st :=
            match rows with
            | [] => MatchEngine.add_no_match cfg (fst e1) st
            | _ => st
            end in
          fold_left (MatchEngine.emit_row (fst e1)) (MatchEngine.rows_to_add cfg rows) st
      end
  end.

(** The table that the standard pipeline returns when nothing raises. *)
Definition pipeline_rows {U : Unicodedata} {F : RapidFuzz} {O : OptionalLibraries}
    {P : Pandas} {B : Builtins} (t1 t2 : Table) (cfg : MatchConfig) : list ResultRow :=
  if (length t1 =? 0)%nat || (length t2 =? 0)%nat then []
  else
    fst (fold_left (row_step cfg (MatchEngine.build_date_index (MatchEngine.prepare t2 cfg)))
           (MatchEngine.prepare t1 cfg)
           ([], if show_all_matches cfg then Some ∅ else None)).

(** The progress callback, when there is one, does not raise. *)
Definition quiet (progress_cb : option (Z -> Exc unit)) : Prop :=
  forall cb pct, progress_cb = Some cb -> cb pct = Ok tt.

(** No date that the search of the candidates of a primary row computes is
    outside the calendar. *)
Definition in_calendar {P : Pandas} {B : Builtins} (cfg : MatchConfig) (t1 : Table) : Prop :=
  forall i r dt k, t1 !! i = Some r ->
    DateNormalizer.parse_date_safe (row_date r) = Some dt ->
    1 <= k <= date_tolerance_days cfg ->
    0 < MatchEngine.date_key dt - k /\ MatchEngine.date_key dt + k <= Calendar.MAXORDINAL.

(** The candidates of a primary row that survive classification: its
    [matching_rows] against the date index of the secondary table, none for
    a row without a date. *)
Definition survivors {U : Unicodedata} {F : RapidFuzz} {O : OptionalLibraries}
    {P : Pandas} {B : Builtins}
    (cfg : MatchConfig) (t2 : Table) (e1 : nat * MatchEngine.Prepared) : list MatchEngine.Match :=
  match MatchEngine.p_date (snd e1) with
  | None => []
  | Some date1 =>
      MatchEngine.matching_rows cfg (MatchEngine.p_norm (snd e1)) (MatchEngine.date_key date1)
        (candidates_of cfg (MatchEngine.build_date_index (MatchEngine.prepare t2 cfg))
           (MatchEngine.date_key date1))
  end.

(** The order of the sort key [(date_diff, -combined)]. *)
Definition key_order (a b : MatchEngine.Match) : Prop :=
  MatchEngine.m_date_diff a < MatchEngine.m_date_diff b
  \/ (MatchEngine.m_date_diff a = MatchEngine.m_date_diff b
      /\ MatchEngine.m_combined b <= MatchEngine.m_combined a).

(** An entry filed under a date has that date. *)
Definition filed_under (key : Z) (e : nat * MatchEngine.Prepared) : Prop :=
  exists dt, MatchEngine.p_date (snd e) = Some dt /\ MatchEngine.date_key dt = key.

Definition index_sound (t2_by_date : gmap Z (list (nat * MatchEngine.Prepared))) : Prop :=
  forall key bucket, t2_by_date !! key = Some bucket -> Forall (filed_under key) bucket.

(** A candidate is within the tolerance of the date [date1]. *)
Definition within_tolerance (cfg : MatchConfig) (date1 : Z) (e : nat * MatchEngine.Prepared) : Prop :=
  exists dt, MatchEngine.p_date (snd e) = Some dt /\ Z.abs (date1 - MatchEngine.date_key dt) <= date_tolerance_days cfg.

(** A matched row of the result comes from a surviving candidate. *)
Definition row_from (Q : MatchEngine.Match -> Prop) (r : ResultRow) : Prop :=
  Combined_Score r = None \/ exists m, Q m /\ Combined_Score r = Some (MatchEngine.m_combined m).

(** What single-best mode emits for a primary row: the first of its
    surviving candidates in sorted order, as a row of the result. *)
Definition single_best_rows {U : Unicodedata} {F : RapidFuzz} {O : OptionalLibraries}
    {P : Pandas} {B : Builtins}
    (cfg : MatchConfig) (t2 : Table) (e1 : nat * MatchEngine.Prepared) : list ResultRow :=
  MatchEngine.matched_row (fst e1) <$> take 1 (MatchEngine.sort_matches (survivors cfg t2 e1)).

(** The rows of a result that belong to the primary row [i]. *)
Definition rows_of (i : nat) (out : list ResultRow) : list ResultRow :=
  filter (fun r => res_t1 r = i) out.

(** Two small tables: a primary row that two secondary rows resemble (one
    on its date, one a day later), and a primary row without a date. *)
Definition example_primary : Table :=
  [row "Smith" "John" "2024-01-15"; row "Jones" "Al" "N/A"].

Definition example_secondary : Table :=
  [row "Smith" "John" "2024-01-15"; row "Smith" "Jon" "16/01/2024"].

(** The documented recordlinkage over the similarity of [exact_rapidfuzz]. *)
Definition example_recordlinkage : RecordLinkageLib :=
  RecordLinkage.documented_recordlinkage (@JaroWinkler_similarity exact_rapidfuzz).

(** The row [i] of a table has a date that the parser reads. *)
Definition has_parsed_date {P : Pandas} {B : Builtins} (t : Table) (i : nat) : Prop :=
  exists r dt, t !! i = Some r /\ DateNormalizer.parse_date_safe (row_date r) = Some dt.

(** A matched row only names rows whose dates the parser reads. *)
Definition from_cleaned {P : Pandas} {B : Builtins} (t1 t2 : Table) (r : ResultRow) : Prop :=
  forall i2, res_t2 r = Some i2 -> has_parsed_date t1 (res_t1 r) /\ has_parsed_date t2 i2.

(** A recordlinkage whose blocking raises, for examples. *)
Definition raising_recordlinkage : RecordLinkageLib := {|
  HAS_RECORDLINKAGE := true;
  rl_index := fun _ _ => Raise "ValueError";
  rl_compute := fun _ _ _ => Raise "ValueError"
|}.

(** The pair of a matched row: its primary and its secondary index. *)
Definition matched_pair (r : ResultRow) : option (nat * nat) :=
  (fun i2 => (res_t1 r, i2)) <$> res_t2 r.

(** The pairs of the matched rows are distinct and recorded in
    [global_seen_pairs]. *)
Definition pairs_recorded (st : MatchEngine.LoopState) : Prop :=
  exists seen, snd st = Some seen
    /\ NoDup (omap matched_pair (fst st))
    /\ (forall p, p ∈ omap matched_pair (fst st) -> p ∈ seen).

(** *** Cleaned names *)

Section CleanedText.
Import PyStr NameNormalizer.

(** A character of a cleaned name: no white space, no punctuation, no
    capital letter. *)
Definition char_ok (c : ascii) : bool :=
  negb (is_space c) && negb (is_punct c) && negb (is_upper c).

(** Words of such characters with one space between two of them, and no
    space at the end; [after_space] tells that a word must start here. *)
Fixpoint tokens_ok (after_space : bool) (s : string) : bool :=
  match s with
  | EmptyString => negb after_space
  | String c s' =>
      if Ascii.eqb c " " then negb after_space && tokens_ok true s'
      else char_ok c && tokens_ok false s'
  end.

(** A cleaned name: empty, or words of lower-case characters without
    punctuation, separated by single spaces. *)
Definition is_clean (s : string) : bool :=
  match s with
  | EmptyString => true
  | _ => tokens_ok true s
  end.

(** The same with a space allowed at the end. *)
Fixpoint runs_ok (after_space : bool) (s : string) : bool :=
  match s with
  | EmptyString => true
  | String c s' =>
      if Ascii.eqb c " " then negb after_space && runs_ok true s'
      else char_ok c && runs_ok false s'
  end.

End CleanedText.

(** The configuration with another setting of the option for compound
    surnames. *)
Definition with_double_surname (cfg : MatchConfig) (b : bool) : MatchConfig := {|
  t1_last := t1_last cfg; t1_first := t1_first cfg; t1_date := t1_date cfg; t1_itr := t1_itr cfg;
  t2_last := t2_last cfg; t2_first := t2_first cfg; t2_date := t2_date cfg;
  t2_userid := t2_userid cfg;
  algorithm := algorithm cfg; threshold := threshold cfg;
  enable_pre_norm := enable_pre_norm cfg; enable_enhanced_fuzzy := enable_enhanced_fuzzy cfg;
  enable_date_bonus := enable_date_bonus cfg; enable_phonetic := enable_phonetic cfg;
  enable_variants := enable_variants cfg; enable_double_surname := b;
  enable_safe_missing := enable_safe_missing cfg; show_all_matches := show_all_matches cfg;
  date_tolerance_days := date_tolerance_days cfg; enable_multi_pass := enable_multi_pass cfg
|}.

(** *** The ranges of the rapidfuzz scores *)

(** What the statements on ranges assume of rapidfuzz: each ratio lies
    between 0 and 100 and the Jaro-Winkler similarity between 0 and 1. *)
Record RapidFuzzRange (F : RapidFuzz) : Prop := {
  partial_ratio_range : forall a b, 0 <= partial_ratio a b <= 100;
  WRatio_range : forall a b, 0 <= WRatio a b <= 100;
  token_sort_ratio_range : forall a b, 0 <= token_sort_ratio a b <= 100;
  JaroWinkler_range : forall a b, (0 <= JaroWinkler_similarity a b <= 1)%Q
}.

(** *** The candidates and the rows of show-all mode *)

Section CandidateVocabulary.
Import PyStr PyNum Calendar Constants MatchEngine.
Local Open Scope list_scope.

(** The row has the date of ordinal [key]. *)
Definition has_key (key : Z) (e : nat * Prepared) : Prop :=
  exists dt, p_date (snd e) = Some dt /\ date_key dt = key.

#[global] Instance has_key_dec key e : Decision (has_key key e).
Proof.
  unfold has_key. destruct (p_date (snd e)) as [dt |].
  - destruct (decide (date_key dt = key)) as [E | E].
    + left. now exists dt.
    + right. intros (dt' & [= <-] & E'). contradiction.
  - right. intros (dt' & [=] & _).
Defined.

(** The accumulator of the search: candidates of the table, each index once,
    with its set of indices. *)
Definition acc_ok (t2 : list (nat * Prepared)) (acc : list (nat * Prepared) * gset nat) : Prop :=
  NoDup (fst <$> fst acc)
  /\ (forall i, i ∈ snd acc <-> i ∈ fst <$> fst acc)
  /\ (forall e, e ∈ fst acc -> e ∈ t2).

(** What show-all mode emits for a primary row: a row for each of its
    surviving candidates, in the order of the search, or the placeholder
    when there is none. *)
Definition show_all_rows {U : Unicodedata} {F : RapidFuzz} {O : OptionalLibraries}
    {P : Pandas} {B : Builtins}
    (cfg : MatchConfig) (t2 : list Row) (e1 : nat * Prepared) : list ResultRow :=
  match survivors cfg t2 e1 with
  | [] => [no_match_row (fst e1)]
  | rows => matched_row (fst e1) <$> rows
  end.

End CandidateVocabulary.

(** *** Renderings of a date *)

Section DateRenderings.
Import Calendar.

(** dd/mm/yyyy and mm/dd/yyyy, zero-padded. *)
Definition render_dmy (d : date) : string :=
  pad2 (day d) (String "/" (pad2 (month d) (String "/" (pad4 (year d) "")))).

Definition render_mdy (d : date) : string :=
  pad2 (month d) (String "/" (pad2 (day d) (String "/" (pad4 (year d) "")))).

End DateRenderings.

(** *** The feature vectors of record linkage *)

Section LinkageVocabulary.
Import RecordLinkage.

(** What blocking on the date gives the comparison: the date feature of
    every vector is 1, and no name feature is negative. *)
Definition blocked_features (features : list ((nat * nat) * Features)) : Prop :=
  Forall (fun kf => (f_date_exact (snd kf) == 1 /\ 0 <= f_last_name (snd kf)
                     /\ 0 <= f_first_name (snd kf))%Q) features.

(** A matched row has confidence High and a combined score of 100 or
    more. *)
Definition high_match (r : ResultRow) : Prop :=
  res_t2 r <> None ->
  Confidence r = "High" /\ exists c, Combined_Score r = Some c /\ 100 <= c.

End LinkageVocabulary.

(** *** The digits of a phonetic code *)

(** The letter-to-digit table as C6 gives it: bfpv=1, cgjkqsxz=2, dt=3,
    l=4, mn=5, r=6. *)
Definition stated_table : list (ascii * ascii) :=
  [("b", "1"); ("f", "1"); ("p", "1"); ("v", "1");
   ("c", "2"); ("g", "2"); ("j", "2"); ("k", "2"); ("q", "2"); ("s", "2"); ("x", "2"); ("z", "2");
   ("d", "3"); ("t", "3"); ("l", "4"); ("m", "5"); ("n", "5"); ("r", "6")]%char.

Definition stated_digit (ch : N) : option N :=
  (fun entry => N_of_ascii (snd entry))
    <$> List.find (fun entry => bool_decide (N_of_ascii (fst entry) = ch)) stated_table.

(** The digits of a sequence of letters: the digit of each letter that has
    one, unless the letter just before it has the same digit. *)
Definition stated_digits (letters : list N) : list N :=
  omap (fun pair : option N * N =>
          match stated_digit (snd pair) with
          | Some d => if bool_decide (fst pair ≫= stated_digit = Some d) then None else Some d
          | None => None
          end)
       (zip (None :: (Some <$> letters)) letters).

(** A digit of a phonetic code, as a code point. *)
Definition code_digit_point (c : N) : Prop := (48 <= c <= 54)%N.

(** Text of ASCII characters only. *)
Definition is_ascii_text (s : string) : bool :=
  forallb (fun c => (N_of_ascii c <? 128)%N) (PyStr.to_list s).

(** *** Lines of the raw log and cells of the ITR column *)

(** The number of occurrences of a character in a text. *)
Definition count_char (c : ascii) (s : string) : nat :=
  length (filter (fun x => x = c) (PyStr.to_list s)).

Definition no_char (c : ascii) (s : string) : Prop := c ∉ PyStr.to_list s.

(** The cell is not [None] and its text, stripped, is not empty and is
    read by [float] as the number [x]. *)
Definition reads_as {B : Builtins} {FP : FloatParser} (value : PyValue) (x : Q) : Prop :=
  value <> VNone
  /\ PyStr.strip (ItrCategorizer.str_value value) <> ""
  /\ float_of_str (PyStr.strip (ItrCategorizer.str_value value)) = Some (Finite x).

(** * Properties *)

(** ** Rounding *)

Section Rounding.
Import PyNum.

Lemma py_round_cases (x : Q) : py_round x = Qfloor x \/ py_round x = Qfloor x + 1.
Proof.
  unfold py_round.
  destruct (x - inject_Z (Qfloor x) ?= 1 # 2)%Q; auto.
  destruct (Z.even (Qfloor x)); auto.
Qed.

Lemma py_round_lower (n : Z) (x : Q) : (inject_Z n <= x)%Q -> n <= py_round x.
Proof.
  intros H.
  assert (n <= Qfloor x).
  { rewrite <- (Qfloor_Z n). now apply Qfloor_resp_le. }
  destruct (py_round_cases x); lia.
Qed.

Lemma py_round_upper (n : Z) (x : Q) : (x <= inject_Z n)%Q -> py_round x <= n.
Proof.
  intros H.
  assert (Hf : Qfloor x <= n).
  { rewrite <- (Qfloor_Z n). now apply Qfloor_resp_le. }
  unfold py_round.
  pose proof (Qfloor_le x) as Hlo.
  destruct (x - inject_Z (Qfloor x) ?= 1 # 2)%Q eqn:E; [| lia |].
  - apply Qeq_alt in E.
    assert (Qfloor x < n); [| destruct (Z.even (Qfloor x)); lia].
    apply Z.le_neq. split; [exact Hf |]. intros Heq. rewrite Heq in *. lra.
  - apply Qgt_alt in E.
    assert (Qfloor x < n); [| lia].
    apply Z.le_neq. split; [exact Hf |]. intros Heq. rewrite Heq in *. lra.
Qed.

End Rounding.

(** ** name_normalizer.py: the phonetic code *)

Section SoundexProperties.
Import PyStr NameNormalizer.
Context {U : Unicodedata}.

Lemma soundex_digit_range (ch d : ascii) : soundex_digit ch = Some d -> code_digit d.
Proof.
  unfold soundex_digit, code_digit.
  repeat match goal with
         | |- context [if ?b then _ else _] => destruct b
         end; intros [= <-]; set_solver.
Qed.

Lemma soundex_filter_range (prev : option ascii) (digits : list (option ascii)) :
  Forall (fun o => forall d, o = Some d -> code_digit d) digits ->
  Forall code_digit (soundex_filter prev digits).
Proof.
  intros H. revert prev.
  induction H as [| o ds Ho _ IH]; intros prev; simpl; [constructor |].
  destruct o as [x |]; [| apply IH].
  destruct (bool_decide (Some x = prev)); [apply IH |].
  constructor; [now apply Ho | apply IH].
Qed.

(** Two letters of one digit in a row give the digit once; a letter
    without a digit between them gives it twice. *)
Lemma soundex_filter_repeat (prev : option ascii) (x : ascii) (rest : list (option ascii)) :
  soundex_filter prev (Some x :: Some x :: rest) = soundex_filter prev (Some x :: rest).
Proof.
  simpl. rewrite (bool_decide_eq_true_2 (Some x = Some x)) by reflexivity.
  now destruct (bool_decide (Some x = prev)).
Qed.

Lemma soundex_filter_vowel (x : ascii) (rest : list (option ascii)) :
  soundex_filter None (Some x :: None :: Some x :: rest)
  = x :: x :: soundex_filter (Some x) rest.
Proof. reflexivity. Qed.

Lemma code_digit_zero : code_digit "0".
Proof. unfold code_digit. set_solver. Qed.

Lemma pad_to_three (l : list ascii) :
  Forall code_digit l ->
  exists d1 d2 d3, slice_to 3 (of_list l ++ "000") = String d1 (String d2 (String d3 ""))
    /\ code_digit d1 /\ code_digit d2 /\ code_digit d3.
Proof.
  pose proof code_digit_zero as Z0.
  intros H.
  destruct H as [| a l Ha H]; [exists "0"%char, "0"%char, "0"%char; auto |].
  destruct H as [| b l Hb H]; [exists a, "0"%char, "0"%char; auto |].
  destruct H as [| c l Hc H]; [exists a, b, "0"%char; auto |].
  exists a, b, c; auto.
Qed.

(** On ASCII text the phonetic code is empty when the name is empty or
    cleans to the empty text, and otherwise has exactly four characters: the
    first character of the cleaned name in upper case, then three digits
    among 0..6, which are the digits of the following letters after the
    collapse, padded with zeros or cut to three. *)
Theorem soundex_code_shape (name : string) :
  (soundex_code name = "" /\ (name = "" \/ basic_clean (strip_accents name) = ""))
  \/ (exists c0 tail d1 d2 d3,
        basic_clean (strip_accents name) = String c0 tail
        /\ soundex_code name = String (upper_char c0) (String d1 (String d2 (String d3 "")))
        /\ String.length (soundex_code name) = 4%nat
        /\ String d1 (String d2 (String d3 "")) =
             slice_to 3 (of_list (soundex_filter None
                           (soundex_digit <$> List.filter is_alpha (to_list tail))) ++ "000")
        /\ code_digit d1 /\ code_digit d2 /\ code_digit d3).
Proof.
  unfold soundex_code.
  destruct name as [| n0 name']; [left; auto |].
  simpl is_empty. cbv iota.
  destruct (basic_clean (strip_accents (String n0 name'))) as [| c0 tail] eqn:E;
    [left; auto |].
  right.
  destruct (pad_to_three (soundex_filter None (soundex_digit <$> List.filter is_alpha (to_list tail))))
    as (d1 & d2 & d3 & Hs & H1 & H2 & H3).
  { apply soundex_filter_range, Forall_fmap, Forall_forall.
    intros ch _ d. apply soundex_digit_range. }
  exists c0, tail, d1, d2, d3.
  assert (Hcut : forall c l, slice_to 4 (String c l ++ "000") = String c (slice_to 3 (l ++ "000")))
    by reflexivity.
  rewrite Hcut, Hs. auto 10.
Qed.

End SoundexProperties.

(** The code of a hyphen on ASCII text: empty. *)
Lemma soundex_code_of_hyphen :
  PyStr.is_empty "-" = false
  /\ NameNormalizer.soundex_code (U:=ascii_unicodedata) "-" = ""
  /\ String.length (NameNormalizer.soundex_code (U:=ascii_unicodedata) "-") <> 4%nat.
Proof. split; [reflexivity | split; [reflexivity | vm_compute; discriminate]]. Qed.

(** ** matcher.py: the scoring functions *)

#[global] Instance py_round_proper : Proper (Qeq ==> eq) PyNum.py_round.
Proof.
  intros x y E. unfold PyNum.py_round.
  rewrite (Qfloor_comp _ _ E).
  assert (Hc : ((x - inject_Z (Qfloor y) ?= 1 # 2) = (y - inject_Z (Qfloor y) ?= 1 # 2))%Q)
    by (now rewrite E).
  now rewrite Hc.
Qed.

Section ScoringProperties.
Import PyStr PyNum Scoring.
Context {U : Unicodedata} {F : RapidFuzz} {O : OptionalLibraries}.
Hypothesis rapidfuzz_facts : RapidFuzzFacts F.
Hypothesis optional_facts : OptionalFacts O.

Lemma nonempty_neq (a : string) : is_empty a = false -> a <> "".
Proof. now destruct a. Qed.

Lemma jaro_winkler_score_same (a : string) : jaro_winkler_score a a = 100.
Proof.
  unfold jaro_winkler_score.
  now rewrite (JaroWinkler_same F rapidfuzz_facts a).
Qed.

Lemma jaro_winkler_score_empty (a : string) : a <> "" -> jaro_winkler_score a "" = 0.
Proof.
  intros H. unfold jaro_winkler_score.
  now rewrite (JaroWinkler_empty F rapidfuzz_facts a H).
Qed.

Lemma jaro_winkler_identities : score_identities jaro_winkler_score.
Proof.
  repeat split.
  - apply jaro_winkler_score_same.
  - apply jaro_winkler_score_same.
  - apply jaro_winkler_score_empty.
Qed.

Lemma base_fuzzy_identities (algorithm : string) :
  score_identities (fun a b => _base_fuzzy a b algorithm).
Proof.
  unfold _base_fuzzy. repeat split.
  - intros a. destruct (is_empty a) eqn:E; [reflexivity |].
    apply nonempty_neq in E. simpl.
    destruct (String.eqb algorithm "Partial Ratio");
      [now apply (partial_ratio_same F) |].
    destruct (String.eqb algorithm "Jaro-Winkler");
      [apply jaro_winkler_score_same | now apply (WRatio_same F)].
  - intros a Ha. destruct a; [contradiction | reflexivity].
Qed.

Lemma enhanced_fuzzy_identities : score_identities _enhanced_fuzzy.
Proof.
  unfold _enhanced_fuzzy. repeat split.
  - intros a. destruct (is_empty a) eqn:E; [reflexivity |].
    apply nonempty_neq in E. simpl.
    now rewrite (token_sort_ratio_same F rapidfuzz_facts a E),
                (partial_ratio_same F rapidfuzz_facts a E).
  - intros a Ha. destruct a; [contradiction | reflexivity].
Qed.

Lemma ensemble_identities : score_identities _ensemble_score.
Proof.
  unfold _ensemble_score. repeat split.
  - intros a. destruct (is_empty a) eqn:E; [reflexivity |].
    apply nonempty_neq in E. simpl.
    now rewrite jaro_winkler_score_same, (WRatio_same F rapidfuzz_facts a E),
                (token_sort_ratio_same F rapidfuzz_facts a E),
                (partial_ratio_same F rapidfuzz_facts a E).
  - intros a Ha. destruct a; [contradiction | reflexivity].
Qed.

Lemma semantic_score_same (a : string) : _semantic_score a a = 100.
Proof.
  unfold _semantic_score.
  destruct HAS_SEMANTIC; simpl; [| apply jaro_winkler_score_same].
  destruct get_semantic_model as [model |] eqn:Em; [| apply jaro_winkler_score_same].
  destruct (model a a) as [x | e] eqn:Ex; [| apply jaro_winkler_score_same].
  now rewrite (cosine_same O optional_facts model a x Em Ex).
Qed.

Lemma semantic_score_fallback (a b : string) :
  semantic_fallback O -> _semantic_score a b = jaro_winkler_score a b.
Proof.
  unfold _semantic_score.
  intros [H | [H | H]].
  - now rewrite H.
  - rewrite H. now destruct HAS_SEMANTIC.
  - destruct HAS_SEMANTIC; simpl; [| reflexivity].
    destruct get_semantic_model as [model |] eqn:Em; [| reflexivity].
    destruct (H model a b eq_refl) as [e ->]. reflexivity.
Qed.

Lemma metaphone_identities :
  HAS_METAPHONE = true -> score_identities _double_metaphone_score.
Proof.
  intros Hm.
  assert (Hsame : forall a, _double_metaphone_score a a = 100).
  { intros a. unfold _double_metaphone_score. rewrite Hm. simpl.
    destruct (doublemetaphone a) as [[p s] | e] eqn:E; [| apply jaro_winkler_score_same].
    destruct p as [| c p'].
    - rewrite (doublemetaphone_secondary O optional_facts a "" s E eq_refl).
      simpl. apply jaro_winkler_score_same.
    - cbn [fst snd nonempty is_empty negb andb]. now rewrite String.eqb_refl. }
  repeat split; [exact Hsame | apply Hsame |].
  intros a Ha. unfold _double_metaphone_score. rewrite Hm. simpl.
  destruct (doublemetaphone a) as [[p s] | e]; [| now apply jaro_winkler_score_empty].
  destruct (doublemetaphone "") as [[p0 s0] | e] eqn:E0; [| now apply jaro_winkler_score_empty].
  pose proof (doublemetaphone_empty O optional_facts p0 s0 E0) as ->.
  pose proof (doublemetaphone_secondary O optional_facts "" "" s0 E0 eq_refl) as ->.
  simpl. rewrite !andb_false_r. simpl. now apply jaro_winkler_score_empty.
Qed.

Lemma soundex_fallback_scores :
  HAS_METAPHONE = false ->
  (forall a, _double_metaphone_score a a =
               if nonempty (NameNormalizer.soundex_code a) then 100 else 0)
  /\ _double_metaphone_score "" "" = 0
  /\ (forall a, _double_metaphone_score a "" = 0).
Proof.
  intros Hm. unfold _double_metaphone_score. rewrite Hm. simpl.
  repeat split.
  - intros a. rewrite String.eqb_refl. now rewrite andb_true_r.
  - intros a. change (NameNormalizer.soundex_code "") with "".
    destruct (NameNormalizer.soundex_code a); reflexivity.
Qed.

(** C2, as amended: the identities hold for every scoring function but the
    phonetic one without its codec, given what rapidfuzz and the optional
    libraries return on equal and on empty texts; the phonetic score
    without the codec is 100 for a text and itself only when its phonetic
    code is not empty, and 0 for two empty texts. *)
Theorem scoring_identities : scoring_contract U F O.
Proof.
  unfold scoring_contract.
  split; [apply base_fuzzy_identities |].
  split; [apply enhanced_fuzzy_identities |].
  split; [apply ensemble_identities |].
  split.
  { intros Hf. destruct jaro_winkler_identities as (H1 & H2 & H3).
    repeat split; intros; rewrite semantic_score_fallback by assumption; auto. }
  split; [apply semantic_score_same |].
  split; [apply metaphone_identities | apply soundex_fallback_scores].
Qed.

End ScoringProperties.

Lemma exact_rapidfuzz_facts : RapidFuzzFacts exact_rapidfuzz.
Proof.
  split; simpl; intros a; try intros Ha; rewrite ?String.eqb_refl; try reflexivity.
  destruct a; [contradiction | reflexivity].
Qed.

Lemma literal_metaphone_facts : OptionalFacts literal_metaphone.
Proof.
  split; simpl.
  - now intros p s [= <- _].
  - now intros a p s [= -> <-] ->.
  - intros model a x [=].
Qed.

Lemma no_optional_libraries_facts : OptionalFacts no_optional_libraries.
Proof. split; simpl; intros; discriminate. Qed.

(** The amended identities at an installation with the codec. *)
Lemma scoring_identities_witness :
  scoring_contract ascii_unicodedata exact_rapidfuzz literal_metaphone.
Proof.
  apply (@scoring_identities ascii_unicodedata exact_rapidfuzz literal_metaphone).
  - exact exact_rapidfuzz_facts.
  - exact literal_metaphone_facts.
Defined.

(** C2, as stated, fails: without the Double Metaphone codec the phonetic
    score of two empty texts is 0, not 100, and so is the score of a
    non-empty text with itself when its phonetic code is empty. *)
Lemma phonetic_score_of_empty_texts :
  Scoring._double_metaphone_score
    (U:=ascii_unicodedata) (F:=exact_rapidfuzz) (O:=no_optional_libraries) "" "" = 0
  /\ Scoring._double_metaphone_score
       (U:=ascii_unicodedata) (F:=exact_rapidfuzz) (O:=no_optional_libraries) "-" "-" = 0.
Proof. split; reflexivity. Qed.

(** ** matcher.py: detailed scoring and classification *)

Section EngineProperties.
Import PyStr PyNum Constants MatchEngine.
Context {U : Unicodedata} {F : RapidFuzz} {O : OptionalLibraries}.

Lemma Qlt_bool_true (a b : Q) : Qlt_bool a b = true <-> (a < b)%Q.
Proof.
  unfold Qlt_bool. rewrite negb_true_iff.
  split.
  - intros H. apply Qnot_le_lt. intros Hle. apply Qle_bool_iff in Hle. congruence.
  - intros H. destruct (Qle_bool b a) eqn:E; [| reflexivity].
    apply Qle_bool_iff in E. lra.
Qed.

Lemma adaptive_weights_convex (t1_norm t2_norm : NormalizedRow) :
  (0 <= fst (adaptive_weights t1_norm t2_norm)
   /\ 0 <= snd (adaptive_weights t1_norm t2_norm)
   /\ fst (adaptive_weights t1_norm t2_norm) + snd (adaptive_weights t1_norm t2_norm) == 1)%Q.
Proof.
  unfold adaptive_weights.
  destruct (0 <? _); [| simpl; lra].
  lazy zeta.
  generalize (inject_Z (last_len t1_norm + last_len t2_norm)
              / inject_Z (last_len t1_norm + last_len t2_norm
                          + (first_len t1_norm + first_len t2_norm)))%Q.
  generalize (inject_Z (first_len t1_norm + first_len t2_norm)
              / inject_Z (last_len t1_norm + last_len t2_norm
                          + (first_len t1_norm + first_len t2_norm)))%Q.
  intros fp lp.
  destruct (Qlt_bool (6 # 10) lp) eqn:E1.
  - apply Qlt_bool_true in E1. simpl.
    destruct (Q.min_spec (7 # 10) lp) as [[Hm ->] | [Hm ->]]; lra.
  - destruct (Qlt_bool (6 # 10) fp) eqn:E2; [| simpl; lra].
    apply Qlt_bool_true in E2. simpl.
    destruct (Q.min_spec (7 # 10) fp) as [[Hm ->] | [Hm ->]]; lra.
Qed.
Lemma boost_names_lower (cfg : MatchConfig) (date_diff last_score first_score : Z) :
  0 <= last_score -> 0 <= first_score ->
  0 <= fst (boost_names cfg date_diff last_score first_score)
  /\ 0 <= snd (boost_names cfg date_diff last_score first_score).
Proof.
  unfold boost_names, EXACT_DATE_NAME_BOOST, CLOSE_DATE_NAME_BOOST.
  destruct (date_diff =? 0); [simpl; lia |].
  destruct (date_diff <=? date_tolerance_days cfg); simpl; lia.
Qed.

(** The name scores of a candidate within the tolerance are at most 100,
    whatever the scoring function returned. *)
Lemma boost_names_upper (cfg : MatchConfig) (date_diff last_score first_score : Z) :
  date_diff <= date_tolerance_days cfg ->
  fst (boost_names cfg date_diff last_score first_score) <= 100
  /\ snd (boost_names cfg date_diff last_score first_score) <= 100.
Proof.
  intros H. unfold boost_names.
  destruct (date_diff =? 0); [simpl; lia |].
  apply Z.leb_le in H. rewrite H. simpl. lia.
Qed.

Lemma combine_scores_lower (cfg : MatchConfig) (t1_norm t2_norm : NormalizedRow)
    (last_score first_score : Z) :
  0 <= last_score -> 0 <= first_score ->
  0 <= combine_scores cfg t1_norm t2_norm last_score first_score.
Proof.
  intros Hl Hf. unfold combine_scores.
  destruct (_ && _); [exact Hl |].
  destruct (adaptive_weights_convex t1_norm t2_norm) as (H1 & H2 & _).
  destruct (adaptive_weights t1_norm t2_norm) as [lw fw]. simpl in H1, H2.
  apply py_round_lower.
  rewrite Zle_Qle in Hl, Hf.
  change (inject_Z 0) with 0%Q in *.
  pose proof (Qmult_le_0_compat _ _ Hl H1).
  pose proof (Qmult_le_0_compat _ _ Hf H2).
  lra.
Qed.

Lemma combine_scores_upper (cfg : MatchConfig) (t1_norm t2_norm : NormalizedRow)
    (last_score first_score : Z) :
  last_score <= 100 -> first_score <= 100 ->
  combine_scores cfg t1_norm t2_norm last_score first_score <= 100.
Proof.
  intros Hl Hf. unfold combine_scores.
  destruct (_ && _); [exact Hl |].
  destruct (adaptive_weights_convex t1_norm t2_norm) as (H1 & H2 & H3).
  destruct (adaptive_weights t1_norm t2_norm) as [lw fw]. simpl in H1, H2, H3.
  apply py_round_upper.
  rewrite Zle_Qle in Hl, Hf.
  change (inject_Z 100) with 100%Q in *.
  assert (inject_Z last_score * lw <= 100 * lw)%Q by (apply Qmult_le_compat_r; assumption).
  assert (inject_Z first_score * fw <= 100 * fw)%Q by (apply Qmult_le_compat_r; assumption).
  lra.
Qed.

Lemma date_bonus_bounds (cfg : MatchConfig) (date_diff combined : Z) :
  (0 <= combined -> 0 <= date_bonus cfg date_diff combined)
  /\ (combined <= 100 -> date_bonus cfg date_diff combined <= 100).
Proof.
  unfold date_bonus, EXACT_DATE_COMBINED_BOOST, CLOSE_DATE_COMBINED_BOOST.
  destruct (enable_date_bonus cfg); [| lia].
  destruct (date_diff =? 0); [lia |].
  destruct (date_diff <=? date_tolerance_days cfg); lia.
Qed.

Lemma phonetic_bonus_bounds (cfg : MatchConfig) (t1_norm t2_norm : NormalizedRow)
    (combined : Z) :
  (0 <= combined -> 0 <= phonetic_bonus cfg t1_norm t2_norm combined)
  /\ (combined <= 100 -> phonetic_bonus cfg t1_norm t2_norm combined <= 100).
Proof.
  unfold phonetic_bonus, PHONETIC_BOOST.
  destruct (_ && _); lia.
Qed.

(** The combined score is not negative when the scoring function is not. *)
Lemma detailed_scoring_lower (t1_norm t2_norm : NormalizedRow) (date_diff : Z)
    (cfg : MatchConfig) :
  (forall a b, 0 <= Scoring._fuzzy_score a b cfg) ->
  0 <= snd (_detailed_scoring t1_norm t2_norm date_diff cfg).
Proof.
  intros Hs. unfold _detailed_scoring.
  set (ls := Scoring._fuzzy_score _ _ cfg).
  match goal with |- context [if ?c then ?x else 0] => set (fs := if c then x else 0) end.
  assert (0 <= ls) by apply Hs.
  assert (0 <= fs) by (subst fs; destruct (_ || _); [apply Hs | lia]).
  destruct (boost_names_lower cfg date_diff ls fs) as [H1 H2]; [assumption .. |].
  destruct (boost_names cfg date_diff ls fs) as [ls' fs']. simpl in *.
  apply phonetic_bonus_bounds, date_bonus_bounds, combine_scores_lower; assumption.
Qed.

(** The combined score of a candidate within the tolerance is at most 100,
    whatever the scoring function returns. *)
Lemma detailed_scoring_upper (t1_norm t2_norm : NormalizedRow) (date_diff : Z)
    (cfg : MatchConfig) :
  date_diff <= date_tolerance_days cfg ->
  snd (_detailed_scoring t1_norm t2_norm date_diff cfg) <= 100.
Proof.
  intros Hd. unfold _detailed_scoring.
  set (ls := Scoring._fuzzy_score _ _ cfg).
  match goal with |- context [if ?c then ?x else 0] => set (fs := if c then x else 0) end.
  destruct (boost_names_upper cfg date_diff ls fs Hd) as [H1 H2].
  destruct (boost_names cfg date_diff ls fs) as [ls' fs']. simpl in *.
  apply phonetic_bonus_bounds, date_bonus_bounds, combine_scores_upper; assumption.
Qed.

Lemma get_confidence_band_label (score : Z) :
  fst (fst (_get_confidence_band score)) = fixed_band score.
Proof.
  unfold _get_confidence_band, fixed_band,
    CONFIDENCE_HIGH_THRESHOLD, CONFIDENCE_MEDIUM_THRESHOLD, CONFIDENCE_LOW_THRESHOLD.
  repeat match goal with |- context [if ?b then _ else _] => destruct b end; reflexivity.
Qed.

(** C3, as amended: without multi-pass classification the effective
    threshold is the configured one less 8, and not below 0, whenever the
    date difference is within the tolerance, a difference of 0 included, and
    the configured one otherwise; a candidate below it is discarded, and a
    retained one is labelled High from 90, Medium from 80, Low from 70 and
    Very Low below 70. *)
Theorem single_pass_classification (cfg : MatchConfig) (date_diff combined : Z) :
  let effective :=
    if date_diff <=? date_tolerance_days cfg then Z.max 0 (threshold cfg - 8)
    else threshold cfg in
  (enable_multi_pass cfg = false ->
   classify cfg date_diff combined = classify_single_pass cfg date_diff combined)
  /\ effective_threshold cfg date_diff = effective
  /\ (combined < effective -> classify_single_pass cfg date_diff combined = None)
  /\ (effective <= combined ->
      (90 <= combined -> classify_single_pass cfg date_diff combined = Some "High")
      /\ (80 <= combined < 90 -> classify_single_pass cfg date_diff combined = Some "Medium")
      /\ (70 <= combined < 80 -> classify_single_pass cfg date_diff combined = Some "Low")
      /\ (combined < 70 -> classify_single_pass cfg date_diff combined = Some "Very Low")).
Proof.
  intros effective.
  assert (He : effective_threshold cfg date_diff = effective) by reflexivity.
  assert (Hc : classify_single_pass cfg date_diff combined =
               if combined <? effective then None else Some (fixed_band combined)).
  { unfold classify_single_pass. rewrite He, <- get_confidence_band_label.
    now destruct (_get_confidence_band combined) as [[l lo] hi]. }
  split; [intros Hm; unfold classify; now rewrite Hm |].
  split; [exact He |]. rewrite Hc. clear Hc He. unfold fixed_band.
  split.
  - intros H. apply Z.ltb_lt in H. now rewrite H.
  - intros H. apply Z.ltb_ge in H. rewrite H.
    repeat split; intros;
      repeat match goal with
             | |- context [?a <=? ?b] => destruct (Z.leb_spec a b); try lia
             end; reflexivity.
Qed.

(** When the scoring function returns no negative score, the combined
    score of a pair is classified without the two clamps at 0: High
    exactly when its date difference is 0 and it reaches the threshold,
    otherwise Medium exactly when the difference is within the tolerance
    and it reaches the threshold less 10, otherwise Low exactly when the
    difference is within the tolerance and it reaches the threshold less
    15, and discarded otherwise. *)
Theorem multi_pass_classification (cfg : MatchConfig) (t1_norm t2_norm : NormalizedRow)
    (date_diff : Z) :
  enable_multi_pass cfg = true ->
  (forall a b, 0 <= Scoring._fuzzy_score a b cfg) ->
  classify cfg date_diff (snd (_detailed_scoring t1_norm t2_norm date_diff cfg))
  = stated_multi_pass (threshold cfg) (date_tolerance_days cfg) date_diff
      (snd (_detailed_scoring t1_norm t2_norm date_diff cfg)).
Proof.
  intros Hm Hs.
  pose proof (detailed_scoring_lower t1_norm t2_norm date_diff cfg Hs) as Hc.
  generalize dependent (snd (_detailed_scoring t1_norm t2_norm date_diff cfg)).
  intros combined Hc.
  unfold classify, classify_multi_pass, stated_multi_pass,
    MULTI_PASS_MEDIUM_THRESHOLD_REDUCTION, MULTI_PASS_LENIENT_THRESHOLD_REDUCTION.
  rewrite Hm.
  assert (H10 : (Z.max 0 (threshold cfg - 10) <=? combined) = (threshold cfg - 10 <=? combined)).
  { destruct (Z.leb_spec (Z.max 0 (threshold cfg - 10)) combined),
             (Z.leb_spec (threshold cfg - 10) combined); lia. }
  assert (H15 : (Z.max 0 (threshold cfg - 15) <=? combined) = (threshold cfg - 15 <=? combined)).
  { destruct (Z.leb_spec (Z.max 0 (threshold cfg - 15)) combined),
             (Z.leb_spec (threshold cfg - 15) combined); lia. }
  now rewrite H10, H15.
Qed.

(** C4, as amended: with multi-pass classification a scored candidate is
    High exactly when its date difference is 0 and its combined score
    reaches the threshold; otherwise Medium exactly when the difference is
    within the tolerance and the score reaches the threshold less 10, and
    not less than 0; otherwise Low exactly when the difference is within
    the tolerance and the score reaches the threshold less 15, and not less
    than 0; and it is discarded in every other case. For a score that is
    not negative, or a threshold from 15 on, this is the classification as
    C4 states it. *)
Theorem multi_pass_classification_clamped (cfg : MatchConfig) (date_diff combined : Z) :
  enable_multi_pass cfg = true ->
  let high := date_diff = 0 /\ threshold cfg <= combined in
  let medium := date_diff <= date_tolerance_days cfg
                /\ Z.max 0 (threshold cfg - 10) <= combined in
  let low := date_diff <= date_tolerance_days cfg
             /\ Z.max 0 (threshold cfg - 15) <= combined in
  (classify cfg date_diff combined = Some "High" <-> high)
  /\ (classify cfg date_diff combined = Some "Medium" <-> ~ high /\ medium)
  /\ (classify cfg date_diff combined = Some "Low" <-> ~ high /\ ~ medium /\ low)
  /\ (classify cfg date_diff combined = None <-> ~ high /\ ~ medium /\ ~ low)
  /\ (0 <= combined \/ 15 <= threshold cfg ->
      classify cfg date_diff combined
      = stated_multi_pass (threshold cfg) (date_tolerance_days cfg) date_diff combined).
Proof.
  intros Hm. cbv zeta.
  unfold classify, classify_multi_pass, stated_multi_pass,
    MULTI_PASS_MEDIUM_THRESHOLD_REDUCTION, MULTI_PASS_LENIENT_THRESHOLD_REDUCTION.
  rewrite Hm.
  destruct (Z.eqb_spec date_diff 0) as [Hd | Hd];
  destruct (Z.leb_spec (threshold cfg) combined);
  destruct (Z.leb_spec date_diff (date_tolerance_days cfg));
  destruct (Z.leb_spec (Z.max 0 (threshold cfg - 10)) combined);
  destruct (Z.leb_spec (Z.max 0 (threshold cfg - 15)) combined);
  destruct (Z.leb_spec (threshold cfg - 10) combined);
  destruct (Z.leb_spec (threshold cfg - 15) combined);
  cbn [andb];
  repeat split; try discriminate; try tauto; try lia;
  try (intros; exfalso; lia); try (intros [= ]); try (intros; reflexivity).
Qed.

End EngineProperties.

(** ** matcher.py: the quick filter *)

Section QuickFilterProperties.
Import PyStr PyNum Constants MatchEngine.
Context {U : Unicodedata}.

Lemma normalize_row_fields (r : Row) (cfg : MatchConfig) :
  last_len (normalize_row r cfg) = len (last_norm (normalize_row r cfg))
  /\ first_len (normalize_row r cfg) = len (first_norm (normalize_row r cfg))
  /\ last_first_char (normalize_row r cfg) = first_char (last_norm (normalize_row r cfg))
  /\ last_soundex (normalize_row r cfg) =
       if enable_phonetic cfg && nonempty (last_norm (normalize_row r cfg))
       then Some (NameNormalizer.soundex_code (last_norm (normalize_row r cfg))) else None.
Proof.
  unfold normalize_row.
  destruct (_prepare_name (row_last r) (row_first r) cfg) as [l f].
  repeat split.
Qed.

Lemma nonempty_true (x : string) : x <> "" -> nonempty x = true.
Proof. destruct x; [contradiction | reflexivity]. Qed.

Lemma is_empty_false (x : string) : x <> "" -> is_empty x = false.
Proof. destruct x; [contradiction | reflexivity]. Qed.

Lemma first_char_nonempty (x : string) : x <> "" -> nonempty (first_char x) = true.
Proof. destruct x; [contradiction | reflexivity]. Qed.

(** C5, as amended: a pair is rejected when both sides have a last name
    and the length-difference ratio of the two exceeds 0.5, when both sides
    have a first name and the ratio of the two exceeds 0.5, and when both
    sides have a last name, the first characters differ, and it is not so
    that phonetic matching is enabled and the two phonetic codes are equal.
    A field that is empty on one side is not compared by length. *)
Theorem quick_filter_rejects (r1 r2 : Row) (cfg : MatchConfig) :
  let a := normalize_row r1 cfg in
  let b := normalize_row r2 cfg in
  (last_norm a <> "" -> last_norm b <> "" ->
   (1 # 2 < len_diff_ratio (len (last_norm a)) (len (last_norm b)))%Q ->
   _quick_filter a b cfg = false)
  /\ (first_norm a <> "" -> first_norm b <> "" ->
      (1 # 2 < len_diff_ratio (len (first_norm a)) (len (first_norm b)))%Q ->
      _quick_filter a b cfg = false)
  /\ (last_norm a <> "" -> last_norm b <> "" ->
      first_char (last_norm a) <> first_char (last_norm b) ->
      ~ (enable_phonetic cfg = true
         /\ NameNormalizer.soundex_code (last_norm a) = NameNormalizer.soundex_code (last_norm b)) ->
      _quick_filter a b cfg = false)
  /\ (last_norm a = "" -> last_norm b <> "" -> first_norm a <> "" ->
      enable_safe_missing cfg = false ->
      _quick_filter a b cfg =
        negb (nonempty (first_norm b)
              && Qlt_bool (1 # 2) (len_diff_ratio (len (first_norm a)) (len (first_norm b))))).
Proof.
  intros a b.
  destruct (normalize_row_fields r1 cfg) as (Hl1 & Hf1 & Hc1 & Hs1).
  destruct (normalize_row_fields r2 cfg) as (Hl2 & Hf2 & Hc2 & Hs2).
  fold a in Hl1, Hf1, Hc1, Hs1. fold b in Hl2, Hf2, Hc2, Hs2.
  unfold _quick_filter, MAX_NAME_LENGTH_DIFF_RATIO.
  rewrite Hl1, Hl2, Hf1, Hf2, Hc1, Hc2, Hs1, Hs2.
  clearbody a b. clear Hl1 Hl2 Hf1 Hf2 Hc1 Hc2 Hs1 Hs2.
  split; [| split; [| split]]; cycle 3.
  - intros Ha Hb Hf Hs.
    rewrite Ha, Hs, (is_empty_false _ Hb), (is_empty_false _ Hf), (nonempty_true _ Hf).
    cbn [is_empty nonempty andb orb negb].
    now destruct (nonempty (first_norm b) && _).
  - intros Ha Hb Hr. apply Qlt_bool_true in Hr.
    rewrite (is_empty_false _ Ha), (is_empty_false _ Hb),
      (nonempty_true _ Ha), (nonempty_true _ Hb), Hr.
    simpl. now destruct (enable_safe_missing cfg).
  - intros Ha Hb Hr. apply Qlt_bool_true in Hr.
    rewrite (is_empty_false _ Ha), (is_empty_false _ Hb),
      (nonempty_true _ Ha), (nonempty_true _ Hb), Hr.
    rewrite !andb_false_r. simpl.
    repeat match goal with |- context [if ?c then _ else _] => destruct c; try reflexivity end.
  - intros Ha Hb Hc Hp.
    rewrite (is_empty_false _ Ha), (is_empty_false _ Hb),
      (nonempty_true _ Ha), (nonempty_true _ Hb),
      (first_char_nonempty _ Ha), (first_char_nonempty _ Hb).
    apply String.eqb_neq in Hc. rewrite Hc.
    cbn [andb orb negb].
    repeat match goal with
           | |- (if ?c then false else _) = false => destruct c; [reflexivity |]
           end.
    destruct (enable_phonetic cfg); cbn [andb truthy]; [| reflexivity].
    destruct (nonempty _ && nonempty _); [| reflexivity].
    apply bool_decide_eq_false_2. intros [= E]. apply Hp. now split.
Qed.

End QuickFilterProperties.

(** ** matcher.py: the pipeline *)

Section PipelineProperties.
Import PyStr PyNum Calendar Constants MatchEngine.
Local Open Scope list_scope.
Context {U : Unicodedata} {F : RapidFuzz} {O : OptionalLibraries}
        {P : Pandas} {B : Builtins}.

(** *** The index of the rows *)

Lemma enumerate_from_fst {A} (n : nat) (t : list A) :
  fst <$> enumerate_from n t = seq n (length t).
Proof.
  revert n. induction t as [| r t IH]; intros n; simpl; [reflexivity |].
  now rewrite IH.
Qed.

Lemma enumerate_from_lookup {A} (n i : nat) (t : list A) (e : nat * A) :
  enumerate_from n t !! i = Some e -> fst e = (n + i)%nat /\ t !! i = Some (snd e).
Proof.
  revert n i. induction t as [| r t IH]; intros n i; simpl; [discriminate |].
  destruct i as [| i]; simpl.
  - intros [= <-]. split; [simpl; lia | reflexivity].
  - intros H. apply IH in H as [H1 H2]. split; [lia | exact H2].
Qed.

Lemma iterrows_NoDup {A} (t : list A) : NoDup (fst <$> iterrows t).
Proof. unfold iterrows. rewrite enumerate_from_fst. apply NoDup_seq. Qed.

(** *** The date index and the candidates *)

Lemma index_row_sound (t2_by_date : gmap Z (list (nat * Prepared))) (e : nat * Prepared) :
  index_sound t2_by_date -> index_sound (index_row t2_by_date e).
Proof.
  intros Hm key bucket. unfold index_row.
  destruct (p_date (snd e)) as [dt |] eqn:Ed; [| apply Hm].
  destruct (decide (date_key dt = key)) as [<- | Hne].
  - rewrite lookup_insert_eq. intros [= <-].
    apply Forall_app. split.
    + destruct (t2_by_date !! date_key dt) as [b |] eqn:Eb; simpl; [| constructor].
      now apply (Hm _ _ Eb).
    + constructor; [| constructor]. now exists dt.
  - rewrite lookup_insert_ne by assumption. apply Hm.
Qed.

Lemma build_date_index_sound (t2 : list (nat * Prepared)) : index_sound (build_date_index t2).
Proof.
  unfold build_date_index.
  assert (H : forall m, index_sound m -> index_sound (fold_left index_row t2 m)).
  { induction t2 as [| e t2 IH]; intros m Hm; simpl; [exact Hm |].
    apply IH, index_row_sound, Hm. }
  apply H. intros key bucket. now rewrite lookup_empty.
Qed.

Lemma add_bucket_within (cfg : MatchConfig) (t2_by_date : gmap Z (list (nat * Prepared)))
    (date1 check_date : Z) (acc : list (nat * Prepared) * gset nat) :
  index_sound t2_by_date ->
  Z.abs (date1 - check_date) <= date_tolerance_days cfg ->
  Forall (within_tolerance cfg date1) (fst acc) ->
  Forall (within_tolerance cfg date1) (fst (add_bucket t2_by_date check_date acc)).
Proof.
  intros Hm Hd. unfold add_bucket.
  destruct (t2_by_date !! check_date) as [bucket |] eqn:Eb; [| auto].
  specialize (Hm _ _ Eb). clear Eb. revert acc.
  induction Hm as [| e bucket He _ IH]; intros acc Hacc; simpl; [exact Hacc |].
  apply IH. unfold add_candidate.
  destruct (bool_decide (fst e ∈ snd acc)); [exact Hacc |].
  simpl. apply Forall_app. split; [exact Hacc |].
  constructor; [| constructor].
  destruct He as (dt & E1 & E2). exists dt. split; [exact E1 | now rewrite E2].
Qed.

(** The candidates of a date have a date within the tolerance of it. *)
Lemma candidates_of_within (cfg : MatchConfig) (t2_by_date : gmap Z (list (nat * Prepared)))
    (date1 : Z) :
  index_sound t2_by_date ->
  Forall (within_tolerance cfg date1) (candidates_of cfg t2_by_date date1).
Proof.
  intros Hm. unfold candidates_of.
  destruct (Z.leb_spec 0 (date_tolerance_days cfg)) as [H0 |]; [| constructor].
  assert (Hstart : Forall (within_tolerance cfg date1)
                     (fst (add_bucket t2_by_date date1 ([], ∅)))).
  { apply add_bucket_within; [exact Hm | lia | constructor]. }
  destruct (0 <? date_tolerance_days cfg); [| exact Hstart].
  assert (Hoff : Forall (fun k => 1 <= k <= date_tolerance_days cfg)
                   (day_offsets (date_tolerance_days cfg))).
  { unfold day_offsets. apply Forall_fmap, Forall_forall.
    intros k Hk. apply elem_of_seq in Hk. simpl. lia. }
  revert Hstart. generalize (add_bucket t2_by_date date1 ([], ∅)).
  induction Hoff as [| k ks Hk _ IH]; intros acc Hacc; simpl; [exact Hacc |].
  apply IH.
  apply add_bucket_within; [exact Hm | lia |].
  apply add_bucket_within; [exact Hm | lia | exact Hacc].
Qed.

(** *** The combined score of a surviving candidate *)

Lemma classify_lower (cfg : MatchConfig) (date_diff combined : Z) (confidence : string) :
  0 <= threshold cfg ->
  date_diff <= date_tolerance_days cfg ->
  classify cfg date_diff combined = Some confidence ->
  0 <= combined.
Proof.
  intros Ht Hd. apply Z.leb_le in Hd.
  unfold classify, classify_multi_pass, classify_single_pass, effective_threshold.
  rewrite Hd.
  destruct (enable_multi_pass cfg).
  - destruct (date_diff =? 0); simpl.
    + destruct (Z.leb_spec (threshold cfg) combined); [lia |].
      destruct (Z.leb_spec (Z.max 0 (threshold cfg - MULTI_PASS_MEDIUM_THRESHOLD_REDUCTION)) combined);
        [lia |].
      destruct (Z.leb_spec (Z.max 0 (threshold cfg - MULTI_PASS_LENIENT_THRESHOLD_REDUCTION)) combined);
        [lia | discriminate].
    + destruct (Z.leb_spec (Z.max 0 (threshold cfg - MULTI_PASS_MEDIUM_THRESHOLD_REDUCTION)) combined);
        [lia |].
      destruct (Z.leb_spec (Z.max 0 (threshold cfg - MULTI_PASS_LENIENT_THRESHOLD_REDUCTION)) combined);
        [lia | discriminate].
  - destruct (_get_confidence_band combined) as [[l lo] hi].
    destruct (Z.ltb_spec combined (Z.max 0 (threshold cfg - DATE_TOLERANCE_THRESHOLD_REDUCTION)));
      [discriminate | lia].
Qed.

Lemma score_candidate_bounds (cfg : MatchConfig) (t1_norm : NormalizedRow) (date1 : Z)
    (cand : nat * Prepared) (m : Match) :
  0 <= threshold cfg ->
  within_tolerance cfg date1 cand ->
  score_candidate cfg t1_norm date1 cand = Some m ->
  0 <= m_combined m <= 100.
Proof.
  intros Ht (dt & Ed & Hd). unfold score_candidate. rewrite Ed.
  destruct (negb _); [discriminate |].
  pose proof (detailed_scoring_upper t1_norm (p_norm (snd cand))
                (Z.abs (date1 - date_key dt)) cfg Hd) as Hup.
  destruct (_detailed_scoring _ _ _ cfg) as [[ls fs] combined]. simpl in Hup.
  destruct (classify cfg _ combined) as [confidence |] eqn:Ec; [| discriminate].
  intros [= <-]. simpl. split; [| exact Hup].
  eapply classify_lower; eassumption.
Qed.

(** *** Sorting and the choice of the rows to add *)

Lemma key_le_order (a b : Match) : key_le a b = true <-> key_order a b.
Proof.
  unfold key_le, key_order.
  rewrite orb_true_iff, andb_true_iff, Z.ltb_lt, Z.eqb_eq, Z.leb_le. lia.
Qed.

Lemma key_order_total (a b : Match) : key_le a b = false -> key_order b a.
Proof.
  unfold key_le, key_order.
  rewrite orb_false_iff, andb_false_iff, Z.ltb_ge, Z.eqb_neq, Z.leb_gt. lia.
Qed.

Lemma key_order_trans (a b c : Match) : key_order a b -> key_order b c -> key_order a c.
Proof. unfold key_order. lia. Qed.

Lemma insert_sorted_perm (x : Match) (l : list Match) : insert_sorted x l ≡ₚ x :: l.
Proof.
  induction l as [| y l IH]; simpl; [reflexivity |].
  destruct (key_le x y); [reflexivity |].
  rewrite IH. apply Permutation_swap.
Qed.

Lemma sort_matches_perm (l : list Match) : sort_matches l ≡ₚ l.
Proof.
  induction l as [| x l IH]; simpl; [reflexivity |].
  fold (sort_matches l). now rewrite insert_sorted_perm, IH.
Qed.

Lemma insert_sorted_sorted (x : Match) (l : list Match) :
  StronglySorted key_order l -> StronglySorted key_order (insert_sorted x l).
Proof.
  induction 1 as [| y l Hl IH Hy]; simpl; [repeat constructor |].
  destruct (key_le x y) eqn:E.
  - apply key_le_order in E. constructor.
    + now constructor.
    + constructor; [exact E |].
      eapply Forall_impl; [exact Hy |]. intros z Hz. eapply key_order_trans; eassumption.
  - apply key_order_total in E. constructor; [exact IH |].
    rewrite insert_sorted_perm. now constructor.
Qed.

Lemma sort_matches_sorted (l : list Match) : StronglySorted key_order (sort_matches l).
Proof.
  induction l as [| x l IH]; simpl; [constructor |].
  now apply insert_sorted_sorted.
Qed.

(** The sort is stable: the first of the sorted candidates is the earliest
    candidate among those of the least key. *)
Lemma sort_matches_head_stable (l : list Match) (best : Match) :
  head (sort_matches l) = Some best ->
  exists l1 l2, l = l1 ++ best :: l2 /\ Forall (fun m => ~ key_order m best) l1.
Proof.
  revert best. induction l as [| x l IH]; intros best; simpl; [discriminate |].
  fold (sort_matches l).
  destruct (sort_matches l) as [| y s] eqn:Es; simpl.
  - intros [= <-]. exists [], l. split; [reflexivity | constructor].
  - destruct (key_le x y) eqn:E; simpl; intros [= <-].
    + exists [], l. split; [reflexivity | constructor].
    + destruct (IH y eq_refl) as (l1 & l2 & -> & Hl1).
      exists (x :: l1), l2. split; [reflexivity |].
      constructor; [| exact Hl1].
      intros Hk. apply key_le_order in Hk. congruence.
Qed.

Lemma seen_pairs_put_values (seen_pairs : list (nat * Match)) (m : Match) (Q : Match -> Prop) :
  Forall Q (snd <$> seen_pairs) -> Q m -> Forall Q (snd <$> seen_pairs_put seen_pairs m).
Proof.
  intros H Hm. induction seen_pairs as [| [k e] rest IH]; simpl.
  - now repeat constructor.
  - simpl in H. apply Forall_cons in H as [He Hr].
    destruct (Nat.eqb k (m_idx2 m)); simpl.
    + constructor; [now destruct (replaces e m) | exact Hr].
    + constructor; [exact He | now apply IH].
Qed.

(** The rows to add are among the matching rows, in either mode. *)
Lemma rows_to_add_subset (cfg : MatchConfig) (rows : list Match) (Q : Match -> Prop) :
  Forall Q rows -> Forall Q (rows_to_add cfg rows).
Proof.
  intros H. unfold rows_to_add.
  destruct (show_all_matches cfg).
  - assert (G : forall d, Forall Q (snd <$> d) ->
                          Forall Q (snd <$> fold_left seen_pairs_put rows d)).
    { induction H as [| m rows Hm _ IH]; intros d Hd; simpl; [exact Hd |].
      apply IH. now apply seen_pairs_put_values. }
    apply G. constructor.
  - destruct rows as [| m rows']; [constructor |].
    apply Forall_take. now rewrite sort_matches_perm.
Qed.

(** *** The rows of the result *)

Lemma emit_row_from (Q : Match -> Prop) (i1 : nat) (st : LoopState) (m : Match) :
  Forall (row_from Q) (fst st) -> Q m -> Forall (row_from Q) (fst (emit_row i1 st m)).
Proof.
  intros Hst Hm. unfold emit_row.
  assert (Forall (row_from Q) (fst st ++ [matched_row i1 m])).
  { apply Forall_app. split; [exact Hst |]. apply Forall_singleton. right. now exists m. }
  destruct (snd st) as [seen |]; [| assumption].
  now destruct (bool_decide _).
Qed.

Lemma add_no_match_from (Q : Match -> Prop) (cfg : MatchConfig) (i1 : nat) (st : LoopState) :
  Forall (row_from Q) (fst st) -> Forall (row_from Q) (fst (add_no_match cfg i1 st)).
Proof.
  intros Hst. unfold add_no_match.
  destruct (show_all_matches cfg); [| exact Hst].
  simpl. apply Forall_app. split; [exact Hst |]. apply Forall_singleton. now left.
Qed.

Lemma row_step_from (cfg : MatchConfig) (t2_by_date : gmap Z (list (nat * Prepared)))
    (st : LoopState) (e1 : nat * Prepared) :
  0 <= threshold cfg ->
  index_sound t2_by_date ->
  Forall (row_from (fun m => 0 <= m_combined m <= 100)) (fst st) ->
  Forall (row_from (fun m => 0 <= m_combined m <= 100)) (fst (row_step cfg t2_by_date st e1)).
Proof.
  intros Ht Hm Hst. unfold row_step.
  destruct (p_date (snd e1)) as [date1 |]; [| now apply add_no_match_from].
  assert (Hrows : Forall (fun m => 0 <= m_combined m <= 100)
                    (matching_rows cfg (p_norm (snd e1)) (date_key date1)
                       (candidates_of cfg t2_by_date (date_key date1)))).
  { unfold matching_rows. apply Forall_forall. intros m Hin.
    apply list_elem_of_omap in Hin as (cand & Hcand & Hs).
    pose proof (candidates_of_within cfg t2_by_date (date_key date1) Hm) as Hw.
    rewrite Forall_forall in Hw.
    eapply score_candidate_bounds; [exact Ht | apply Hw, Hcand | exact Hs]. }
  destruct (candidates_of cfg t2_by_date (date_key date1));
    [now apply add_no_match_from |].
  apply (rows_to_add_subset cfg) in Hrows.
  cbv zeta.
  match goal with
  | |- context [fold_left _ _ ?s] =>
      assert (Hs : Forall (row_from (fun m => 0 <= m_combined m <= 100)) (fst s));
      [destruct (matching_rows _ _ _ _); [now apply add_no_match_from | exact Hst] |];
      revert Hs; generalize s
  end.
  induction Hrows as [| m rows Hq _ IH]; intros s Hs; simpl; [exact Hs |].
  apply IH. now apply emit_row_from.
Qed.

(** Every matched row of [pipeline_rows] has a combined score between 0
    and 100, in either mode, whatever the scoring function returns, for a
    configured threshold that is not negative. *)
Lemma pipeline_rows_combined_bounds (t1 t2 : Table) (cfg : MatchConfig) :
  0 <= threshold cfg ->
  Forall (row_from (fun m => 0 <= m_combined m <= 100)) (pipeline_rows t1 t2 cfg).
Proof.
  intros Ht. unfold pipeline_rows.
  destruct (_ || _); [constructor |].
  generalize (if show_all_matches cfg then Some (∅ : gset (nat * nat)) else None).
  intros seen.
  assert (G : forall l st, Forall (row_from (fun m => 0 <= m_combined m <= 100)) (fst st) ->
              Forall (row_from (fun m => 0 <= m_combined m <= 100))
                (fst (fold_left (row_step cfg (build_date_index (prepare t2 cfg))) l st))).
  { induction l as [| e1 l IH]; intros st Hst; simpl; [exact Hst |].
    apply IH, row_step_from; [exact Ht | apply build_date_index_sound | exact Hst]. }
  apply G. constructor.
Qed.

(** *** Single-best mode *)

Lemma emit_rows_single (i1 : nat) (rows : list Match) (results : list ResultRow) :
  fold_left (emit_row i1) rows (results, None) = (results ++ (matched_row i1 <$> rows), None).
Proof.
  revert results. induction rows as [| m rows IH]; intros results; simpl.
  - now rewrite app_nil_r.
  - unfold emit_row at 2. simpl. rewrite IH. now rewrite <- app_assoc.
Qed.

Lemma row_step_single (cfg : MatchConfig) (t2 : Table) (results : list ResultRow)
    (e1 : nat * Prepared) :
  show_all_matches cfg = false ->
  row_step cfg (build_date_index (prepare t2 cfg)) (results, None) e1
  = (results ++ single_best_rows cfg t2 e1, None).
Proof.
  intros Hmode. unfold row_step, single_best_rows, survivors, add_no_match, rows_to_add.
  rewrite Hmode.
  destruct (p_date (snd e1)) as [date1 |]; [| now rewrite app_nil_r].
  destruct (candidates_of cfg _ (date_key date1)).
  - simpl. now rewrite app_nil_r.
  - cbv zeta.
    destruct (matching_rows cfg (p_norm (snd e1)) (date_key date1) _) as [| m rows].
    + simpl. now rewrite app_nil_r.
    + apply emit_rows_single.
Qed.

Lemma fold_row_step_single (cfg : MatchConfig) (t2 : Table) (l : list (nat * Prepared))
    (results : list ResultRow) :
  show_all_matches cfg = false ->
  fold_left (row_step cfg (build_date_index (prepare t2 cfg))) l (results, None)
  = (results ++ flat_map (single_best_rows cfg t2) l, None).
Proof.
  intros Hmode. revert results.
  induction l as [| e1 l IH]; intros results; simpl.
  - now rewrite app_nil_r.
  - rewrite row_step_single by assumption. rewrite IH. now rewrite <- app_assoc.
Qed.

Lemma pipeline_rows_single (t1 t2 : Table) (cfg : MatchConfig) :
  show_all_matches cfg = false ->
  pipeline_rows t1 t2 cfg
  = if (length t1 =? 0)%nat || (length t2 =? 0)%nat then []
    else flat_map (single_best_rows cfg t2) (prepare t1 cfg).
Proof.
  intros Hmode. unfold pipeline_rows. rewrite Hmode.
  destruct (_ || _); [reflexivity |].
  now rewrite fold_row_step_single.
Qed.

Lemma rows_of_matched (i k : nat) (l : list Match) :
  rows_of i (matched_row k <$> l) = if decide (k = i) then matched_row k <$> l else [].
Proof.
  unfold rows_of. induction l as [| m l IH].
  - now destruct (decide (k = i)).
  - rewrite fmap_cons, filter_cons, IH. cbn [res_t1 matched_row].
    now destruct (decide (k = i)).
Qed.

Lemma rows_of_single_best (cfg : MatchConfig) (t2 : Table) (i : nat) (e1 : nat * Prepared) :
  rows_of i (single_best_rows cfg t2 e1)
  = if decide (fst e1 = i) then single_best_rows cfg t2 e1 else [].
Proof. apply rows_of_matched. Qed.

Lemma rows_of_absent (cfg : MatchConfig) (t2 : Table) (i : nat) (l : list (nat * Prepared)) :
  i ∉ fst <$> l -> rows_of i (flat_map (single_best_rows cfg t2) l) = [].
Proof.
  induction l as [| e l IH]; intros Hi; simpl; [reflexivity |].
  unfold rows_of in *. rewrite filter_app.
  fold (rows_of i (single_best_rows cfg t2 e)). rewrite rows_of_single_best.
  rewrite fmap_cons, not_elem_of_cons in Hi. destruct Hi as [Hne Hi].
  destruct (decide (fst e = i)); [congruence |].
  now rewrite IH.
Qed.

Lemma rows_of_present (cfg : MatchConfig) (t2 : Table) (l : list (nat * Prepared))
    (k : nat) (e1 : nat * Prepared) :
  NoDup (fst <$> l) -> l !! k = Some e1 ->
  rows_of (fst e1) (flat_map (single_best_rows cfg t2) l) = single_best_rows cfg t2 e1.
Proof.
  revert k. induction l as [| e l IH]; intros k Hnd Hk; [discriminate |].
  rewrite fmap_cons in Hnd. apply NoDup_cons in Hnd as [Hni Hnd].
  simpl. unfold rows_of. rewrite filter_app.
  fold (rows_of (fst e1) (single_best_rows cfg t2 e)).
  fold (rows_of (fst e1) (flat_map (single_best_rows cfg t2) l)).
  rewrite rows_of_single_best.
  destruct k as [| k]; simpl in Hk.
  - injection Hk as ->. rewrite decide_True by reflexivity.
    rewrite rows_of_absent by assumption. apply app_nil_r.
  - assert (fst e1 ∈ fst <$> l).
    { apply list_elem_of_fmap. exists e1. split; [reflexivity |].
      eapply list_elem_of_lookup_2, Hk. }
    rewrite decide_False by (intros E; apply Hni; now rewrite E).
    simpl. eapply IH; eassumption.
Qed.

Lemma rows_of_at_most_one (cfg : MatchConfig) (t2 : Table) (i : nat) (l : list (nat * Prepared)) :
  NoDup (fst <$> l) ->
  (length (rows_of i (flat_map (single_best_rows cfg t2) l)) <= 1)%nat.
Proof.
  intros Hnd.
  destruct (decide (i ∈ fst <$> l)) as [Hin | Hni].
  - apply list_elem_of_fmap in Hin as (e1 & -> & Hin).
    apply list_elem_of_lookup in Hin as [k Hk].
    rewrite (rows_of_present cfg t2 l k e1 Hnd Hk).
    unfold single_best_rows. rewrite length_fmap, length_take. lia.
  - rewrite rows_of_absent by assumption. simpl. lia.
Qed.

Lemma prepare_index (t : Table) (cfg : MatchConfig) (i : nat) (e : nat * Prepared) :
  prepare t cfg !! i = Some e -> fst e = i.
Proof.
  unfold prepare, iterrows. intros H.
  apply enumerate_from_lookup in H as [H _]. exact H.
Qed.

(** *** Show-all mode *)

Lemma emit_row_recorded (i1 : nat) (st : LoopState) (m : Match) :
  pairs_recorded st -> pairs_recorded (emit_row i1 st m).
Proof.
  intros (seen & Hs & Hnd & Hin). unfold emit_row. rewrite Hs.
  destruct (bool_decide_reflect ((i1, m_idx2 m) ∈ seen)) as [Hp | Hp].
  - exists seen. auto.
  - exists ({[(i1, m_idx2 m)]} ∪ seen). simpl.
    rewrite omap_app. simpl.
    split; [reflexivity |]. split.
    + apply NoDup_app. split; [exact Hnd |]. split.
      * intros p Hp1 Hp2. apply list_elem_of_singleton in Hp2 as ->. apply Hp, Hin, Hp1.
      * apply NoDup_singleton.
    + intros p Hp'. apply elem_of_app in Hp' as [Hp' | Hp'].
      * apply elem_of_union_r, Hin, Hp'.
      * apply list_elem_of_singleton in Hp' as ->. apply elem_of_union_l. set_solver.
Qed.

Lemma add_no_match_recorded (cfg : MatchConfig) (i1 : nat) (st : LoopState) :
  pairs_recorded st -> pairs_recorded (add_no_match cfg i1 st).
Proof.
  intros (seen & Hs & Hnd & Hin). unfold add_no_match.
  destruct (show_all_matches cfg); [| exists seen; auto].
  exists seen. simpl. rewrite omap_app. simpl. rewrite app_nil_r. auto.
Qed.

Lemma row_step_recorded (cfg : MatchConfig) (t2_by_date : gmap Z (list (nat * Prepared)))
    (st : LoopState) (e1 : nat * Prepared) :
  pairs_recorded st -> pairs_recorded (row_step cfg t2_by_date st e1).
Proof.
  intros Hst. unfold row_step.
  destruct (p_date (snd e1)) as [date1 |]; [| now apply add_no_match_recorded].
  destruct (candidates_of cfg t2_by_date (date_key date1));
    [now apply add_no_match_recorded |].
  cbv zeta.
  match goal with |- pairs_recorded (fold_left _ ?rows ?s) =>
    assert (Hs : pairs_recorded s);
    [destruct (matching_rows _ _ _ _); [now apply add_no_match_recorded | exact Hst] |];
    revert Hs; generalize s; induction rows as [| m rows' IH]; intros s0 Hs0; simpl;
    [exact Hs0 | apply IH, emit_row_recorded, Hs0]
  end.
Qed.

(** In show-all mode [pipeline_rows] has no two rows for one pair of a
    primary and a secondary row. *)
Lemma pipeline_rows_pairs_unique (t1 t2 : Table) (cfg : MatchConfig) :
  show_all_matches cfg = true ->
  NoDup (omap matched_pair (pipeline_rows t1 t2 cfg)).
Proof.
  intros Hmode. unfold pipeline_rows. rewrite Hmode.
  destruct (_ || _); [constructor |].
  assert (G : forall l st, pairs_recorded st ->
              pairs_recorded (fold_left (row_step cfg (build_date_index (prepare t2 cfg))) l st)).
  { induction l as [| e1 l IH]; intros st Hst; simpl; [exact Hst |].
    apply IH, row_step_recorded, Hst. }
  destruct (G (prepare t1 cfg) ([], Some ∅)) as (seen & _ & Hnd & _); [| exact Hnd].
  exists ∅. simpl. split; [reflexivity |]. split; [constructor |].
  intros p Hp. now apply elem_of_nil in Hp.
Qed.

(** *** The rows of one primary row *)

Lemma emit_row_other (i k : nat) (st : LoopState) (m : Match) :
  k <> i -> rows_of i (fst (emit_row k st m)) = rows_of i (fst st).
Proof.
  intros Hne. unfold emit_row.
  assert (H : rows_of i (fst st ++ [matched_row k m]) = rows_of i (fst st)).
  { unfold rows_of. rewrite filter_app, filter_cons. simpl.
    rewrite decide_False by exact Hne. apply app_nil_r. }
  destruct (snd st); [destruct (bool_decide _) |]; simpl; auto.
Qed.

Lemma add_no_match_other (cfg : MatchConfig) (i k : nat) (st : LoopState) :
  k <> i -> rows_of i (fst (add_no_match cfg k st)) = rows_of i (fst st).
Proof.
  intros Hne. unfold add_no_match.
  destruct (show_all_matches cfg); [| reflexivity].
  unfold rows_of. simpl. rewrite filter_app, filter_cons. simpl.
  rewrite decide_False by exact Hne. apply app_nil_r.
Qed.

(** A turn of the main loop leaves the rows of the other primary rows as
    they are. *)
Lemma row_step_other (cfg : MatchConfig) (t2_by_date : gmap Z (list (nat * Prepared)))
    (i : nat) (st : LoopState) (e1 : nat * Prepared) :
  fst e1 <> i ->
  rows_of i (fst (row_step cfg t2_by_date st e1)) = rows_of i (fst st).
Proof.
  intros Hne. unfold row_step.
  destruct (p_date (snd e1)) as [date1 |]; [| now apply add_no_match_other].
  destruct (candidates_of cfg t2_by_date (date_key date1));
    [now apply add_no_match_other |].
  cbv zeta.
  match goal with |- rows_of i (fst (fold_left _ ?rows ?s)) = _ =>
    assert (Hs : rows_of i (fst s) = rows_of i (fst st));
    [destruct (matching_rows _ _ _ _); [now apply add_no_match_other | reflexivity] |];
    rewrite <- Hs; clear Hs; generalize s; induction rows as [| m rows' IH]; intros s0; simpl;
    [reflexivity | rewrite IH; now apply emit_row_other]
  end.
Qed.

Lemma fold_row_step_other (cfg : MatchConfig) (t2_by_date : gmap Z (list (nat * Prepared)))
    (i : nat) (l : list (nat * Prepared)) (st : LoopState) :
  i ∉ fst <$> l ->
  rows_of i (fst (fold_left (row_step cfg t2_by_date) l st)) = rows_of i (fst st).
Proof.
  revert st. induction l as [| e l IH]; intros st Hi; simpl; [reflexivity |].
  rewrite fmap_cons, not_elem_of_cons in Hi. destruct Hi as [Hne Hi].
  rewrite IH by exact Hi. apply row_step_other. congruence.
Qed.

Lemma prepare_lookup (t : Table) (cfg : MatchConfig) (i : nat) (r : Row) :
  t !! i = Some r ->
  prepare t cfg !! i
  = Some (i, {| p_date := DateNormalizer.parse_date_safe (row_date r);
                p_norm := normalize_row r cfg |}).
Proof.
  unfold prepare, iterrows. intros H.
  assert (G : forall (l : list Prepared) n k x, l !! k = Some x ->
              enumerate_from n l !! k = Some ((n + k)%nat, x)).
  { induction l as [| y l IH]; intros n k x; [discriminate |].
    destruct k as [| k]; simpl.
    - intros [= ->]. now rewrite Nat.add_0_r.
    - intros Hk. rewrite (IH (S n) k x Hk). do 2 f_equal. lia. }
  apply (G _ 0%nat). now rewrite list_lookup_fmap, H.
Qed.

(** In show-all mode a primary row whose date the parser does not read
    has exactly one row in [pipeline_rows], the placeholder. *)
Lemma pipeline_rows_row_without_date (t1 t2 : Table) (cfg : MatchConfig)
    (i : nat) (r : Row) :
  show_all_matches cfg = true ->
  t2 <> [] ->
  t1 !! i = Some r ->
  DateNormalizer.parse_date_safe (row_date r) = None ->
  rows_of i (pipeline_rows t1 t2 cfg) = [no_match_row i].
Proof.
  intros Hmode Ht2 Hr Hd. unfold pipeline_rows. rewrite Hmode.
  assert (Hne : ((length t1 =? 0)%nat || (length t2 =? 0)%nat) = false).
  { apply orb_false_iff. split; apply Nat.eqb_neq.
    - intros E. apply nil_length_inv in E. subst t1. discriminate.
    - intros E. apply nil_length_inv in E. contradiction. }
  rewrite Hne.
  pose proof (prepare_lookup t1 cfg i r Hr) as Hp.
  pose proof (iterrows_NoDup
                ((fun r => {| p_date := DateNormalizer.parse_date_safe (row_date r);
                              p_norm := normalize_row r cfg |}) <$> t1)) as Hnd.
  fold (prepare t1 cfg) in Hnd.
  apply list_elem_of_split_length in Hp as (l1 & l2 & Hl & _).
  rewrite Hl in Hnd |- *.
  rewrite fmap_app, fmap_cons in Hnd. apply NoDup_app in Hnd as (_ & Hl1 & Hnd).
  apply NoDup_cons in Hnd as [Hl2 _]. simpl in Hl1, Hl2.
  rewrite fold_left_app. simpl.
  rewrite fold_row_step_other by exact Hl2.
  unfold row_step at 1. simpl. rewrite Hd. unfold add_no_match. rewrite Hmode. simpl.
  unfold rows_of. rewrite filter_app, filter_cons. simpl.
  rewrite decide_True by reflexivity.
  fold (rows_of i (fst (fold_left (row_step cfg (build_date_index (prepare t2 cfg))) l1
                          ([], Some ∅)))).
  rewrite fold_row_step_other; [reflexivity |].
  intros Hin. apply (Hl1 i Hin). left.
Qed.

(** *** The pipeline and what can raise in it *)

Lemma add_days_ok (d k o : Z) : add_days d k = Ok o -> o = d + k.
Proof.
  unfold add_days. cbv zeta.
  destruct (_ && _); [now intros [= <-] | discriminate].
Qed.

Lemma add_days_in_calendar (d k : Z) : 0 < d + k <= MAXORDINAL -> add_days d k = Ok (d + k).
Proof.
  intros [H1 H2]. unfold add_days. cbv zeta.
  apply Z.ltb_lt in H1. apply Z.leb_le in H2. now rewrite H1, H2.
Qed.

Lemma day_offsets_range (n : Z) : Forall (fun k => 1 <= k <= n) (day_offsets n).
Proof.
  unfold day_offsets. apply Forall_fmap, Forall_forall.
  intros k Hk. apply elem_of_seq in Hk. simpl. lia.
Qed.

Lemma add_offset_ok (t2_by_date : gmap Z (list (nat * Prepared))) (date1 k : Z)
    (acc acc' : list (nat * Prepared) * gset nat) :
  add_offset t2_by_date date1 acc k = Ok acc' ->
  acc' = add_bucket t2_by_date (date1 + k) (add_bucket t2_by_date (date1 - k) acc).
Proof.
  unfold add_offset.
  destruct (add_days date1 (- k)) as [o1 | e] eqn:E1; simpl; [| discriminate].
  destruct (add_days date1 k) as [o2 | e] eqn:E2; simpl; [| discriminate].
  apply add_days_ok in E1, E2. subst o1 o2. rewrite Z.add_opp_r. now intros [= <-].
Qed.

Lemma add_offset_returns (t2_by_date : gmap Z (list (nat * Prepared))) (date1 k : Z)
    (acc : list (nat * Prepared) * gset nat) :
  1 <= k -> 0 < date1 - k -> date1 + k <= MAXORDINAL ->
  add_offset t2_by_date date1 acc k
  = Ok (add_bucket t2_by_date (date1 + k) (add_bucket t2_by_date (date1 - k) acc)).
Proof.
  intros Hk Hlo Hhi. unfold add_offset.
  rewrite (add_days_in_calendar date1 (- k)) by lia. simpl.
  rewrite (add_days_in_calendar date1 k) by lia. simpl.
  now rewrite Z.add_opp_r.
Qed.

Lemma for_each_add_offset (t2_by_date : gmap Z (list (nat * Prepared))) (date1 : Z)
    (offsets : list Z) (acc acc' : list (nat * Prepared) * gset nat) :
  for_each (add_offset t2_by_date date1) offsets acc = Ok acc' ->
  acc' = fold_left (fun acc day_offset =>
                      add_bucket t2_by_date (date1 + day_offset)
                        (add_bucket t2_by_date (date1 - day_offset) acc)) offsets acc.
Proof.
  revert acc. induction offsets as [| k ks IH]; intros acc; simpl.
  - now intros [= <-].
  - destruct (add_offset t2_by_date date1 acc k) as [acc1 | e] eqn:E; simpl; [| discriminate].
    apply add_offset_ok in E. subst acc1. apply IH.
Qed.

Lemma for_each_add_offset_returns (t2_by_date : gmap Z (list (nat * Prepared))) (date1 : Z)
    (offsets : list Z) (acc : list (nat * Prepared) * gset nat) :
  Forall (fun k => 1 <= k /\ 0 < date1 - k /\ date1 + k <= MAXORDINAL) offsets ->
  for_each (add_offset t2_by_date date1) offsets acc
  = Ok (fold_left (fun acc day_offset =>
                     add_bucket t2_by_date (date1 + day_offset)
                       (add_bucket t2_by_date (date1 - day_offset) acc)) offsets acc).
Proof.
  intros H. revert acc. induction H as [| k ks (Hk & Hlo & Hhi) _ IH]; intros acc; simpl.
  - reflexivity.
  - rewrite add_offset_returns by assumption. simpl. apply IH.
Qed.

(** The search returns the candidates of the date, or raises. *)
Lemma find_candidates_ok (cfg : MatchConfig) (t2_by_date : gmap Z (list (nat * Prepared)))
    (date1 : Z) (candidates : list (nat * Prepared)) :
  find_candidates cfg t2_by_date date1 = Ok candidates ->
  candidates = candidates_of cfg t2_by_date date1.
Proof.
  unfold find_candidates, candidates_of. cbv zeta.
  destruct (0 <=? date_tolerance_days cfg); [| now intros [= <-]].
  destruct (0 <? date_tolerance_days cfg); simpl; [| now intros [= <-]].
  destruct (for_each _ _ _) as [acc | e] eqn:E; simpl; [| discriminate].
  intros [= <-]. apply for_each_add_offset in E. now subst acc.
Qed.

(** It returns when the dates it computes are in the calendar. *)
Lemma find_candidates_returns (cfg : MatchConfig) (t2_by_date : gmap Z (list (nat * Prepared)))
    (date1 : Z) :
  (forall k, 1 <= k <= date_tolerance_days cfg -> 0 < date1 - k /\ date1 + k <= MAXORDINAL) ->
  find_candidates cfg t2_by_date date1 = Ok (candidates_of cfg t2_by_date date1).
Proof.
  intros H. unfold find_candidates, candidates_of. cbv zeta.
  destruct (0 <=? date_tolerance_days cfg); [| reflexivity].
  destruct (0 <? date_tolerance_days cfg); simpl; [| reflexivity].
  rewrite for_each_add_offset_returns; [reflexivity |].
  eapply Forall_impl; [apply day_offsets_range |].
  intros k Hk. cbv beta in Hk |- *. destruct (H k Hk) as [Hlo Hhi]. split; [lia |]. now split.
Qed.

(** Only rows whose date is within the tolerance become candidates. *)
Lemma find_candidates_within (cfg : MatchConfig) (t2_by_date : gmap Z (list (nat * Prepared)))
    (date1 : Z) (candidates : list (nat * Prepared)) :
  index_sound t2_by_date ->
  find_candidates cfg t2_by_date date1 = Ok candidates ->
  Forall (within_tolerance cfg date1) candidates.
Proof.
  intros Hm Hc. apply find_candidates_ok in Hc. subst candidates.
  now apply candidates_of_within.
Qed.

Lemma progress_update_quiet (progress_cb : option (Z -> Exc unit)) (i1 : nat) (total : Z)
    (or_last : bool) :
  quiet progress_cb -> progress_update progress_cb i1 total or_last = Ok tt.
Proof.
  intros Hq. unfold progress_update.
  destruct progress_cb as [cb |]; [| reflexivity].
  destruct (_ || _); [| reflexivity].
  now apply Hq.
Qed.

Lemma process_row_ok (cfg : MatchConfig) (t2_by_date : gmap Z (list (nat * Prepared)))
    (progress_cb : option (Z -> Exc unit)) (total : Z) (st st' : LoopState)
    (e1 : nat * Prepared) :
  process_row cfg t2_by_date progress_cb total st e1 = Ok st' ->
  st' = row_step cfg t2_by_date st e1.
Proof.
  unfold process_row, row_step, add_rows. cbv zeta.
  destruct (p_date (snd e1)) as [date1 |].
  - destruct (find_candidates cfg t2_by_date (date_key date1)) as [c | e] eqn:Ec;
      simpl; [| discriminate].
    apply find_candidates_ok in Ec. rewrite <- Ec.
    destruct c as [| c0 c].
    + destruct (progress_update _ _ _ _); simpl; [now intros [= <-] | discriminate].
    + destruct (progress_update _ _ _ _); simpl; [now intros [= <-] | discriminate].
  - destruct (progress_update _ _ _ _); simpl; [now intros [= <-] | discriminate].
Qed.

Lemma process_row_returns (cfg : MatchConfig) (t2_by_date : gmap Z (list (nat * Prepared)))
    (progress_cb : option (Z -> Exc unit)) (total : Z) (st : LoopState)
    (e1 : nat * Prepared) :
  quiet progress_cb ->
  (forall dt k, p_date (snd e1) = Some dt -> 1 <= k <= date_tolerance_days cfg ->
     0 < date_key dt - k /\ date_key dt + k <= MAXORDINAL) ->
  process_row cfg t2_by_date progress_cb total st e1 = Ok (row_step cfg t2_by_date st e1).
Proof.
  intros Hq Hd. unfold process_row, row_step, add_rows. cbv zeta.
  destruct (p_date (snd e1)) as [date1 |].
  - rewrite find_candidates_returns by (intros k Hk; now apply Hd). simpl.
    destruct (candidates_of cfg t2_by_date (date_key date1));
      now rewrite progress_update_quiet.
  - now rewrite progress_update_quiet.
Qed.

Lemma for_each_process_row_ok (cfg : MatchConfig)
    (t2_by_date : gmap Z (list (nat * Prepared)))
    (progress_cb : option (Z -> Exc unit)) (total : Z) (rows : list (nat * Prepared))
    (st st' : LoopState) :
  for_each (process_row cfg t2_by_date progress_cb total) rows st = Ok st' ->
  st' = fold_left (row_step cfg t2_by_date) rows st.
Proof.
  revert st. induction rows as [| e1 rows IH]; intros st; simpl.
  - now intros [= <-].
  - destruct (process_row cfg t2_by_date progress_cb total st e1) as [s1 | e] eqn:E;
      simpl; [| discriminate].
    apply process_row_ok in E. subst s1. apply IH.
Qed.

Lemma for_each_process_row_returns (cfg : MatchConfig)
    (t2_by_date : gmap Z (list (nat * Prepared)))
    (progress_cb : option (Z -> Exc unit)) (total : Z) (rows : list (nat * Prepared))
    (st : LoopState) :
  quiet progress_cb ->
  Forall (fun e1 => forall dt k, p_date (snd e1) = Some dt ->
            1 <= k <= date_tolerance_days cfg ->
            0 < date_key dt - k /\ date_key dt + k <= MAXORDINAL) rows ->
  for_each (process_row cfg t2_by_date progress_cb total) rows st
  = Ok (fold_left (row_step cfg t2_by_date) rows st).
Proof.
  intros Hq H. revert st. induction H as [| e1 rows He _ IH]; intros st; simpl.
  - reflexivity.
  - rewrite process_row_returns by assumption. simpl. apply IH.
Qed.

Lemma empty_test (t1 t2 : Table) :
  ((Z.of_nat (length t1) =? 0) || (length t2 =? 0)%nat)
  = ((length t1 =? 0)%nat || (length t2 =? 0)%nat).
Proof. now destruct t1. Qed.

(** The standard pipeline returns the rows of [pipeline_rows], or raises. *)
Lemma standard_pipeline_ok (t1 t2 : Table) (cfg : MatchConfig)
    (progress_cb : option (Z -> Exc unit)) (out : list ResultRow) :
  standard_pipeline t1 t2 cfg progress_cb = Ok out -> out = pipeline_rows t1 t2 cfg.
Proof.
  unfold standard_pipeline, pipeline_rows. cbv zeta. rewrite empty_test.
  destruct (_ || _); [now intros [= <-] |].
  destruct (for_each _ _ _) as [st | e] eqn:E; simpl; [| discriminate].
  intros [= <-]. apply for_each_process_row_ok in E. now subst st.
Qed.

Lemma prepare_row (t : Table) (cfg : MatchConfig) (e : nat * Prepared) :
  e ∈ prepare t cfg ->
  exists r, t !! fst e = Some r /\ p_date (snd e) = DateNormalizer.parse_date_safe (row_date r).
Proof.
  intros He. apply list_elem_of_lookup in He as [i Hi].
  unfold prepare, iterrows in Hi.
  apply enumerate_from_lookup in Hi as [Hf Hs]. simpl in Hf.
  rewrite list_lookup_fmap in Hs.
  destruct (t !! i) as [r |] eqn:Er; [| discriminate].
  injection Hs as Hs. exists r. rewrite Hf. split; [exact Er |]. now rewrite <- Hs.
Qed.

(** It returns when the progress callback does not raise and no date that
    the search computes is outside the calendar. *)
Lemma standard_pipeline_returns (t1 t2 : Table) (cfg : MatchConfig)
    (progress_cb : option (Z -> Exc unit)) :
  quiet progress_cb -> in_calendar cfg t1 ->
  standard_pipeline t1 t2 cfg progress_cb = Ok (pipeline_rows t1 t2 cfg).
Proof.
  intros Hq Hc. unfold standard_pipeline, pipeline_rows. cbv zeta. rewrite empty_test.
  destruct (_ || _); [reflexivity |].
  rewrite for_each_process_row_returns; [reflexivity | exact Hq |].
  apply Forall_forall. intros e1 He dt k Hd Hk.
  apply prepare_row in He as (r & Hr & Hp).
  apply (Hc (fst e1) r dt k Hr); [now rewrite <- Hp | exact Hk].
Qed.

(** In show-all mode the table that the standard pipeline returns has no
    two rows for one pair of a primary and a secondary row. *)
Lemma standard_pipeline_pairs_unique (t1 t2 : Table) (cfg : MatchConfig)
    (progress_cb : option (Z -> Exc unit)) (out : list ResultRow) :
  show_all_matches cfg = true ->
  standard_pipeline t1 t2 cfg progress_cb = Ok out ->
  NoDup (omap matched_pair out).
Proof.
  intros Hmode Hout. apply standard_pipeline_ok in Hout. subst out.
  now apply pipeline_rows_pairs_unique.
Qed.

(** In show-all mode a primary row whose date the parser does not read
    gets exactly one row of the table returned, the placeholder. *)
Lemma standard_pipeline_row_without_date (t1 t2 : Table) (cfg : MatchConfig)
    (progress_cb : option (Z -> Exc unit)) (out : list ResultRow) (i : nat) (r : Row) :
  show_all_matches cfg = true ->
  t2 <> [] ->
  t1 !! i = Some r ->
  DateNormalizer.parse_date_safe (row_date r) = None ->
  standard_pipeline t1 t2 cfg progress_cb = Ok out ->
  rows_of i out = [no_match_row i].
Proof.
  intros Hmode Ht2 Hr Hd Hout. apply standard_pipeline_ok in Hout. subst out.
  now apply pipeline_rows_row_without_date with (r := r).
Qed.

Context {R : RecordLinkageLib}.

(** In single-best mode the table that the standard pipeline returns
    has at most one row for every primary index; the rows it has for a
    primary row are the first of that row's surviving candidates in sorted
    order (none when there is none); the pipeline returns a table when the
    progress callback does not raise and the dates it computes are in the
    calendar; the sorted order is a rearrangement of the candidates in
    which every candidate comes before those of a greater date difference
    and, at equal date difference, those of a smaller combined score; and
    its first is the earliest candidate of the least key. *)
Theorem single_best_mode (t1 t2 : Table) (cfg : MatchConfig)
    (progress_cb : option (Z -> Exc unit)) :
  show_all_matches cfg = false ->
  String.eqb (algorithm cfg) "Record Linkage" = false ->
  (forall out, match_tables t1 t2 cfg progress_cb = Ok out ->
     (forall i, (length (rows_of i out) <= 1)%nat)
     /\ (t2 <> [] -> forall i e1, prepare t1 cfg !! i = Some e1 ->
           rows_of i out = matched_row i <$> take 1 (sort_matches (survivors cfg t2 e1))))
  /\ (quiet progress_cb -> in_calendar cfg t1 ->
      exists out, match_tables t1 t2 cfg progress_cb = Ok out)
  /\ (forall rows, sort_matches rows ≡ₚ rows /\ StronglySorted key_order (sort_matches rows))
  /\ (forall rows best, head (sort_matches rows) = Some best ->
        exists l1 l2, rows = l1 ++ best :: l2 /\ Forall (fun m => ~ key_order m best) l1).
Proof.
  intros Hmode Halg. unfold match_tables. rewrite Halg.
  split; [| split; [| split]]; [| | | apply sort_matches_head_stable].
  - intros out Hout. apply standard_pipeline_ok in Hout. subst out.
    rewrite pipeline_rows_single by assumption.
    split.
    + intros i. destruct (_ || _); [simpl; lia |].
      apply rows_of_at_most_one. unfold prepare. apply iterrows_NoDup.
    + intros Ht2 i e1 Hi.
      assert (Hne : ((length t1 =? 0)%nat || (length t2 =? 0)%nat) = false).
      { apply orb_false_iff. split; apply Nat.eqb_neq.
        - intros E. apply nil_length_inv in E. subst t1. discriminate.
        - intros E. apply nil_length_inv in E. contradiction. }
      rewrite Hne.
      pose proof (prepare_index t1 cfg i e1 Hi) as Hfst. subst i.
      apply (rows_of_present cfg t2 (prepare t1 cfg) (fst e1) e1); [| exact Hi].
      unfold prepare. apply iterrows_NoDup.
  - intros Hq Hc. eexists. now apply standard_pipeline_returns.
  - intros rows. split; [apply sort_matches_perm | apply sort_matches_sorted].
Qed.

(** C10: the standard pipeline returns the empty table when either input
    has no row, in every mode and whatever the progress callback does; so a
    primary table facing an empty secondary table gets no placeholder rows,
    show-all or not. *)
Theorem empty_input_gives_empty_result (t1 t2 : Table) (cfg : MatchConfig)
    (progress_cb : option (Z -> Exc unit)) :
  String.eqb (algorithm cfg) "Record Linkage" = false ->
  match_tables [] t2 cfg progress_cb = Ok []
  /\ match_tables t1 [] cfg progress_cb = Ok [].
Proof.
  intros Halg. unfold match_tables, standard_pipeline. rewrite Halg. cbv zeta.
  split; [reflexivity |].
  now rewrite orb_true_r.
Qed.

(** The standard pipeline, through [match_tables]: every matched row of
    the table it returns has a combined score between 0 and 100, in either
    mode and whatever the scoring function returns, at a configured
    threshold that is not negative. *)
Theorem combined_score_in_range (t1 t2 : Table) (cfg : MatchConfig)
    (progress_cb : option (Z -> Exc unit)) (out : list ResultRow) :
  String.eqb (algorithm cfg) "Record Linkage" = false ->
  0 <= threshold cfg ->
  match_tables t1 t2 cfg progress_cb = Ok out ->
  Forall (fun r => forall c, Combined_Score r = Some c -> 0 <= c <= 100) out.
Proof.
  intros Halg Ht. unfold match_tables. rewrite Halg.
  intros Hout. apply standard_pipeline_ok in Hout. subst out.
  eapply Forall_impl; [apply (pipeline_rows_combined_bounds t1 t2 cfg Ht) |].
  intros r [E | (m & Hm & E)] c Hc; [congruence |].
  rewrite Hc in E. injection E as ->. exact Hm.
Qed.

End PipelineProperties.

(** ** date_normalizer.py: the round trip through the ISO rendering *)

Section DateProperties.
Import PyStr PyNum Calendar Regex DateNormalizer.

Lemma digit_cases (k : Z) : 0 <= k <= 9 ->
  k = 0 \/ k = 1 \/ k = 2 \/ k = 3 \/ k = 4 \/ k = 5 \/ k = 6 \/ k = 7 \/ k = 8 \/ k = 9.
Proof. lia. Qed.

Lemma digit_char_facts (k : Z) : 0 <= k <= 9 ->
  is_digit (digit_char k) = true /\ digit_val (digit_char k) = k
  /\ is_space (digit_char k) = false.
Proof.
  intros H. apply digit_cases in H.
  repeat destruct H as [-> | H]; try subst k; repeat split.
Qed.

Lemma mod10_digit (x : Z) : 0 <= x mod 10 <= 9.
Proof. pose proof (Z.mod_pos_bound x 10). lia. Qed.

Lemma m_digit_char (k : Z) (rest : string) : 0 <= k <= 9 ->
  m_digit (String (digit_char k) rest) = [(k, rest)].
Proof.
  intros H. destruct (digit_char_facts k H) as (H1 & H2 & _).
  unfold m_digit, m_bind, m_char, m_ret. rewrite H1. cbn [flat_map fst snd app]. now rewrite H2.
Qed.

Lemma m_bind_singleton {A C} (m : Matcher A) (k : A -> Matcher C) (s : string)
    (a : A) (r : string) :
  m s = [(a, r)] -> m_bind m k s = k a r.
Proof. unfold m_bind. intros ->. simpl. apply app_nil_r. Qed.

Lemma m_digit2_chars (a b : Z) (rest : string) : 0 <= a <= 9 -> 0 <= b <= 9 ->
  m_digit2 (String (digit_char a) (String (digit_char b) rest)) = [(10 * a + b, rest)].
Proof.
  intros Ha Hb. unfold m_digit2.
  rewrite (m_bind_singleton _ _ _ a _ (m_digit_char a _ Ha)).
  now rewrite (m_bind_singleton _ _ _ b _ (m_digit_char b _ Hb)).
Qed.

Lemma m_digit4_pad4 (y : Z) (rest : string) : 0 <= y <= 9999 ->
  m_digit4 (pad4 y rest) = [(y, rest)].
Proof.
  intros H. unfold m_digit4, pad4, pad2.
  rewrite (m_bind_singleton _ _ _ _ _
             (m_digit2_chars _ _ _ (mod10_digit (y / 1000)) (mod10_digit (y / 100)))).
  rewrite (m_bind_singleton _ _ _ _ _
             (m_digit2_chars _ _ _ (mod10_digit (y / 10)) (mod10_digit y))).
  unfold m_ret. do 2 f_equal.
  Z.div_mod_to_equations. lia.
Qed.

Lemma re_m_pad2 (m : Z) (rest : string) : 1 <= m <= 12 ->
  head (re_m (pad2 m rest)) = Some (m, rest).
Proof.
  intros H.
  assert (m = 1 \/ m = 2 \/ m = 3 \/ m = 4 \/ m = 5 \/ m = 6 \/ m = 7 \/ m = 8 \/ m = 9
          \/ m = 10 \/ m = 11 \/ m = 12) as C by lia.
  repeat destruct C as [-> | C]; try subst m; reflexivity.
Qed.

Lemma re_d_pad2 (d : Z) (rest : string) : 1 <= d <= 31 ->
  head (re_d (pad2 d rest)) = Some (d, rest).
Proof.
  intros H.
  assert (d = 1 \/ d = 2 \/ d = 3 \/ d = 4 \/ d = 5 \/ d = 6 \/ d = 7 \/ d = 8 \/ d = 9
          \/ d = 10 \/ d = 11 \/ d = 12 \/ d = 13 \/ d = 14 \/ d = 15 \/ d = 16 \/ d = 17
          \/ d = 18 \/ d = 19 \/ d = 20 \/ d = 21 \/ d = 22 \/ d = 23 \/ d = 24 \/ d = 25
          \/ d = 26 \/ d = 27 \/ d = 28 \/ d = 29 \/ d = 30 \/ d = 31) as C by lia.
  repeat destruct C as [-> | C]; try subst d; reflexivity.
Qed.

(** The first match of a sequence is the first match of its second part
    after the first match of its first part, when there is one. *)
Lemma head_m_bind {A C} (m : Matcher A) (k : A -> Matcher C) (s : string)
    (a : A) (r : string) (x : C * string) :
  head (m s) = Some (a, r) -> head (k a r) = Some x -> head (m_bind m k s) = Some x.
Proof.
  unfold m_bind. intros Hm Hk.
  destruct (m s) as [| [a' r'] tl]; [discriminate |].
  injection Hm as -> ->. simpl.
  destruct (k a r) as [| x' tl']; [discriminate |].
  injection Hk as ->. reflexivity.
Qed.

Lemma valid_date_bounds (d : date) : valid_date d = true ->
  1 <= year d <= 9999 /\ 1 <= month d <= 12 /\ 1 <= day d <= 31.
Proof.
  unfold valid_date. rewrite !andb_true_iff, !Z.leb_le.
  intros (((((H1 & H2) & H3) & H4) & H5) & H6).
  assert (days_in_month (year d) (month d) <= 31).
  { unfold days_in_month.
    repeat match goal with |- context [if ?c then _ else _] => destruct c end; lia. }
  lia.
Qed.

Lemma new_datetime_valid (d : date) : valid_date d = true ->
  exists dt, new_datetime (year d) (month d) (day d) = Some dt /\ ymd dt = d.
Proof.
  intros H. unfold new_datetime, new_date.
  destruct d as [y m dd]. simpl.
  destruct (bool_dec (valid_date (mkdate y m dd)) true) as [Hv | Hn]; [| contradiction].
  simpl. eexists. split; reflexivity.
Qed.

Lemma format_regex_directive (d : ascii) (fmt : string) (ws : bool) (st : date) :
  format_regex (String "%" (String d fmt)) ws st
  = m_bind (directive d st) (format_regex fmt false).
Proof. reflexivity. Qed.

Lemma format_regex_hyphen (fmt : string) (ws : bool) (st : date) :
  format_regex (String "-" fmt) ws st = m_bind (m_lit "-") (fun _ => format_regex fmt false st).
Proof. reflexivity. Qed.

Lemma directive_Y (st : date) (y : Z) (rest : string) : 0 <= y <= 9999 ->
  head (directive "Y" st (pad4 y rest)) = Some (mkdate y (month st) (day st), rest).
Proof.
  intros H.
  change (directive "Y" st) with (m_bind m_digit4 (fun y => m_ret (mkdate y (month st) (day st)))).
  now rewrite (m_bind_singleton _ _ _ _ _ (m_digit4_pad4 y rest H)).
Qed.

Lemma directive_m (st : date) (m : Z) (rest : string) : 1 <= m <= 12 ->
  head (directive "m" st (pad2 m rest)) = Some (mkdate (year st) m (day st), rest).
Proof.
  intros H.
  change (directive "m" st) with (m_bind re_m (fun m => m_ret (mkdate (year st) m (day st)))).
  eapply head_m_bind; [now apply re_m_pad2 | reflexivity].
Qed.

Lemma directive_d (st : date) (d : Z) (rest : string) : 1 <= d <= 31 ->
  head (directive "d" st (pad2 d rest)) = Some (mkdate (year st) (month st) d, rest).
Proof.
  intros H.
  change (directive "d" st) with (m_bind re_d (fun x => m_ret (mkdate (year st) (month st) x))).
  eapply head_m_bind; [now apply re_d_pad2 | reflexivity].
Qed.

(** [strptime] with the first of the common formats reads the ISO
    rendering of a date back. *)
Lemma strptime_isoformat (d : date) : valid_date d = true ->
  exists dt, strptime (isoformat d) "%Y-%m-%d" = Some dt /\ ymd dt = d.
Proof.
  intros Hv. destruct (valid_date_bounds d Hv) as (Hy & Hm & Hd).
  assert (Hre : re_match (format_regex "%Y-%m-%d" false (mkdate 1900 1 1)) (isoformat d)
                = Some (d, "")).
  { unfold re_match, isoformat.
    rewrite format_regex_directive.
    eapply head_m_bind; [apply directive_Y; lia |].
    rewrite format_regex_hyphen.
    eapply head_m_bind; [reflexivity |].
    rewrite format_regex_directive.
    eapply head_m_bind; [apply directive_m; lia |].
    rewrite format_regex_hyphen.
    eapply head_m_bind; [reflexivity |].
    rewrite format_regex_directive.
    eapply head_m_bind; [apply directive_d; lia |].
    now destruct d. }
  unfold strptime. rewrite Hre. now apply new_datetime_valid.
Qed.

Lemma strip_isoformat (d : date) : valid_date d = true -> strip (isoformat d) = isoformat d.
Proof.
  intros Hv. destruct (valid_date_bounds d Hv) as (Hy & Hm & Hd).
  destruct (digit_char_facts (year d / 1000 mod 10)) as (_ & _ & H1);
    [apply mod10_digit |].
  destruct (digit_char_facts (day d mod 10)) as (_ & _ & H2);
    [apply mod10_digit |].
  unfold strip, isoformat, pad4, pad2.
  cbn [lstrip]. rewrite H1. cbn [rstrip]. rewrite H2. reflexivity.
Qed.

Lemma isoformat_not_null (d : date) :
  is_empty (isoformat d) = false /\ bool_decide (lower (isoformat d) ∈ null_words) = false.
Proof.
  split; [reflexivity |].
  apply bool_decide_eq_false_2. unfold null_words, isoformat, pad4, pad2, lower.
  cbn [map_str]. intros H.
  repeat (apply elem_of_cons in H as [H | H]; [discriminate H |]).
  now apply elem_of_nil in H.
Qed.

Context {P : Pandas} {B : Builtins}.

(** What the round trip assumes of pandas: when [to_datetime] returns a
    timestamp for the ISO rendering of a date, it is that date. *)
Hypothesis to_datetime_reads_iso :
  forall dayfirst d dt, valid_date d = true ->
    to_datetime dayfirst (isoformat d) = Some dt -> ymd dt = d.

(** The canonical ISO rendering of a date parses to that date. *)
Lemma parse_isoformat (d : date) : valid_date d = true ->
  exists dt, parse_date_safe (VStr (isoformat d)) = Some dt /\ ymd dt = d.
Proof.
  intros Hv. unfold parse_date_safe. cbn [py_str excel_serial].
  rewrite (strip_isoformat d Hv).
  destruct (isoformat_not_null d) as [-> ->]. cbn [orb].
  unfold strategies. cbn [first_some].
  destruct (to_datetime false (isoformat d)) as [dt |] eqn:E1.
  { exists dt. split; [reflexivity | now apply (to_datetime_reads_iso false)]. }
  destruct (to_datetime true (isoformat d)) as [dt |] eqn:E2.
  { exists dt. split; [reflexivity | now apply (to_datetime_reads_iso true)]. }
  destruct (strptime_isoformat d Hv) as (dt & Hs & Hd).
  unfold _try_common_formats, common_formats. cbn [try_formats]. rewrite Hs.
  now exists dt.
Qed.


End DateProperties.

(** ** record_linkage_matcher.py *)

Section RecordLinkageProperties.
Import PyStr PyNum Calendar RecordLinkage.
Local Open Scope list_scope.
Context {P : Pandas} {B : Builtins} {R : RecordLinkageLib}.

Lemma loc_enumerate (n i : nat) (t : Table) (r : Row) (dt : datetime) :
  loc (omap (fun ir : nat * Row =>
               match DateNormalizer.parse_date_safe (row_date (snd ir)) with
               | Some dt => Some (fst ir, (snd ir, dt))
               | None => None
               end) (enumerate_from n t)) i = Ok (r, dt) ->
  exists k, i = (n + k)%nat /\ t !! k = Some r
            /\ DateNormalizer.parse_date_safe (row_date r) = Some dt.
Proof.
  revert n. induction t as [| r0 t IH]; intros n; simpl; [discriminate |].
  destruct (DateNormalizer.parse_date_safe (row_date r0)) as [dt0 |] eqn:E0; simpl.
  - destruct (Nat.eqb_spec n i) as [-> | Hne].
    + intros [= <- <-]. exists 0%nat. split; [lia | split; [reflexivity | exact E0]].
    + intros H. apply IH in H as (k & -> & Hk & Hp).
      exists (S k). split; [lia | split; assumption].
  - intros H. apply IH in H as (k & -> & Hk & Hp).
    exists (S k). split; [lia | split; assumption].
Qed.

(** A row found in a cleaned frame is a row of the table whose date the
    parser reads. *)
Lemma loc_clean (t : Table) (i : nat) (x : Row * datetime) :
  loc (clean t) i = Ok x -> has_parsed_date t i.
Proof.
  destruct x as [r dt]. unfold clean, iterrows. intros H.
  apply loc_enumerate in H as (k & -> & Hk & Hp).
  now exists r, dt.
Qed.

Lemma emit_matches_from_cleaned (t1 t2 : Table) (show_all_matches : bool)
    (features : list ((nat * nat) * Features)) (n_matches : nat)
    (progress_cb : option (Z -> Exc unit)) (items : list ((nat * nat) * Q))
    (results out : list ResultRow) (seen_pairs : gset (nat * nat)) :
  Forall (from_cleaned t1 t2) results ->
  emit_matches show_all_matches (clean t1) (clean t2) features n_matches progress_cb
    items results seen_pairs = Ok out ->
  Forall (from_cleaned t1 t2) out.
Proof.
  revert results seen_pairs.
  induction items as [| [key score] items IH]; intros results seen_pairs Hres; simpl.
  - now intros [= <-].
  - destruct (negb show_all_matches && bool_decide (key ∈ seen_pairs)); [now apply IH |].
    destruct (loc (clean t1) (fst key)) as [r1 | e] eqn:E1; simpl; [| discriminate].
    destruct (loc (clean t2) (snd key)) as [r2 | e] eqn:E2; simpl; [| discriminate].
    destruct (loc_pair features key) as [f | e]; simpl; [| discriminate].
    destruct (report_progress progress_cb _ n_matches) as [[] | e]; simpl; [| discriminate].
    apply IH. apply Forall_app. split; [exact Hres |].
    apply Forall_singleton. intros i2 [= <-]. simpl.
    split; eapply loc_clean; eassumption.
Qed.

Lemma unmatched_rows_from_cleaned (t1 t2 : Table) (matches : list ((nat * nat) * Q)) :
  Forall (from_cleaned t1 t2) (unmatched_rows t1 matches).
Proof.
  apply Forall_forall. intros r Hr.
  apply list_elem_of_omap in Hr as (ir & _ & Hr).
  destruct (bool_decide _); [discriminate |].
  injection Hr as <-. intros i2. discriminate.
Qed.

Lemma linkage_body_from_cleaned (t1 t2 : Table) (threshold : Q) (show_all_matches : bool)
    (progress_cb : option (Z -> Exc unit)) (out : list ResultRow) :
  linkage_body t1 t2 threshold show_all_matches progress_cb = Ok out ->
  Forall (from_cleaned t1 t2) out.
Proof.
  unfold linkage_body. cbv zeta.
  destruct (_ || _); [intros [= <-]; constructor |].
  destruct (rl_index (clean t1) (clean t2)) as [pairs | e]; simpl; [| discriminate].
  destruct (length pairs =? 0)%nat; [intros [= <-]; constructor |].
  destruct (rl_compute pairs (clean t1) (clean t2)) as [features | e]; simpl; [| discriminate].
  match goal with
  | |- context [emit_matches ?a ?b ?c ?d ?e ?f ?g ?h ?i] =>
      destruct (emit_matches a b c d e f g h i) as [results | e0] eqn:Em
  end; simpl; [| discriminate].
  apply emit_matches_from_cleaned in Em; [| constructor].
  destruct (call_final progress_cb) as [[] | e]; simpl; [| discriminate].
  intros [= <-].
  destruct show_all_matches; [| exact Em].
  apply Forall_app. split; [exact Em | apply unmatched_rows_from_cleaned].
Qed.

(** C8: [match_with_recordlinkage] returns a table in every case. It is
    the empty table when the library is not installed and whenever the body
    raises, as it does when blocking, the comparison or the progress
    callback raises; otherwise it is the table of the body. No matched row
    of the table names a row whose date the parser does not read. *)
Theorem linkage_failure_gives_empty_table (t1 t2 : Table) (threshold : Q)
    (show_all_matches : bool) (progress_cb : option (Z -> Exc unit)) :
  (HAS_RECORDLINKAGE = false ->
   match_with_recordlinkage t1 t2 threshold show_all_matches progress_cb = [])
  /\ (forall e, linkage_body t1 t2 threshold show_all_matches progress_cb = Raise e ->
      match_with_recordlinkage t1 t2 threshold show_all_matches progress_cb = [])
  /\ (forall e, rl_index (clean t1) (clean t2) = Raise e ->
      match_with_recordlinkage t1 t2 threshold show_all_matches progress_cb = [])
  /\ (forall e, (forall pairs, rl_compute pairs (clean t1) (clean t2) = Raise e) ->
      match_with_recordlinkage t1 t2 threshold show_all_matches progress_cb = [])
  /\ (forall e, progress_cb = Some (fun _ => Raise e) ->
      match_with_recordlinkage t1 t2 threshold show_all_matches progress_cb = [])
  /\ (forall out, HAS_RECORDLINKAGE = true ->
      linkage_body t1 t2 threshold show_all_matches progress_cb = Ok out ->
      match_with_recordlinkage t1 t2 threshold show_all_matches progress_cb = out)
  /\ Forall (from_cleaned t1 t2)
       (match_with_recordlinkage t1 t2 threshold show_all_matches progress_cb).
Proof.
  unfold match_with_recordlinkage.
  repeat split.
  - now intros ->.
  - intros e ->. now destruct (negb _).
  - intros e He. destruct (negb _); [reflexivity |].
    unfold linkage_body. cbv zeta. rewrite He.
    now destruct (_ || _).
  - intros e He. destruct (negb _); [reflexivity |].
    unfold linkage_body. cbv zeta.
    destruct (_ || _); [reflexivity |].
    destruct (rl_index _ _) as [pairs | e0]; simpl; [| reflexivity].
    destruct (_ =? _)%nat; [reflexivity |].
    now rewrite He.
  - intros e ->. destruct (negb _); [reflexivity |].
    unfold linkage_body. cbv zeta.
    destruct (_ || _); [reflexivity |].
    destruct (rl_index _ _) as [pairs | e0]; simpl; [| reflexivity].
    destruct (_ =? _)%nat; [reflexivity |].
    destruct (rl_compute _ _ _) as [features | e0]; simpl; [| reflexivity].
    match goal with
    | |- context [emit_matches ?a ?b ?c ?d ?e ?f ?g ?h ?i] =>
        destruct (emit_matches a b c d e f g h i) as [results | e0]
    end; reflexivity.
  - intros out Hl ->. now rewrite Hl.
  - destruct (negb _); [constructor |].
    destruct (linkage_body _ _ _ _ _) as [out | e] eqn:Eb; [| constructor].
    now apply linkage_body_from_cleaned in Eb.
Qed.

End RecordLinkageProperties.

(** ** name_normalizer.py: cleaning and canonical names *)

Section NameCleaningProperties.
Import PyStr NameNormalizer.

Lemma lower_char_not_upper (c : ascii) : is_upper (lower_char c) = false.
Proof. destruct c as [[] [] [] [] [] [] [] []]; reflexivity. Qed.

Lemma lower_char_punct (c : ascii) : is_punct (lower_char c) = is_punct c.
Proof. destruct c as [[] [] [] [] [] [] [] []]; reflexivity. Qed.

Lemma space_cases (c : ascii) : is_space c = true -> is_punct c = false /\ is_upper c = false.
Proof. destruct c as [[] [] [] [] [] [] [] []]; intros H; try discriminate H; split; reflexivity. Qed.

Lemma sub_runs_space_ok (in_run : bool) (s : string) :
  Forall (fun c => is_punct c = false /\ is_upper c = false) (to_list s) ->
  runs_ok in_run (sub_runs is_space in_run s) = true.
Proof.
  revert in_run. induction s as [| c s IH]; intros in_run H; simpl; [reflexivity |].
  simpl in H. apply Forall_cons in H as [[Hp Hu] H].
  destruct (is_space c) eqn:Es.
  - destruct in_run; [now apply IH |]. simpl. now apply IH.
  - simpl. destruct (Ascii.eqb_spec c " ") as [-> | Hne]; [discriminate Es |].
    unfold char_ok. rewrite Es, Hp, Hu. simpl. now apply IH.
Qed.

Lemma sub_runs_punct_chars (in_run : bool) (s : string) :
  Forall (fun c => is_upper c = false) (to_list s) ->
  Forall (fun c => is_punct c = false /\ is_upper c = false) (to_list (sub_runs is_punct in_run s)).
Proof.
  revert in_run. induction s as [| c s IH]; intros in_run H; simpl; [constructor |].
  simpl in H. apply Forall_cons in H as [Hu H].
  destruct (is_punct c) eqn:Ep.
  - destruct in_run; [now apply IH |]. simpl. constructor; [now split | now apply IH].
  - simpl. constructor; [now split | now apply IH].
Qed.

Lemma lower_chars (s : string) : Forall (fun c => is_upper c = false) (to_list (lower s)).
Proof.
  induction s as [| c s IH]; simpl; constructor; [apply lower_char_not_upper | exact IH].
Qed.


Lemma tokens_runs (b : bool) (s : string) : tokens_ok b s = true -> runs_ok b s = true.
Proof.
  revert b. induction s as [| c s IH]; intros b; simpl; [reflexivity |].
  destruct (Ascii.eqb c " ").
  - intros H. apply andb_true_iff in H as [H1 H2]. rewrite H1. now apply IH.
  - intros H. apply andb_true_iff in H as [H1 H2]. rewrite H1. now apply IH.
Qed.

Lemma char_ok_not_space (c : ascii) : char_ok c = true -> is_space c = false.
Proof. unfold char_ok. destruct (is_space c); [discriminate | reflexivity]. Qed.

Lemma rstrip_runs_ok (b : bool) (s : string) :
  runs_ok b s = true -> rstrip s = "" \/ tokens_ok b (rstrip s) = true.
Proof.
  revert b. induction s as [| c s IH]; intros b; simpl; [now left |].
  destruct (Ascii.eqb_spec c " ") as [-> | Hne].
  - intros H. apply andb_true_iff in H as [Hb H]. apply negb_true_iff in Hb. subst b.
    destruct (IH true H) as [E | E].
    + rewrite E. now left.
    + destruct (rstrip s) as [| c' r] eqn:Er; [now left |].
      right. simpl. exact E.
  - intros H. apply andb_true_iff in H as [Hc H].
    right. destruct (IH false H) as [E | E].
    + rewrite E. rewrite (char_ok_not_space c Hc). simpl.
      apply Ascii.eqb_neq in Hne. now rewrite Hne, Hc.
    + destruct (rstrip s) as [| c' r] eqn:Er.
      * rewrite (char_ok_not_space c Hc). simpl.
        apply Ascii.eqb_neq in Hne. now rewrite Hne, Hc.
      * simpl. apply Ascii.eqb_neq in Hne. rewrite Hne, Hc. exact E.
Qed.

Lemma lstrip_runs_ok (s : string) :
  runs_ok false s = true -> lstrip s = "" \/ runs_ok true (lstrip s) = true.
Proof.
  destruct s as [| c s]; simpl; [now left |].
  destruct (Ascii.eqb_spec c " ") as [-> | Hne].
  - simpl. intros H. destruct s as [| c' s']; [now left |].
    simpl in H |- *. destruct (Ascii.eqb_spec c' " ") as [-> | Hne']; [discriminate H |].
    apply andb_true_iff in H as [Hc H].
    rewrite (char_ok_not_space c' Hc). right. simpl.
    apply Ascii.eqb_neq in Hne'. now rewrite Hne', Hc.
  - intros H. apply andb_true_iff in H as [Hc H].
    rewrite (char_ok_not_space c Hc). right. simpl.
    apply Ascii.eqb_neq in Hne. now rewrite Hne, Hc.
Qed.

Lemma strip_runs_ok (s : string) : runs_ok false s = true -> is_clean (strip s) = true.
Proof.
  intros H. unfold strip.
  destruct (lstrip_runs_ok s H) as [E | E].
  - now rewrite E.
  - destruct (rstrip_runs_ok true _ E) as [E' | E'].
    + now rewrite E'.
    + unfold is_clean. now destruct (rstrip (lstrip s)).
Qed.

Section Clean.
Context {U : Unicodedata}.

Lemma basic_clean_is_clean (text : string) : is_clean (basic_clean text) = true.
Proof.
  unfold basic_clean. cbv zeta.
  apply strip_runs_ok, sub_runs_space_ok, sub_runs_punct_chars, lower_chars.
Qed.

End Clean.

Lemma tokens_ok_lower (b : bool) (s : string) : tokens_ok b s = true -> lower s = s.
Proof.
  revert b. induction s as [| c s IH]; intros b; simpl; [reflexivity |].
  destruct (Ascii.eqb_spec c " ") as [-> | Hne].
  - intros H. apply andb_true_iff in H as [_ H]. unfold lower in *. simpl.
    f_equal. now apply (IH true).
  - intros H. apply andb_true_iff in H as [Hc H]. unfold lower in *. simpl.
    f_equal; [| now apply (IH false)].
    unfold char_ok in Hc. unfold lower_char.
    destruct (is_upper c); [| reflexivity].
    rewrite andb_false_r in Hc. discriminate.
Qed.

Lemma tokens_ok_no_punct (b in_run : bool) (s : string) :
  tokens_ok b s = true -> sub_runs is_punct in_run s = s.
Proof.
  revert b in_run. induction s as [| c s IH]; intros b in_run; simpl; [reflexivity |].
  destruct (Ascii.eqb_spec c " ") as [-> | Hne].
  - intros H. apply andb_true_iff in H as [_ H]. simpl. f_equal. now apply (IH true).
  - intros H. apply andb_true_iff in H as [Hc H].
    unfold char_ok in Hc. destruct (is_punct c).
    + rewrite andb_false_r in Hc. discriminate.
    + f_equal. now apply (IH false).
Qed.

Lemma tokens_ok_single_spaces (b : bool) (s : string) :
  tokens_ok b s = true -> sub_runs is_space false s = s.
Proof.
  assert (G : forall s b in_run, tokens_ok b s = true -> (in_run = true -> b = true) ->
              sub_runs is_space in_run s = s).
  { clear. induction s as [| c s IH]; intros b in_run; simpl; [reflexivity |].
    destruct (Ascii.eqb_spec c " ") as [-> | Hne].
    - intros H Hr. apply andb_true_iff in H as [Hb H]. apply negb_true_iff in Hb.
      simpl. destruct in_run; [specialize (Hr eq_refl); congruence |].
      f_equal. now apply (IH true).
    - intros H Hr. apply andb_true_iff in H as [Hc H].
      rewrite (char_ok_not_space c Hc). f_equal. apply (IH false); [exact H | discriminate]. }
  intros H. apply (G s b false H). discriminate.
Qed.

Lemma tokens_ok_rstrip (b : bool) (s : string) : tokens_ok b s = true -> rstrip s = s.
Proof.
  revert b. induction s as [| c s IH]; intros b; simpl; [reflexivity |].
  destruct (Ascii.eqb_spec c " ") as [-> | Hne].
  - intros H. apply andb_true_iff in H as [_ H].
    rewrite (IH true H). destruct s; [discriminate H | reflexivity].
  - intros H. apply andb_true_iff in H as [Hc H].
    rewrite (IH false H). rewrite (char_ok_not_space c Hc). now destruct s.
Qed.

Lemma tokens_ok_lstrip (s : string) : tokens_ok true s = true -> lstrip s = s.
Proof.
  destruct s as [| c s]; simpl; [reflexivity |].
  destruct (Ascii.eqb_spec c " ") as [-> | Hne]; [discriminate |].
  intros H. apply andb_true_iff in H as [Hc H].
  now rewrite (char_ok_not_space c Hc).
Qed.

Lemma clean_strip (s : string) : is_clean s = true -> strip s = s.
Proof.
  destruct s as [| c s]; [reflexivity |]. unfold is_clean. intros H.
  unfold strip. rewrite (tokens_ok_lstrip _ H). now apply (tokens_ok_rstrip true).
Qed.

Section Clean2.
Context {U : Unicodedata}.

Lemma basic_clean_fixes_clean (s : string) : is_clean s = true -> basic_clean s = s.
Proof.
  intros H. unfold basic_clean. cbv zeta.
  rewrite (clean_strip s H).
  destruct s as [| c s]; [reflexivity |]. unfold is_clean in H.
  rewrite (tokens_ok_lower _ _ H), (tokens_ok_no_punct _ false _ H),
    (tokens_ok_single_spaces _ _ H).
  now apply (clean_strip (String c s)).
Qed.

(** [basic_clean] is idempotent, and what it returns is a cleaned name:
    empty, or words without white space, punctuation or capital letters,
    separated by single spaces. *)
Theorem basic_clean_idempotent (text : string) :
  basic_clean (basic_clean text) = basic_clean text
  /\ is_clean (basic_clean text) = true.
Proof.
  split; [apply basic_clean_fixes_clean |]; apply basic_clean_is_clean.
Qed.

End Clean2.

(** *** Splitting and joining a cleaned name *)
Lemma split_from_nonempty (cur : list ascii) (s : string) :
  cur <> [] -> split_from cur s <> [].
Proof.
  revert cur. induction s as [| c s IH]; intros cur H; simpl.
  - destruct cur; [contradiction | discriminate].
  - destruct (is_space c).
    + destruct cur; [contradiction | discriminate].
    + apply IH. discriminate.
Qed.

Lemma app_String (c : ascii) (s t : string) : String c s ++ t = String c (s ++ t).
Proof. reflexivity. Qed.

Lemma of_list_app (l1 l2 : list ascii) : of_list (l1 ++ l2) = of_list l1 ++ of_list l2.
Proof. induction l1 as [| a l1 IH]; [reflexivity |]. simpl. now rewrite app_String, IH. Qed.

Lemma string_app_assoc (a b c : string) : (a ++ b) ++ c = a ++ (b ++ c).
Proof. induction a as [| x a IH]; [reflexivity |]. now rewrite !app_String, IH. Qed.

Lemma string_app_nil_r (a : string) : a ++ "" = a.
Proof. induction a as [| x a IH]; [reflexivity |]. now rewrite !app_String, IH. Qed.

Lemma join_cons (sep p : string) (rest : list string) :
  rest <> [] -> join sep (p :: rest) = p ++ sep ++ join sep rest.
Proof. destruct rest; [contradiction | reflexivity]. Qed.

Lemma join_split_from (cur : list ascii) (b : bool) (s : string) :
  tokens_ok b s = true -> (b = true <-> cur = []) ->
  (cur = [] -> s <> "") ->
  join " " (split_from cur s) = of_list (rev cur) ++ s.
Proof.
  revert cur b. induction s as [| c s IH]; intros cur b H Hb Hs; simpl.
  - destruct cur as [| a cur]; [now specialize (Hs eq_refl) |].
    simpl. now rewrite string_app_nil_r.
  - simpl in H. destruct (Ascii.eqb_spec c " ") as [-> | Hne].
    + apply andb_true_iff in H as [Hnb H]. apply negb_true_iff in Hnb. subst b.
      change (is_space " ") with true. cbv iota.
      destruct cur as [| a cur]; [destruct Hb as [_ Hb]; now specialize (Hb eq_refl) |].
      assert (Hne : s <> "") by (intros ->; discriminate H).
      rewrite join_cons.
      * rewrite (IH [] true H); [reflexivity | tauto | auto].
      * destruct s as [| c' s']; [contradiction |].
        simpl in H |- *. destruct (Ascii.eqb_spec c' " ") as [-> | Hc']; [discriminate H |].
        apply andb_true_iff in H as [Hc H].
        rewrite (char_ok_not_space c' Hc). apply split_from_nonempty. discriminate.
    + apply andb_true_iff in H as [Hc H].
      rewrite (char_ok_not_space c Hc).
      rewrite (IH (c :: cur) false H).
      * simpl. rewrite of_list_app, string_app_assoc. reflexivity.
      * split; discriminate.
      * discriminate.
Qed.

Lemma join_split_clean (s : string) : is_clean s = true -> join " " (split s) = s.
Proof.
  destruct s as [| c s]; [reflexivity |]. unfold is_clean, split. intros H.
  rewrite (join_split_from [] true _ H); [reflexivity | tauto | discriminate].
Qed.

Lemma join_compound_nil (parts : list string) : join_compound parts = [] -> parts = [].
Proof.
  destruct parts as [| p [| q rest]]; simpl; [reflexivity | discriminate |].
  destruct (bool_decide _); discriminate.
Qed.

Lemma join_compound_step (p q : string) (rest : list string) :
  join_compound (p :: q :: rest)
  = if bool_decide (p ∈ COMPOUND_SURNAME_PREFIXES)
    then (p ++ " " ++ q) :: join_compound rest
    else p :: join_compound (q :: rest).
Proof. reflexivity. Qed.

Lemma join_join_compound (parts : list string) :
  join " " (join_compound parts) = join " " parts.
Proof.
  assert (G : forall n parts, (length parts <= n)%nat ->
              join " " (join_compound parts) = join " " parts).
  { clear. induction n as [| n IH]; intros parts Hn.
    - destruct parts; [reflexivity | simpl in Hn; lia].
    - destruct parts as [| p [| q rest]]; [reflexivity | reflexivity |].
      simpl in Hn. rewrite join_compound_step.
      destruct (bool_decide (p ∈ COMPOUND_SURNAME_PREFIXES)).
      + destruct rest as [| r rest'].
        * reflexivity.
        * rewrite join_cons.
          2:{ intros E. apply join_compound_nil in E. discriminate. }
          rewrite IH by (simpl in *; lia).
          rewrite (join_cons " " p) by discriminate.
          rewrite (join_cons " " q) by discriminate.
          now rewrite !string_app_assoc.
      + rewrite join_cons.
        2:{ intros E. apply join_compound_nil in E. discriminate. }
        rewrite IH by (simpl in *; lia).
        now rewrite (join_cons " " p) by discriminate. }
  apply (G (length parts)). lia.
Qed.

Section Compound.
Context {U : Unicodedata}.

(** The flag for compound surnames does not change what
    [normalize_component] returns. *)
Lemma normalize_component_compound_flag (text : string) :
  normalize_component text true = normalize_component text false.
Proof.
  unfold normalize_component. destruct (is_empty text); [reflexivity |]. cbv zeta.
  set (t := basic_clean _).
  destruct (is_empty t); [reflexivity |].
  destruct (1 <? length (split t))%nat; [| reflexivity].
  rewrite join_join_compound. apply join_split_clean, basic_clean_is_clean.
Qed.


End Compound.

Section Canonical.
Context {U : Unicodedata}.
Hypothesis unaccented : forall s, strip_accents s = s.

Lemma dict_get_miss (f : string) :
  Forall (fun kv => String.eqb (fst kv) f = false) FIRST_NAME_VARIANTS ->
  dict_get FIRST_NAME_VARIANTS f f = f.
Proof.
  generalize FIRST_NAME_VARIANTS. intros d H.
  induction H as [| [k v] d Hk _ IH]; simpl; [reflexivity |].
  simpl in Hk. now rewrite Hk.
Qed.

Lemma dict_get_cases (f : string) :
  (dict_get FIRST_NAME_VARIANTS f f = f
   /\ Forall (fun kv => String.eqb (fst kv) f = false) FIRST_NAME_VARIANTS)
  \/ dict_get FIRST_NAME_VARIANTS f f
     ∈ ["mohamed"; "alexander"; "anthony"; "michael"; "thomas"; "john"].
Proof.
  unfold FIRST_NAME_VARIANTS. cbn [dict_get].
  repeat match goal with
         | |- context [String.eqb ?k f] =>
             destruct (String.eqb k f) eqn:?; [right; set_solver |]
         end.
  left. split; [reflexivity |]. repeat constructor; assumption.
Qed.

(** On text without accents [canonical_first_name] is idempotent:
    a canonical first name is its own canonical form. *)
Theorem canonical_first_name_idempotent (first : string) :
  canonical_first_name (canonical_first_name first) = canonical_first_name first.
Proof.
  unfold canonical_first_name.
  destruct (is_empty first); [reflexivity |]. cbv zeta.
  rewrite !unaccented.
  pose proof (basic_clean_fixes_clean _ (basic_clean_is_clean first)) as Hi.
  set (f := basic_clean first) in *.
  destruct (dict_get_cases f) as [[E Hmiss] | Hv].
  - rewrite E, Hi, E. now destruct f.
  - set (r := dict_get FIRST_NAME_VARIANTS f f) in *. clearbody r.
    repeat (apply elem_of_cons in Hv as [-> | Hv]; [reflexivity |]).
    now apply elem_of_nil in Hv.
Qed.

End Canonical.

End NameCleaningProperties.

(** ** matcher.py: the option for compound surnames *)

Section DoubleSurnameProperties.
Import PyStr PyNum Calendar Constants NameNormalizer MatchEngine.
Context {U : Unicodedata} {F : RapidFuzz} {O : OptionalLibraries}
        {P : Pandas} {B : Builtins} {R : RecordLinkageLib}.

Lemma normalize_component_any_flag (text : string) (b b' : bool) :
  normalize_component text b = normalize_component text b'.
Proof.
  destruct b, b'; try reflexivity;
    [| symmetry]; apply normalize_component_compound_flag.
Qed.

Lemma normalize_row_double_surname (r : Row) (cfg : MatchConfig) (b : bool) :
  normalize_row r (with_double_surname cfg b) = normalize_row r cfg.
Proof.
  unfold normalize_row, _prepare_name. cbn [with_double_surname enable_pre_norm
    enable_variants enable_double_surname enable_phonetic].
  now rewrite (normalize_component_any_flag (row_last r) b (enable_double_surname cfg)).
Qed.

Lemma prepare_double_surname (t : list Row) (cfg : MatchConfig) (b : bool) :
  prepare t (with_double_surname cfg b) = prepare t cfg.
Proof.
  unfold prepare. f_equal. apply list_fmap_ext. intros i r _.
  now rewrite normalize_row_double_surname.
Qed.

Lemma find_candidates_double_surname (cfg : MatchConfig) (b : bool) idx d :
  find_candidates (with_double_surname cfg b) idx d = find_candidates cfg idx d.
Proof. reflexivity. Qed.

Lemma matching_rows_double_surname (cfg : MatchConfig) (b : bool) x d cands :
  matching_rows (with_double_surname cfg b) x d cands = matching_rows cfg x d cands.
Proof. reflexivity. Qed.

Lemma add_rows_double_surname (cfg : MatchConfig) (b : bool) i rows st :
  add_rows (with_double_surname cfg b) i rows st = add_rows cfg i rows st.
Proof. reflexivity. Qed.

Lemma add_no_match_double_surname (cfg : MatchConfig) (b : bool) i st :
  add_no_match (with_double_surname cfg b) i st = add_no_match cfg i st.
Proof. reflexivity. Qed.

Lemma process_row_double_surname (cfg : MatchConfig) (b : bool) idx cb total st e :
  process_row (with_double_surname cfg b) idx cb total st e = process_row cfg idx cb total st e.
Proof.
  unfold process_row.
  destruct (p_date (snd e)) as [date1 |]; [| now rewrite add_no_match_double_surname].
  rewrite find_candidates_double_surname.
  destruct (find_candidates cfg idx (date_key date1)) as [[| c cs] | err]; simpl.
  - now rewrite add_no_match_double_surname.
  - now rewrite matching_rows_double_surname, add_rows_double_surname.
  - reflexivity.
Qed.

Lemma for_each_ext {A S} (f g : S -> A -> Exc S) (l : list A) (s : S) :
  (forall s a, f s a = g s a) -> for_each f l s = for_each g l s.
Proof.
  intros H. revert s. induction l as [| a l IH]; intros s; simpl; [reflexivity |].
  rewrite H. destruct (g s a); simpl; [apply IH | reflexivity].
Qed.

(** The option for compound surnames has no effect on the table that
    [match_tables] returns: the tokens that [normalize_component] merges are
    joined again by the space that separated them. *)
Theorem match_tables_ignores_double_surname (t1 t2 : list Row) (cfg : MatchConfig) (b : bool)
    (progress_cb : option (Z -> Exc unit)) :
  match_tables t1 t2 (with_double_surname cfg b) progress_cb
  = match_tables t1 t2 cfg progress_cb.
Proof.
  unfold match_tables. cbn [with_double_surname algorithm threshold show_all_matches].
  destruct (String.eqb (algorithm cfg) "Record Linkage"); [reflexivity |].
  unfold standard_pipeline. rewrite !prepare_double_surname. cbv zeta.
  destruct (_ || _); [reflexivity |].
  cbn [with_double_surname show_all_matches].
  rewrite (for_each_ext _ (process_row cfg (build_date_index (prepare t2 cfg)) progress_cb
                            (Z.of_nat (length t1)))); [reflexivity |].
  intros s a. apply process_row_double_surname.
Qed.

End DoubleSurnameProperties.

(** ** matcher.py: symmetry and ranges of the scores *)

Section ScoreRangeProperties.
Import PyStr PyNum Constants MatchEngine.

Lemma len_diff_ratio_sym (a b : Z) : len_diff_ratio a b = len_diff_ratio b a.
Proof.
  unfold len_diff_ratio.
  replace (Z.abs (b - a)) with (Z.abs (a - b)) by lia.
  now replace (Z.max (Z.max b a) 1) with (Z.max (Z.max a b) 1) by lia.
Qed.

(** The quick filter does not depend on the order of the two rows. *)
Theorem quick_filter_symmetric (a b : NormalizedRow) (cfg : MatchConfig) :
  _quick_filter a b cfg = _quick_filter b a cfg.
Proof.
  unfold _quick_filter.
  rewrite (len_diff_ratio_sym (last_len b)), (len_diff_ratio_sym (first_len b)).
  rewrite (String.eqb_sym (last_first_char b)).
  rewrite (bool_decide_ext (last_soundex b = last_soundex a) (last_soundex a = last_soundex b))
    by (split; congruence).
  unfold nonempty.
  generalize (Qlt_bool MAX_NAME_LENGTH_DIFF_RATIO (len_diff_ratio (last_len a) (last_len b))).
  generalize (Qlt_bool MAX_NAME_LENGTH_DIFF_RATIO (len_diff_ratio (first_len a) (first_len b))).
  generalize (String.eqb (last_first_char a) (last_first_char b)).
  generalize (bool_decide (last_soundex a = last_soundex b)).
  generalize (truthy (last_soundex a)) (truthy (last_soundex b)).
  generalize (is_empty (last_first_char a)) (is_empty (last_first_char b)).
  generalize (is_empty (last_norm a)) (is_empty (first_norm a))
    (is_empty (last_norm b)) (is_empty (first_norm b))
    (enable_safe_missing cfg) (enable_phonetic cfg).
  intros la fa lb fb sm ph ca cb sa sb d e qf ql.
  destruct la, fa, lb, fb, sm; cbn [andb orb negb]; try reflexivity;
    destruct ql; cbn [andb orb negb]; try reflexivity;
    destruct qf; cbn [andb orb negb]; try reflexivity;
    destruct ca, cb; cbn [andb orb negb]; try reflexivity;
    destruct e; cbn [andb orb negb]; try reflexivity;
    destruct ph; cbn [andb orb negb]; try reflexivity;
    destruct sa, sb; reflexivity.
Qed.


Section ScoreRange.
Import Scoring.
Context {U : Unicodedata} {F : RapidFuzz} {O : OptionalLibraries}.
Hypothesis ranges : RapidFuzzRange F.

Lemma py_round_range (lo hi : Z) (x : Q) :
  (inject_Z lo <= x <= inject_Z hi)%Q -> lo <= py_round x <= hi.
Proof. intros [H1 H2]. split; [now apply py_round_lower | now apply py_round_upper]. Qed.

Lemma jaro_winkler_score_range (a b : string) : 0 <= jaro_winkler_score a b <= 100.
Proof.
  unfold jaro_winkler_score. apply py_round_range.
  pose proof (JaroWinkler_range F ranges a b) as [H1 H2].
  change (inject_Z 0) with 0%Q. change (inject_Z 100) with 100%Q. lra.
Qed.

Lemma base_fuzzy_range (a b algorithm : string) : 0 <= _base_fuzzy a b algorithm <= 100.
Proof.
  unfold _base_fuzzy.
  destruct (_ && _); [lia |]. destruct (_ || _); [lia |].
  destruct (String.eqb algorithm "Partial Ratio"); [apply (partial_ratio_range F ranges) |].
  destruct (String.eqb algorithm "Jaro-Winkler");
    [apply jaro_winkler_score_range | apply (WRatio_range F ranges)].
Qed.

Lemma Z_range_Q (x : Z) : 0 <= x <= 100 -> (0 <= inject_Z x <= 100)%Q.
Proof.
  intros [H1 H2]. rewrite Zle_Qle in H1, H2.
  change (inject_Z 0) with 0%Q in H1. change (inject_Z 100) with 100%Q in H2. now split.
Qed.

Lemma enhanced_fuzzy_range (a b : string) : 0 <= _enhanced_fuzzy a b <= 100.
Proof.
  unfold _enhanced_fuzzy.
  destruct (_ && _); [lia |]. destruct (_ || _); [lia |]. cbv zeta.
  apply py_round_range.
  pose proof (Z_range_Q _ (token_sort_ratio_range F ranges a b)).
  pose proof (Z_range_Q _ (partial_ratio_range F ranges a b)).
  change (inject_Z 0) with 0%Q. change (inject_Z 100) with 100%Q. lra.
Qed.

Lemma ensemble_score_range (a b : string) : 0 <= _ensemble_score a b <= 100.
Proof.
  unfold _ensemble_score.
  destruct (_ && _); [lia |]. destruct (_ || _); [lia |]. cbv zeta.
  apply py_round_range.
  pose proof (Z_range_Q _ (token_sort_ratio_range F ranges a b)).
  pose proof (Z_range_Q _ (partial_ratio_range F ranges a b)).
  pose proof (Z_range_Q _ (WRatio_range F ranges a b)).
  pose proof (Z_range_Q _ (jaro_winkler_score_range a b)).
  change (inject_Z 0) with 0%Q. change (inject_Z 100) with 100%Q. lra.
Qed.

Lemma double_metaphone_score_range (a b : string) : 0 <= _double_metaphone_score a b <= 100.
Proof.
  unfold _double_metaphone_score.
  destruct (negb HAS_METAPHONE); [cbv zeta; destruct (_ && _); lia |].
  pose proof (jaro_winkler_score_range a b).
  destruct (doublemetaphone a) as [dm1 | e]; [| assumption].
  destruct (doublemetaphone b) as [dm2 | e]; [| assumption].
  repeat match goal with |- context [if ?c then _ else _] => destruct c; try lia end.
Qed.

Lemma semantic_score_range (a b : string) :
  (forall model x, get_semantic_model = Some model -> model a b = Ok x -> (-1 <= x <= 1)%Q) ->
  -100 <= _semantic_score a b <= 100.
Proof.
  intros Hc. unfold _semantic_score.
  pose proof (jaro_winkler_score_range a b).
  destruct (negb HAS_SEMANTIC); [lia |].
  destruct get_semantic_model as [model |] eqn:Em; [| lia].
  destruct (model a b) as [x | e] eqn:Ex; [| lia].
  apply py_round_range. specialize (Hc model x eq_refl Ex).
  change (inject_Z (-100)) with (-100)%Q. change (inject_Z 100) with 100%Q. lra.
Qed.

(** With rapidfuzz ratios in 0..100 and a Jaro-Winkler similarity in
    0..1, [_fuzzy_score] is in 0..100 for every algorithm but semantic
    matching without the enhanced score, and there it is in -100..100 when
    the cosine of the model is in -1..1. *)
Theorem fuzzy_score_range (a b : string) (cfg : MatchConfig) :
  (enable_enhanced_fuzzy cfg = true \/ algorithm cfg <> "Semantic Matching"
   -> 0 <= _fuzzy_score a b cfg <= 100)
  /\ ((forall model x, get_semantic_model = Some model -> model a b = Ok x -> (-1 <= x <= 1)%Q)
      -> -100 <= _fuzzy_score a b cfg <= 100).
Proof.
  pose proof (enhanced_fuzzy_range a b). pose proof (ensemble_score_range a b).
  pose proof (double_metaphone_score_range a b). pose proof (jaro_winkler_score_range a b).
  pose proof (base_fuzzy_range a b (algorithm cfg)).
  unfold _fuzzy_score. split.
  - intros Hs.
    destruct (String.eqb_spec (algorithm cfg) "Ensemble") as [E | E];
      [rewrite andb_false_r; assumption |].
    destruct (enable_enhanced_fuzzy cfg); [assumption |]. cbn [andb negb].
    destruct (String.eqb_spec (algorithm cfg) "Semantic Matching") as [E2 | E2];
      [destruct Hs; [discriminate | contradiction] |].
    destruct (String.eqb (algorithm cfg) "Double Metaphone"); [assumption |].
    destruct (String.eqb (algorithm cfg) "Record Linkage"); assumption.
  - intros Hc. pose proof (semantic_score_range a b Hc).
    repeat match goal with |- context [if ?c then _ else _] => destruct c end; lia.
Qed.

End ScoreRange.

(** The adaptive weights of the two names are between 0.3 and 0.7 and
    add up to 1. *)
Theorem adaptive_weights_bounds (t1_norm t2_norm : NormalizedRow) :
  (3 # 10 <= fst (adaptive_weights t1_norm t2_norm) <= 7 # 10
   /\ 3 # 10 <= snd (adaptive_weights t1_norm t2_norm) <= 7 # 10
   /\ fst (adaptive_weights t1_norm t2_norm) + snd (adaptive_weights t1_norm t2_norm) == 1)%Q.
Proof.
  unfold adaptive_weights.
  destruct (0 <? _); [| simpl; lra].
  lazy zeta.
  generalize (inject_Z (last_len t1_norm + last_len t2_norm)
              / inject_Z (last_len t1_norm + last_len t2_norm
                          + (first_len t1_norm + first_len t2_norm)))%Q.
  generalize (inject_Z (first_len t1_norm + first_len t2_norm)
              / inject_Z (last_len t1_norm + last_len t2_norm
                          + (first_len t1_norm + first_len t2_norm)))%Q.
  intros fp lp.
  destruct (Qlt_bool (6 # 10) lp) eqn:E1.
  - apply Qlt_bool_true in E1. simpl.
    destruct (Q.min_spec (7 # 10) lp) as [[Hm ->] | [Hm ->]]; lra.
  - destruct (Qlt_bool (6 # 10) fp) eqn:E2; [| simpl; lra].
    apply Qlt_bool_true in E2. simpl.
    destruct (Q.min_spec (7 # 10) fp) as [[Hm ->] | [Hm ->]]; lra.
Qed.

(** For a candidate within the date tolerance and a threshold that is
    not negative: multi-pass classification keeps it exactly when its
    combined score reaches the threshold less 15 (not below 0), single-pass
    classification exactly when it reaches the threshold less 8, so
    multi-pass keeps every candidate that single-pass keeps. *)
Theorem multi_pass_floor (cfg : MatchConfig) (date_diff combined : Z) :
  0 <= threshold cfg ->
  date_diff <= date_tolerance_days cfg ->
  (classify_multi_pass cfg date_diff combined <> None
     <-> Z.max 0 (threshold cfg - 15) <= combined)
  /\ (classify_single_pass cfg date_diff combined <> None
     <-> Z.max 0 (threshold cfg - 8) <= combined)
  /\ (classify_single_pass cfg date_diff combined <> None ->
      classify_multi_pass cfg date_diff combined <> None).
Proof.
  intros Ht Hd.
  assert (H1 : classify_multi_pass cfg date_diff combined <> None
               <-> Z.max 0 (threshold cfg - 15) <= combined).
  { unfold classify_multi_pass, MULTI_PASS_MEDIUM_THRESHOLD_REDUCTION,
      MULTI_PASS_LENIENT_THRESHOLD_REDUCTION.
    apply Z.leb_le in Hd. rewrite Hd. cbn [andb].
    destruct (date_diff =? 0); cbn [andb];
      repeat match goal with
             | |- context [?a <=? ?b] => destruct (Z.leb_spec a b)
             end; split; intros; try lia; try congruence. }
  assert (H2 : classify_single_pass cfg date_diff combined <> None
               <-> Z.max 0 (threshold cfg - 8) <= combined).
  { unfold classify_single_pass, effective_threshold, DATE_TOLERANCE_THRESHOLD_REDUCTION.
    apply Z.leb_le in Hd. rewrite Hd.
    destruct (_get_confidence_band combined) as [[l lo] hi].
    destruct (Z.ltb_spec combined (Z.max 0 (threshold cfg - 8))); split; intros;
      try lia; congruence. }
  split; [exact H1 |]. split; [exact H2 |].
  rewrite H1, H2. lia.
Qed.

End ScoreRangeProperties.

(** ** matcher.py: the candidates of a row and show-all mode *)

Section CandidateProperties.
Import PyStr PyNum Calendar Constants MatchEngine.
Local Open Scope list_scope.

Lemma index_row_lookup (m : gmap Z (list (nat * Prepared))) (e : nat * Prepared) (key : Z) :
  default [] (index_row m e !! key)
  = default [] (m !! key) ++ (if decide (has_key key e) then [e] else []).
Proof.
  unfold index_row.
  destruct (decide (has_key key e)) as [(dt & Ed & Ek) | Hn].
  - rewrite Ed, Ek. now rewrite lookup_insert_eq.
  - destruct (p_date (snd e)) as [dt |] eqn:Ed; [| now rewrite app_nil_r].
    rewrite lookup_insert_ne; [now rewrite app_nil_r |].
    intros E. apply Hn. now exists dt.
Qed.

Lemma build_date_index_lookup (t2 : list (nat * Prepared)) (key : Z) :
  default [] (build_date_index t2 !! key) = filter (has_key key) t2.
Proof.
  unfold build_date_index.
  assert (G : forall l m, default [] (fold_left index_row l m !! key)
                          = default [] (m !! key) ++ filter (has_key key) l).
  { induction l as [| e l IH]; intros m; simpl; [now rewrite app_nil_r |].
    rewrite IH, index_row_lookup, filter_cons, <- app_assoc.
    now destruct (decide (has_key key e)). }
  rewrite G. now rewrite lookup_empty.
Qed.

Lemma add_bucket_default (m : gmap Z (list (nat * Prepared))) (d : Z)
    (acc : list (nat * Prepared) * gset nat) :
  add_bucket m d acc = fold_left add_candidate (default [] (m !! d)) acc.
Proof. unfold add_bucket. now destruct (m !! d). Qed.


Lemma add_candidate_ok (t2 : list (nat * Prepared)) acc (cand : nat * Prepared) :
  NoDup (fst <$> t2) -> cand ∈ t2 -> acc_ok t2 acc ->
  acc_ok t2 (add_candidate acc cand)
  /\ (forall e, e ∈ fst (add_candidate acc cand) <-> e ∈ fst acc \/ e = cand).
Proof.
  intros Hnd Hc (H1 & H2 & H3). unfold add_candidate.
  destruct (bool_decide_reflect (fst cand ∈ snd acc)) as [Hin | Hni].
  - split; [exact (conj H1 (conj H2 H3)) |].
    intros e. split; [auto |]. intros [He | ->]; [exact He |].
    apply H2, list_elem_of_fmap in Hin as (e' & Hf & He').
    assert (e' = cand); [| now subst].
    apply H3 in He'.
    apply list_elem_of_lookup in He' as [i Hi]. apply list_elem_of_lookup in Hc as [j Hj].
    assert (i = j).
    { eapply NoDup_lookup; [exact Hnd | |]; rewrite list_lookup_fmap.
      - rewrite Hi. reflexivity.
      - rewrite Hj. simpl. now rewrite Hf. }
    subst j. congruence.
  - cbn [fst snd]. split.
    + split; [| split].
      * cbn [fst]. rewrite fmap_app. apply NoDup_app. split; [exact H1 |]. split.
        -- intros i Hi Hi'. apply list_elem_of_singleton in Hi' as ->.
           apply Hni, H2, Hi.
        -- apply NoDup_singleton.
      * intros i. cbn [fst snd].
        rewrite fmap_app, elem_of_app, elem_of_union, elem_of_singleton, H2.
        change (fst <$> [cand]) with [fst cand]. rewrite list_elem_of_singleton. tauto.
      * intros e He. cbn [fst] in He. apply elem_of_app in He as [He | He]; [now apply H3 |].
        apply list_elem_of_singleton in He as ->. exact Hc.
    + intros e. rewrite elem_of_app, list_elem_of_singleton. tauto.
Qed.

Lemma add_candidates_ok (t2 : list (nat * Prepared)) (bucket : list (nat * Prepared)) acc :
  NoDup (fst <$> t2) -> (forall e, e ∈ bucket -> e ∈ t2) -> acc_ok t2 acc ->
  acc_ok t2 (fold_left add_candidate bucket acc)
  /\ (forall e, e ∈ fst (fold_left add_candidate bucket acc) <-> e ∈ fst acc \/ e ∈ bucket).
Proof.
  intros Hnd. revert acc. induction bucket as [| c bucket IH]; intros acc Hb Hacc; simpl.
  - split; [exact Hacc |]. intros e. rewrite elem_of_nil. tauto.
  - destruct (add_candidate_ok t2 acc c Hnd) as [Hok Hel];
      [apply Hb; now left | exact Hacc |].
    destruct (IH (add_candidate acc c)) as [Hok' Hel'];
      [intros e He; apply Hb; now right | exact Hok |].
    split; [exact Hok' |].
    intros e. rewrite Hel', Hel, elem_of_cons. tauto.
Qed.

Lemma add_bucket_ok (t2 : list (nat * Prepared)) (d : Z) acc :
  NoDup (fst <$> t2) -> acc_ok t2 acc ->
  acc_ok t2 (add_bucket (build_date_index t2) d acc)
  /\ (forall e, e ∈ fst (add_bucket (build_date_index t2) d acc)
                <-> e ∈ fst acc \/ (e ∈ t2 /\ has_key d e)).
Proof.
  intros Hnd Hacc. rewrite add_bucket_default, build_date_index_lookup.
  destruct (add_candidates_ok t2 (filter (has_key d) t2) acc Hnd) as [Hok Hel];
    [intros e He; now apply list_elem_of_filter in He as [_ He] | exact Hacc |].
  split; [exact Hok |].
  intros e. rewrite Hel, list_elem_of_filter. tauto.
Qed.

Lemma candidates_of_exact (cfg : MatchConfig) (t2 : list (nat * Prepared)) (date1 : Z) :
  NoDup (fst <$> t2) ->
  NoDup (fst <$> candidates_of cfg (build_date_index t2) date1)
  /\ (forall e, e ∈ candidates_of cfg (build_date_index t2) date1
                <-> e ∈ t2 /\ within_tolerance cfg date1 e).
Proof.
  intros Hnd. unfold candidates_of.
  destruct (Z.leb_spec 0 (date_tolerance_days cfg)) as [H0 | H0].
  2:{ split; [constructor |]. intros e. rewrite elem_of_nil.
      split; [tauto |]. intros [_ (dt & _ & Hd)]. lia. }
  cbv zeta.
  assert (Hempty : acc_ok t2 ([], ∅)).
  { repeat split; simpl; [constructor | set_solver | set_solver | intros e He; now apply elem_of_nil in He]. }
  destruct (add_bucket_ok t2 date1 ([], ∅) Hnd Hempty) as [Hok0 Hel0].
  assert (G : forall (n : nat) acc,
    acc_ok t2 acc ->
    (forall e, e ∈ fst acc <-> e ∈ t2 /\ exists dt, p_date (snd e) = Some dt
                                 /\ Z.abs (date1 - date_key dt) <= 0) ->
    acc_ok t2 (fold_left (fun acc day_offset =>
                            add_bucket (build_date_index t2) (date1 + day_offset)
                              (add_bucket (build_date_index t2) (date1 - day_offset) acc))
                 (Z.of_nat <$> seq 1 n) acc)
    /\ (forall e, e ∈ fst (fold_left (fun acc day_offset =>
                            add_bucket (build_date_index t2) (date1 + day_offset)
                              (add_bucket (build_date_index t2) (date1 - day_offset) acc))
                 (Z.of_nat <$> seq 1 n) acc)
                  <-> e ∈ t2 /\ exists dt, p_date (snd e) = Some dt
                                    /\ Z.abs (date1 - date_key dt) <= Z.of_nat n)).
  { intros n acc Hacc Hel. induction n as [| n IH].
    - simpl. split; [exact Hacc | exact Hel].
    - rewrite seq_S, fmap_app, fold_left_app.
      destruct IH as [Hok IHel].
      set (acc1 := fold_left _ (Z.of_nat <$> seq 1 n) acc) in *.
      change (Z.of_nat <$> [(1 + n)%nat]) with [Z.of_nat (1 + n)].
      cbn [fold_left].
      destruct (add_bucket_ok t2 (date1 - Z.of_nat (1 + n)) acc1 Hnd Hok) as [Hok1 Hel1].
      destruct (add_bucket_ok t2 (date1 + Z.of_nat (1 + n)) _ Hnd Hok1) as [Hok2 Hel2].
      split; [exact Hok2 |].
      intros e. rewrite Hel2, Hel1, IHel. unfold has_key.
      split.
      + intros [[(He & dt & Ed & Hd) | (He & dt & Ed & Hd)] | (He & dt & Ed & Hd)];
          (split; [exact He |]); exists dt; (split; [exact Ed | lia]).
      + intros (He & dt & Ed & Hd).
        destruct (decide (Z.abs (date1 - date_key dt) <= Z.of_nat n)) as [Hle | Hgt].
        * left. left. split; [exact He |]. now exists dt.
        * destruct (decide (date_key dt = date1 - Z.of_nat (1 + n))) as [E | E].
          -- left. right. split; [exact He |]. now exists dt.
          -- right. split; [exact He |]. exists dt. split; [exact Ed | lia]. }
  assert (Hel0' : forall e, e ∈ fst (add_bucket (build_date_index t2) date1 ([], ∅))
                   <-> e ∈ t2 /\ exists dt, p_date (snd e) = Some dt
                                 /\ Z.abs (date1 - date_key dt) <= 0).
  { intros e. rewrite Hel0. simpl. rewrite elem_of_nil. unfold has_key. split.
    - intros [[] | (He & dt & Ed & Hd)]. split; [exact He |]. exists dt. split; [exact Ed | lia].
    - intros (He & dt & Ed & Hd). right. split; [exact He |]. exists dt. split; [exact Ed | lia]. }
  destruct (Z.ltb_spec 0 (date_tolerance_days cfg)) as [Hpos | Hzero].
  - destruct (G (Z.to_nat (date_tolerance_days cfg)) _ Hok0 Hel0') as [(Hn1 & _) Hel].
    unfold day_offsets.
    split; [exact Hn1 |]. intros e. rewrite Hel. unfold within_tolerance.
    rewrite Z2Nat.id by exact H0. tauto.
  - destruct Hok0 as (Hn1 & _). split; [exact Hn1 |].
    intros e. rewrite Hel0'. unfold within_tolerance.
    assert (date_tolerance_days cfg = 0) as -> by lia. tauto.
Qed.


(** *** Show-all mode *)

(** The candidates of a primary date are exactly the rows of the
    secondary table whose date is within the tolerance of it, each row
    once. *)
Theorem find_candidates_exact (cfg : MatchConfig) (t2 : list (nat * Prepared)) (date1 : Z)
    (candidates : list (nat * Prepared)) :
  NoDup (fst <$> t2) ->
  find_candidates cfg (build_date_index t2) date1 = Ok candidates ->
  NoDup (fst <$> candidates)
  /\ (forall e, e ∈ candidates <-> e ∈ t2 /\ within_tolerance cfg date1 e).
Proof.
  intros Hnd Hc. apply find_candidates_ok in Hc. subst candidates.
  now apply candidates_of_exact.
Qed.

Section ShowAll.
Context {U : Unicodedata} {F : RapidFuzz} {O : OptionalLibraries}
        {P : Pandas} {B : Builtins}.

Lemma seen_pairs_put_fresh (seen_pairs : list (nat * Match)) (m : Match) :
  m_idx2 m ∉ fst <$> seen_pairs ->
  seen_pairs_put seen_pairs m = seen_pairs ++ [(m_idx2 m, m)].
Proof.
  induction seen_pairs as [| [k e] rest IH]; intros H; simpl; [reflexivity |].
  rewrite fmap_cons, not_elem_of_cons in H. destruct H as [Hne H]. simpl in Hne.
  destruct (Nat.eqb_spec k (m_idx2 m)) as [E | E]; [congruence |].
  now rewrite IH.
Qed.

Lemma seen_pairs_all_fresh (rows : list Match) (seen_pairs : list (nat * Match)) :
  NoDup (m_idx2 <$> rows) ->
  (forall m, m ∈ rows -> m_idx2 m ∉ fst <$> seen_pairs) ->
  fold_left seen_pairs_put rows seen_pairs
  = seen_pairs ++ ((fun m => (m_idx2 m, m)) <$> rows).
Proof.
  revert seen_pairs. induction rows as [| m rows IH]; intros sp Hnd Hf; simpl.
  - now rewrite app_nil_r.
  - rewrite fmap_cons in Hnd. apply NoDup_cons in Hnd as [Hni Hnd].
    rewrite seen_pairs_put_fresh by (apply Hf; now left).
    rewrite IH; [now rewrite <- app_assoc | exact Hnd |].
    intros m' Hm'. rewrite fmap_app, elem_of_app. intros [H | H].
    + revert H. apply Hf. now right.
    + simpl in H. apply list_elem_of_singleton in H.
      apply Hni. rewrite <- H. apply list_elem_of_fmap. now exists m'.
Qed.

Lemma rows_to_add_show_all (cfg : MatchConfig) (rows : list Match) :
  show_all_matches cfg = true -> NoDup (m_idx2 <$> rows) -> rows_to_add cfg rows = rows.
Proof.
  intros Hmode Hnd. unfold rows_to_add. rewrite Hmode.
  rewrite seen_pairs_all_fresh; [| exact Hnd | intros m _ H; now apply elem_of_nil in H].
  simpl. rewrite <- list_fmap_compose. apply list_fmap_id.
Qed.

Lemma score_candidate_idx (cfg : MatchConfig) (t1_norm : NormalizedRow) (date1 : Z)
    (cand : nat * Prepared) (m : Match) :
  score_candidate cfg t1_norm date1 cand = Some m -> m_idx2 m = fst cand.
Proof.
  unfold score_candidate. destruct (p_date (snd cand)); [| discriminate].
  destruct (negb _); [discriminate |].
  destruct (_detailed_scoring _ _ _ _) as [[ls fs] c].
  destruct (classify _ _ _); [| discriminate]. now intros [= <-].
Qed.

Lemma matching_rows_NoDup (cfg : MatchConfig) (t1_norm : NormalizedRow) (date1 : Z)
    (candidates : list (nat * Prepared)) :
  NoDup (fst <$> candidates) ->
  NoDup (m_idx2 <$> matching_rows cfg t1_norm date1 candidates).
Proof.
  unfold matching_rows. induction candidates as [| c cs IH]; intros H; simpl; [constructor |].
  rewrite fmap_cons in H. apply NoDup_cons in H as [Hni H].
  destruct (score_candidate cfg t1_norm date1 c) as [m |] eqn:E; [| now apply IH].
  rewrite fmap_cons. apply NoDup_cons. split; [| now apply IH].
  intros Hin. apply Hni. apply list_elem_of_fmap in Hin as (m' & Hm' & Hin).
  apply list_elem_of_omap in Hin as (c' & Hc' & Hs).
  apply score_candidate_idx in E, Hs.
  apply list_elem_of_fmap. exists c'. split; [congruence | exact Hc'].
Qed.

Lemma emit_rows_show_all (i1 : nat) (rows : list Match) (results : list ResultRow)
    (seen : gset (nat * nat)) :
  NoDup (m_idx2 <$> rows) ->
  (forall p, p ∈ seen -> fst p <> i1) ->
  exists seen',
    fold_left (emit_row i1) rows (results, Some seen)
    = (results ++ (matched_row i1 <$> rows), Some seen')
    /\ (forall p, p ∈ seen' -> fst p = i1 \/ p ∈ seen).
Proof.
  intros Hnd Hs.
  assert (G : forall rows results seen0,
    NoDup (m_idx2 <$> rows) ->
    (forall m, m ∈ rows -> (i1, m_idx2 m) ∉ seen0) ->
    (forall p, p ∈ seen0 -> fst p = i1 \/ p ∈ seen) ->
    exists seen',
      fold_left (emit_row i1) rows (results, Some seen0)
      = (results ++ (matched_row i1 <$> rows), Some seen')
      /\ (forall p, p ∈ seen' -> fst p = i1 \/ p ∈ seen)).
  { clear rows results Hnd.
    induction rows as [| m rows IH]; intros results seen0 Hnd Hf Hi; simpl.
    - exists seen0. now rewrite app_nil_r.
    - rewrite fmap_cons in Hnd. apply NoDup_cons in Hnd as [Hni Hnd].
      unfold emit_row at 2. cbn [fst snd].
      rewrite bool_decide_eq_false_2 by (apply Hf; now left).
      destruct (IH (results ++ [matched_row i1 m]) ({[(i1, m_idx2 m)]} ∪ seen0) Hnd)
        as (seen' & E & Hi').
      + intros m' Hm' Hin. apply elem_of_union in Hin as [Hin | Hin].
        * apply elem_of_singleton in Hin. injection Hin as Hin.
          apply Hni. rewrite <- Hin. apply list_elem_of_fmap. now exists m'.
        * revert Hin. apply Hf. now right.
      + intros p Hp. apply elem_of_union in Hp as [Hp | Hp].
        * apply elem_of_singleton in Hp as ->. now left.
        * now apply Hi.
      + exists seen'. split; [| exact Hi'].
        rewrite E. now rewrite <- app_assoc. }
  apply G; [exact Hnd | | auto].
  intros m _ Hin. now apply (Hs _ Hin).
Qed.

Lemma prepare_NoDup (t : list Row) (cfg : MatchConfig) : NoDup (fst <$> prepare t cfg).
Proof. unfold prepare. apply iterrows_NoDup. Qed.

Lemma row_step_show_all (cfg : MatchConfig) (t2 : list Row) (results : list ResultRow)
    (seen : gset (nat * nat)) (e1 : nat * Prepared) :
  show_all_matches cfg = true ->
  (forall p, p ∈ seen -> fst p <> fst e1) ->
  exists seen',
    row_step cfg (build_date_index (prepare t2 cfg)) (results, Some seen) e1
    = (results ++ show_all_rows cfg t2 e1, Some seen')
    /\ (forall p, p ∈ seen' -> fst p = fst e1 \/ p ∈ seen).
Proof.
  intros Hmode Hs. unfold row_step, show_all_rows, survivors, add_no_match.
  rewrite Hmode. cbn [fst snd].
  destruct (p_date (snd e1)) as [date1 |]; [| exists seen; auto].
  pose proof (candidates_of_exact cfg (prepare t2 cfg) (date_key date1) (prepare_NoDup t2 cfg))
    as [Hnd _].
  destruct (candidates_of cfg _ (date_key date1)) as [| c cs] eqn:Ec.
  { exists seen. auto. }
  cbv zeta.
  pose proof (matching_rows_NoDup cfg (p_norm (snd e1)) (date_key date1) _ Hnd) as Hrows.
  destruct (matching_rows cfg (p_norm (snd e1)) (date_key date1) (c :: cs)) as [| m rows] eqn:Er.
  { exists seen. unfold rows_to_add. rewrite Hmode. simpl. auto. }
  rewrite rows_to_add_show_all by assumption.
  apply emit_rows_show_all; assumption.
Qed.

Lemma fold_row_step_show_all (cfg : MatchConfig) (t2 : list Row) (l : list (nat * Prepared))
    (results : list ResultRow) (seen : gset (nat * nat)) :
  show_all_matches cfg = true ->
  NoDup (fst <$> l) ->
  (forall p, p ∈ seen -> fst p ∉ fst <$> l) ->
  fst (fold_left (row_step cfg (build_date_index (prepare t2 cfg))) l (results, Some seen))
  = results ++ flat_map (show_all_rows cfg t2) l.
Proof.
  intros Hmode. revert results seen.
  induction l as [| e1 l IH]; intros results seen Hnd Hs; simpl.
  - now rewrite app_nil_r.
  - rewrite fmap_cons in Hnd. apply NoDup_cons in Hnd as [Hni Hnd].
    destruct (row_step_show_all cfg t2 results seen e1 Hmode) as (seen' & E & Hs').
    { intros p Hp E. apply (Hs p Hp). rewrite fmap_cons, E. now left. }
    rewrite E. rewrite IH; [now rewrite <- app_assoc | exact Hnd |].
    intros p Hp Hin. destruct (Hs' p Hp) as [E' | Hp'].
    + apply Hni. now rewrite <- E'.
    + apply (Hs p Hp'). rewrite fmap_cons. now right.
Qed.

Lemma pipeline_rows_show_all (t1 t2 : list Row) (cfg : MatchConfig) :
  show_all_matches cfg = true ->
  pipeline_rows t1 t2 cfg
  = if (length t1 =? 0)%nat || (length t2 =? 0)%nat then []
    else flat_map (show_all_rows cfg t2) (prepare t1 cfg).
Proof.
  intros Hmode. unfold pipeline_rows. rewrite Hmode.
  destruct (_ || _); [reflexivity |].
  rewrite fold_row_step_show_all; [reflexivity | exact Hmode | apply prepare_NoDup |].
  intros p Hp. now apply elem_of_empty in Hp.
Qed.

Lemma show_all_rows_index (cfg : MatchConfig) (t2 : list Row) (e1 : nat * Prepared)
    (r : ResultRow) :
  r ∈ show_all_rows cfg t2 e1 -> res_t1 r = fst e1.
Proof.
  unfold show_all_rows. destruct (survivors cfg t2 e1) as [| m rows].
  - intros H. apply list_elem_of_singleton in H as ->. reflexivity.
  - intros H. apply list_elem_of_fmap in H as (m' & -> & _). reflexivity.
Qed.

Lemma rows_of_all (i : nat) (l : list ResultRow) :
  (forall r, r ∈ l -> res_t1 r = i) -> rows_of i l = l.
Proof.
  unfold rows_of. induction l as [| r l IH]; intros H; [reflexivity |].
  rewrite filter_cons. rewrite decide_True by (apply H; now left).
  f_equal. apply IH. intros r' Hr'. apply H. now right.
Qed.

Lemma rows_of_none (i : nat) (l : list ResultRow) :
  (forall r, r ∈ l -> res_t1 r <> i) -> rows_of i l = [].
Proof.
  unfold rows_of. induction l as [| r l IH]; intros H; [reflexivity |].
  rewrite filter_cons. rewrite decide_False by (apply H; now left).
  apply IH. intros r' Hr'. apply H. now right.
Qed.

Lemma elem_of_flat_map {A C} (f : A -> list C) (l : list A) (r : C) :
  r ∈ flat_map f l -> exists e, e ∈ l /\ r ∈ f e.
Proof.
  induction l as [| e l IH]; simpl; intros H; [now apply elem_of_nil in H |].
  apply elem_of_app in H as [H | H].
  - exists e. split; [now left | exact H].
  - destruct (IH H) as (e' & He' & Hr). exists e'. split; [now right | exact Hr].
Qed.

Lemma rows_of_flat_map (f : nat * Prepared -> list ResultRow) (l : list (nat * Prepared))
    (k : nat) (e1 : nat * Prepared) :
  (forall e r, r ∈ f e -> res_t1 r = fst e) ->
  NoDup (fst <$> l) -> l !! k = Some e1 ->
  rows_of (fst e1) (flat_map f l) = f e1.
Proof.
  intros Hf. revert k. induction l as [| e l IH]; intros k Hnd Hk; [discriminate |].
  rewrite fmap_cons in Hnd. apply NoDup_cons in Hnd as [Hni Hnd].
  simpl. unfold rows_of. rewrite filter_app.
  fold (rows_of (fst e1) (f e)). fold (rows_of (fst e1) (flat_map f l)).
  destruct k as [| k]; simpl in Hk.
  - injection Hk as ->. rewrite rows_of_all by (intros r Hr; now apply Hf).
    rewrite rows_of_none; [apply app_nil_r |].
    intros r Hr E. apply elem_of_flat_map in Hr as (e' & He' & Hr).
    apply Hf in Hr.
    apply Hni. apply list_elem_of_fmap. exists e'. split; [congruence | exact He'].
  - rewrite rows_of_none.
    + simpl. eapply IH; eassumption.
    + intros r Hr E. apply Hf in Hr. apply Hni.
      apply list_elem_of_fmap. exists e1. split; [congruence |].
      eapply list_elem_of_lookup_2, Hk.
Qed.

(** In show-all mode, against a secondary table that is not empty, the
    table that the standard pipeline returns is made of the rows of each
    primary row in turn: a row for each candidate that survives
    classification, in the order of the search, or the one placeholder when
    none does. *)
Theorem show_all_mode (t1 t2 : list Row) (cfg : MatchConfig)
    (progress_cb : option (Z -> Exc unit)) (out : list ResultRow) :
  show_all_matches cfg = true ->
  t2 <> [] ->
  standard_pipeline t1 t2 cfg progress_cb = Ok out ->
  out = flat_map (show_all_rows cfg t2) (prepare t1 cfg)
  /\ (forall i e1, prepare t1 cfg !! i = Some e1 -> rows_of i out = show_all_rows cfg t2 e1).
Proof.
  intros Hmode Ht2 Hout. apply standard_pipeline_ok in Hout.
  rewrite (pipeline_rows_show_all t1 t2 cfg Hmode) in Hout.
  assert (E : out = flat_map (show_all_rows cfg t2) (prepare t1 cfg)).
  { subst out. destruct t1 as [| r1 t1]; [reflexivity |].
    destruct t2 as [| r2 t2]; [contradiction | reflexivity]. }
  split; [exact E |].
  intros i e1 Hi. rewrite E.
  rewrite <- (prepare_index t1 cfg i e1 Hi).
  apply (rows_of_flat_map (show_all_rows cfg t2) (prepare t1 cfg) i e1);
    [apply show_all_rows_index | apply prepare_NoDup | exact Hi].
Qed.

End ShowAll.

End CandidateProperties.

(** ** date_normalizer.py: the explicit formats on dates with slashes *)

Section CommonFormatProperties.
Import PyStr PyNum Calendar Regex DateNormalizer.

Lemma format_regex_slash (fmt : string) (ws : bool) (st : date) :
  format_regex (String "/" fmt) ws st = m_bind (m_lit "/") (fun _ => format_regex fmt false st).
Proof. reflexivity. Qed.

Lemma m_digit4_slash (n : Z) (rest : string) :
  m_digit4 (pad2 n (String "/" rest)) = [].
Proof.
  unfold m_digit4, pad2.
  rewrite (m_bind_singleton _ _ _ _ _
             (m_digit2_chars _ _ _ (mod10_digit (n / 10)) (mod10_digit n))).
  reflexivity.
Qed.

Lemma strptime_iso_rejects_slash (n : Z) (rest : string) :
  strptime (pad2 n (String "/" rest)) "%Y-%m-%d" = None.
Proof.
  unfold strptime, re_match. rewrite format_regex_directive.
  change (directive "Y" (mkdate 1900 1 1))
    with (m_bind m_digit4 (fun y => m_ret (mkdate y 1 1))).
  unfold m_bind at 1 2. now rewrite m_digit4_slash.
Qed.

Lemma read_dmy (a b y : Z) :
  1 <= a <= 31 -> 1 <= b <= 12 -> 0 <= y <= 9999 ->
  re_match (format_regex "%d/%m/%Y" false (mkdate 1900 1 1))
    (pad2 a (String "/" (pad2 b (String "/" (pad4 y ""))))) = Some (mkdate y b a, "").
Proof.
  intros Ha Hb Hy. unfold re_match.
  rewrite format_regex_directive.
  eapply head_m_bind; [now apply directive_d |].
  rewrite format_regex_slash.
  eapply head_m_bind; [reflexivity |].
  rewrite format_regex_directive.
  eapply head_m_bind; [now apply directive_m |].
  rewrite format_regex_slash.
  eapply head_m_bind; [reflexivity |].
  rewrite format_regex_directive.
  eapply head_m_bind; [now apply directive_Y |].
  reflexivity.
Qed.

Lemma read_mdy (a b y : Z) :
  1 <= a <= 12 -> 1 <= b <= 31 -> 0 <= y <= 9999 ->
  re_match (format_regex "%m/%d/%Y" false (mkdate 1900 1 1))
    (pad2 a (String "/" (pad2 b (String "/" (pad4 y ""))))) = Some (mkdate y a b, "").
Proof.
  intros Ha Hb Hy. unfold re_match.
  rewrite format_regex_directive.
  eapply head_m_bind; [now apply directive_m |].
  rewrite format_regex_slash.
  eapply head_m_bind; [reflexivity |].
  rewrite format_regex_directive.
  eapply head_m_bind; [now apply directive_d |].
  rewrite format_regex_slash.
  eapply head_m_bind; [reflexivity |].
  rewrite format_regex_directive.
  eapply head_m_bind; [now apply directive_Y |].
  reflexivity.
Qed.

Lemma dmy_rejects_late_day (a b : Z) (tail : string) :
  1 <= a <= 12 -> 13 <= b <= 31 ->
  format_regex "%d/%m/%Y" false (mkdate 1900 1 1)
    (pad2 a (String "/" (pad2 b (String "/" tail)))) = [].
Proof.
  intros Ha Hb.
  assert (Ca : a = 1 \/ a = 2 \/ a = 3 \/ a = 4 \/ a = 5 \/ a = 6 \/ a = 7 \/ a = 8 \/ a = 9
          \/ a = 10 \/ a = 11 \/ a = 12) by lia.
  assert (Cb : b = 13 \/ b = 14 \/ b = 15 \/ b = 16 \/ b = 17
          \/ b = 18 \/ b = 19 \/ b = 20 \/ b = 21 \/ b = 22 \/ b = 23 \/ b = 24 \/ b = 25
          \/ b = 26 \/ b = 27 \/ b = 28 \/ b = 29 \/ b = 30 \/ b = 31) by lia.
  clear Ha Hb.
  repeat destruct Ca as [-> | Ca]; try subst a.
  all: repeat destruct Cb as [-> | Cb]; try subst b.
  all: vm_compute; reflexivity.
Qed.

Lemma valid_swap (d : date) : valid_date d = true -> day d <= 12 ->
  valid_date (mkdate (year d) (day d) (month d)) = true.
Proof.
  unfold valid_date. rewrite !andb_true_iff, !Z.leb_le. simpl.
  intros (((((H1 & H2) & H3) & H4) & H5) & H6) H7.
  assert (28 <= days_in_month (year d) (day d)).
  { unfold days_in_month.
    repeat match goal with |- context [if ?c then _ else _] => destruct c end; lia. }
  lia.
Qed.

Lemma try_formats_skip (s fmt : string) (rest : list string) :
  strptime s fmt = None -> try_formats s (fmt :: rest) = try_formats s rest.
Proof. intros H. cbn [try_formats]. now rewrite H. Qed.

Lemma try_formats_first (s fmt : string) (rest : list string) (dt : datetime) :
  strptime s fmt = Some dt -> try_formats s (fmt :: rest) = Some dt.
Proof. intros H. cbn [try_formats]. now rewrite H. Qed.

Lemma strptime_full (s fmt : string) (st : date) :
  re_match (format_regex fmt false (mkdate 1900 1 1)) s = Some (st, "") ->
  valid_date st = true ->
  exists dt, strptime s fmt = Some dt /\ ymd dt = st /\ time_part dt = 0.
Proof.
  intros Hre Hv. unfold strptime. rewrite Hre.
  unfold new_datetime, new_date. destruct st as [y m d]. cbn [year month day].
  destruct (bool_dec (valid_date (mkdate y m d)) true) as [Hv' | Hn]; [| contradiction].
  eexists. repeat split.
Qed.

(** [_try_common_formats] reads the rendering dd/mm/yyyy of a date as
    that date, at midnight. *)
Theorem try_common_formats_day_first (d : date) : valid_date d = true ->
  exists dt, _try_common_formats (render_dmy d) = Some dt
             /\ ymd dt = d /\ time_part dt = 0.
Proof.
  intros Hv. destruct (valid_date_bounds d Hv) as (Hy & Hm & Hd).
  destruct (strptime_full (render_dmy d) "%d/%m/%Y" d) as (dt & Hs & Hdt).
  { unfold render_dmy. rewrite read_dmy by lia. destruct d; reflexivity. }
  { exact Hv. }
  exists dt. split; [| exact Hdt].
  unfold _try_common_formats, common_formats.
  rewrite try_formats_skip by (unfold render_dmy; apply strptime_iso_rejects_slash).
  apply try_formats_first; exact Hs.
Qed.

(** [_try_common_formats] reads the rendering mm/dd/yyyy of a date as
    that date only when its day is above 12; up to 12 it reads the date
    with day and month exchanged, the day-first format being tried
    first. *)
Theorem try_common_formats_month_first (d : date) : valid_date d = true ->
  exists dt, _try_common_formats (render_mdy d) = Some dt
             /\ ymd dt = (if day d <=? 12 then mkdate (year d) (day d) (month d) else d)
             /\ time_part dt = 0.
Proof.
  intros Hv. destruct (valid_date_bounds d Hv) as (Hy & Hm & Hd).
  unfold _try_common_formats, common_formats.
  rewrite try_formats_skip by (unfold render_mdy; apply strptime_iso_rejects_slash).
  destruct (Z.leb_spec (day d) 12) as [Hle | Hgt].
  - destruct (strptime_full (render_mdy d) "%d/%m/%Y" (mkdate (year d) (day d) (month d)))
      as (dt & Hs & Hdt).
    { unfold render_mdy. rewrite read_dmy by lia. reflexivity. }
    { apply valid_swap; assumption. }
    exists dt. split; [apply try_formats_first; exact Hs | exact Hdt].
  - rewrite try_formats_skip.
    2:{ unfold strptime, re_match, render_mdy. rewrite dmy_rejects_late_day by lia.
        reflexivity. }
    destruct (strptime_full (render_mdy d) "%m/%d/%Y" d) as (dt & Hs & Hdt).
    { unfold render_mdy. rewrite read_mdy by lia. destruct d; reflexivity. }
    { exact Hv. }
    exists dt. split; [apply try_formats_first; exact Hs | exact Hdt].
Qed.

End CommonFormatProperties.

(** ** date_normalizer.py: spreadsheet serial numbers *)

Section SerialProperties.
Import PyStr PyNum Calendar Regex DateNormalizer.

(** *** The ordinals of the calendar *)

Lemma days_before_year_cycles (a b c d : Z) :
  0 <= a -> 0 <= b <= 3 -> 0 <= c <= 24 -> 0 <= d <= 3 ->
  days_before_year (400 * a + 100 * b + 4 * c + d + 1)
  = 146097 * a + 36524 * b + 1461 * c + 365 * d.
Proof.
  intros Ha Hb Hc Hd. unfold days_before_year. cbv zeta.
  replace (400 * a + 100 * b + 4 * c + d + 1 - 1) with (400 * a + 100 * b + 4 * c + d) by lia.
  assert (E4 : (400 * a + 100 * b + 4 * c + d) / 4 = 100 * a + 25 * b + c).
  { symmetry. apply (Z.div_unique _ 4 _ d); lia. }
  assert (E100 : (400 * a + 100 * b + 4 * c + d) / 100 = 4 * a + b).
  { symmetry. apply (Z.div_unique _ 100 _ (4 * c + d)); lia. }
  assert (E400 : (400 * a + 100 * b + 4 * c + d) / 400 = a).
  { symmetry. apply (Z.div_unique _ 400 _ (100 * b + 4 * c + d)); lia. }
  rewrite E4, E100, E400. lia.
Qed.

Lemma days_before_month_table (y : Z) :
  let f := if is_leap y then 1 else 0 in
  days_before_month y 0 = 0 /\ days_before_month y 1 = 31
  /\ days_before_month y 2 = 59 + f /\ days_before_month y 3 = 90 + f
  /\ days_before_month y 4 = 120 + f /\ days_before_month y 5 = 151 + f
  /\ days_before_month y 6 = 181 + f /\ days_before_month y 7 = 212 + f
  /\ days_before_month y 8 = 243 + f /\ days_before_month y 9 = 273 + f
  /\ days_before_month y 10 = 304 + f /\ days_before_month y 11 = 334 + f
  /\ days_before_month y 12 = 365 + f.
Proof.
  cbv zeta. unfold days_before_month, days_in_month. simpl.
  destruct (is_leap y); repeat split; reflexivity.
Qed.

Lemma new_date_valid (y m d : Z) :
  valid_date (mkdate y m d) = true ->
  exists p, new_date y m d = Some p /\ the_date p = mkdate y m d.
Proof.
  intros H. unfold new_date.
  destruct (bool_dec (valid_date (mkdate y m d)) true) as [Hv | Hn]; [| contradiction].
  eexists. split; reflexivity.
Qed.

Lemma valid_date_intro (y m d : Z) :
  1 <= y <= 9999 -> 1 <= m <= 12 ->
  days_before_month y (Z.to_nat (m - 1)) < days_before_month y (Z.to_nat (m - 1)) + d
    <= days_before_month y (Z.to_nat m) ->
  valid_date (mkdate y m d) = true.
Proof.
  intros Hy Hm Hd. unfold valid_date. cbn [year month day].
  rewrite !andb_true_iff, !Z.leb_le.
  assert (E : days_before_month y (Z.to_nat m)
              = days_before_month y (Z.to_nat (m - 1)) + days_in_month y m).
  { replace (Z.to_nat m) with (S (Z.to_nat (m - 1))) by lia.
    cbn [days_before_month]. do 2 f_equal. lia. }
  lia.
Qed.

(** Every ordinal of the calendar is the ordinal of the date that
    [fromordinal] gives for it. *)
Lemma fromordinal_toordinal (n : Z) :
  1 <= n <= MAXORDINAL ->
  exists p, fromordinal n = Some p /\ toordinal (the_date p) = n.
Proof.
  unfold MAXORDINAL. intros Hn. unfold fromordinal. cbv zeta.
  set (n0 := n - 1).
  assert (H0 : 0 <= n0 <= 3652058) by (unfold n0; lia).
  pose proof (Z.div_mod n0 146097 ltac:(lia)) as D400.
  pose proof (Z.mod_pos_bound n0 146097 ltac:(lia)) as B400.
  set (a := n0 / 146097) in *. set (r400 := n0 mod 146097) in *.
  pose proof (Z.div_mod r400 36524 ltac:(lia)) as D100.
  pose proof (Z.mod_pos_bound r400 36524 ltac:(lia)) as B100.
  set (b := r400 / 36524) in *. set (r100 := r400 mod 36524) in *.
  pose proof (Z.div_mod r100 1461 ltac:(lia)) as D4.
  pose proof (Z.mod_pos_bound r100 1461 ltac:(lia)) as B4.
  set (c := r100 / 1461) in *. set (r4 := r100 mod 1461) in *.
  pose proof (Z.div_mod r4 365 ltac:(lia)) as D1.
  pose proof (Z.mod_pos_bound r4 365 ltac:(lia)) as B1.
  set (d := r4 / 365) in *. set (r1 := r4 mod 365) in *.
  clearbody a r400 b r100 c r4 d r1.
  assert (Ha : 0 <= a <= 24) by lia.
  assert (Hb : 0 <= b <= 4) by lia.
  assert (Hc : 0 <= c <= 24) by lia.
  assert (Hd : 0 <= d <= 4) by lia.
  destruct (Z.eqb_spec d 4) as [Ed | Nd].
  { (* the last day of a leap year *)
    cbn [orb].
    assert (Hb3 : b <= 3) by lia. assert (Hc23 : c <= 23) by lia.
    assert (Er : r1 = 0) by lia.
    replace (a * 400 + 1 + b * 100 + c * 4 + d - 1) with (400 * a + 100 * b + 4 * c + 3 + 1) by lia.
    set (Y := 400 * a + 100 * b + 4 * c + 3 + 1).
    assert (Hleap : is_leap Y = true).
    { unfold is_leap, Y.
      replace ((400 * a + 100 * b + 4 * c + 3 + 1) mod 4) with 0
        by (apply (Z.mod_unique _ 4 (100 * a + 25 * b + c + 1)); lia).
      replace ((400 * a + 100 * b + 4 * c + 3 + 1) mod 100) with (4 * c + 4)
        by (apply (Z.mod_unique _ 100 (4 * a + b)); lia).
      simpl. destruct (Z.eqb_spec (4 * c + 4) 0); [lia | reflexivity]. }
    pose proof (days_before_month_table Y) as T. cbv zeta in T. rewrite Hleap in T.
    destruct T as (_ & _ & _ & _ & _ & _ & _ & _ & _ & _ & _ & T11 & T12).
    destruct (new_date_valid Y 12 31) as (p & Hp & Ep).
    { apply valid_date_intro; [unfold Y; lia | lia |].
      change (Z.to_nat (12 - 1)) with 11%nat. change (Z.to_nat 12) with 12%nat. lia. }
    exists p. split; [exact Hp |]. rewrite Ep. unfold toordinal. cbn [year month day].
    change (Z.to_nat (12 - 1)) with 11%nat. rewrite T11.
    unfold Y. rewrite days_before_year_cycles by lia. unfold n0 in *. lia. }
  destruct (Z.eqb_spec b 4) as [Eb | Nb].
  { (* the last day of a cycle of 400 years *)
    cbn [orb].
    assert (Ec : c = 0) by lia. assert (Ed : d = 0) by lia. assert (Er : r1 = 0) by lia.
    replace (a * 400 + 1 + b * 100 + c * 4 + d - 1) with (400 * a + 100 * 3 + 4 * 24 + 3 + 1) by lia.
    set (Y := 400 * a + 100 * 3 + 4 * 24 + 3 + 1).
    assert (Hleap : is_leap Y = true).
    { unfold is_leap, Y.
      replace ((400 * a + 100 * 3 + 4 * 24 + 3 + 1) mod 4) with 0
        by (apply (Z.mod_unique _ 4 (100 * a + 100)); lia).
      replace ((400 * a + 100 * 3 + 4 * 24 + 3 + 1) mod 400) with 0
        by (apply (Z.mod_unique _ 400 (a + 1)); lia).
      simpl. apply orb_true_r. }
    pose proof (days_before_month_table Y) as T. cbv zeta in T. rewrite Hleap in T.
    destruct T as (_ & _ & _ & _ & _ & _ & _ & _ & _ & _ & _ & T11 & T12).
    destruct (new_date_valid Y 12 31) as (p & Hp & Ep).
    { apply valid_date_intro; [unfold Y; lia | lia |].
      change (Z.to_nat (12 - 1)) with 11%nat. change (Z.to_nat 12) with 12%nat. lia. }
    exists p. split; [exact Hp |]. rewrite Ep. unfold toordinal. cbn [year month day].
    change (Z.to_nat (12 - 1)) with 11%nat. rewrite T11.
    unfold Y. rewrite days_before_year_cycles by lia. unfold n0 in *. lia. }
  cbn [orb].
  replace (a * 400 + 1 + b * 100 + c * 4 + d) with (400 * a + 100 * b + 4 * c + d + 1) by lia.
  set (y := 400 * a + 100 * b + 4 * c + d + 1).
  assert (Hdby : days_before_year y = n0 - r1).
  { unfold y. rewrite days_before_year_cycles by lia. lia. }
  assert (Hy : 1 <= y <= 9999) by (unfold y; lia).
  rewrite Z.shiftr_div_pow2 by lia. change (2 ^ 5) with 32.
  pose proof (Z.div_mod (r1 + 50) 32 ltac:(lia)) as Dm.
  pose proof (Z.mod_pos_bound (r1 + 50) 32 ltac:(lia)) as Bm.
  set (m := (r1 + 50) / 32) in *. clearbody m.
  assert (Hm : 1 <= m <= 12) by lia.
  pose proof (days_before_month_table y) as T. cbv zeta in T.
  set (f := if is_leap y then 1 else 0) in T.
  assert (Hf : 0 <= f <= 1) by (unfold f; destruct (is_leap y); lia).
  assert (Hfeb : (if is_leap y then 29 else 28) = 28 + f)
    by (unfold f; destruct (is_leap y); reflexivity).
  clearbody f y.
  destruct T as (T0 & T1 & T2 & T3 & T4 & T5 & T6 & T7 & T8 & T9 & T10 & T11 & T12).
  assert (Cm : m = 1 \/ m = 2 \/ m = 3 \/ m = 4 \/ m = 5 \/ m = 6 \/ m = 7 \/ m = 8 \/ m = 9
               \/ m = 10 \/ m = 11 \/ m = 12) by lia.
  assert (G : forall mo dd, 1 <= mo <= 12 ->
            days_before_month y (Z.to_nat (mo - 1)) < days_before_month y (Z.to_nat (mo - 1)) + dd
              <= days_before_month y (Z.to_nat mo) ->
            days_before_month y (Z.to_nat (mo - 1)) + dd = r1 + 1 ->
            exists p, new_date y mo dd = Some p /\ toordinal (the_date p) = n).
  { intros mo dd Hmo Hdd Hsum.
    destruct (new_date_valid y mo dd) as (p & Hp & Ep); [now apply valid_date_intro |].
    exists p. split; [exact Hp |]. rewrite Ep. unfold toordinal. cbn [year month day].
    unfold n0 in *. lia. }
  repeat destruct Cm as [-> | Cm]; try subst m;
    repeat match goal with
           | |- context [Z.to_nat ?x] =>
               let v := eval vm_compute in (Z.to_nat x) in change (Z.to_nat x) with v
           end;
    rewrite ?T0, ?T1, ?T2, ?T3, ?T4, ?T5, ?T6, ?T7, ?T8, ?T9, ?T10, ?T11, ?T12;
    match goal with
    | |- context [if ?t >? ?u then _ else _] =>
        destruct (Z.gtb_spec t u)
    end;
    try lia;
    apply G; try lia;
    repeat match goal with
           | |- context [Z.to_nat ?x] =>
               let v := eval vm_compute in (Z.to_nat x) in change (Z.to_nat x) with v
           end;
    rewrite ?T0, ?T1, ?T2, ?T3, ?T4, ?T5, ?T6, ?T7, ?T8, ?T9, ?T10, ?T11, ?T12;
    unfold days_in_month; simpl; rewrite ?Hfeb; lia.
Qed.

(** *** The text of a whole number *)

Lemma string_of_uint_digits (d : Decimal.uint) :
  Forall (fun c => is_digit c = true) (to_list (DecimalString.NilEmpty.string_of_uint d)).
Proof. induction d; simpl; constructor; solve [reflexivity | assumption]. Qed.

Lemma string_of_nat_digits (n : Z) : 0 <= n ->
  exists c s, DecimalString.NilZero.string_of_int (Z.to_int n) = String c s
              /\ Forall (fun c => is_digit c = true) (c :: to_list s).
Proof.
  intros Hn. destruct n as [| p | p]; [| | lia].
  - exists "0"%char, "". split; [reflexivity | repeat constructor].
  - simpl. unfold DecimalString.NilZero.string_of_uint.
    pose proof (string_of_uint_digits (Pos.to_uint p)) as H.
    destruct (Pos.to_uint p) eqn:E; simpl in *;
      try (eexists _, _; split; [reflexivity | exact H]).
    exists "0"%char, "". split; [reflexivity | repeat constructor].
Qed.

Lemma digit_not_space (c : ascii) : is_digit c = true -> is_space c = false.
Proof. destruct c as [[] [] [] [] [] [] [] []]; intros H; try discriminate H; reflexivity. Qed.

Lemma digit_lower (c : ascii) : is_digit c = true -> lower_char c = c.
Proof. destruct c as [[] [] [] [] [] [] [] []]; intros H; try discriminate H; reflexivity. Qed.

Lemma rstrip_no_space (s : string) :
  Forall (fun c => is_space c = false) (to_list s) -> rstrip s = s.
Proof.
  induction s as [| c s IH]; [reflexivity |]. simpl. intros H.
  apply Forall_cons in H as [Hc H]. rewrite (IH H), Hc. now destruct s.
Qed.

Lemma digits_text (c : ascii) (s : string) :
  Forall (fun c => is_digit c = true) (c :: to_list s) ->
  strip (String c s) = String c s
  /\ bool_decide (lower (String c s) ∈ null_words) = false.
Proof.
  intros H. split.
  - unfold strip. pose proof H as H'. apply Forall_cons in H' as [Hc _].
    cbn [lstrip]. rewrite (digit_not_space c Hc).
    apply rstrip_no_space. eapply Forall_impl; [exact H |]. apply digit_not_space.
  - apply Forall_cons in H as [Hc _].
    apply bool_decide_eq_false_2. unfold null_words, lower. cbn [map_str].
    rewrite (digit_lower c Hc). intros Hin.
    repeat (apply elem_of_cons in Hin as [Hin | Hin];
            [injection Hin as -> _ || discriminate Hin; discriminate Hc |]).
    now apply elem_of_nil in Hin.
Qed.

Section SerialNumbers.
Context {P : Pandas} {B : Builtins}.

Lemma excel_date_ordinal (n : Z) :
  1 <= toordinal excel_epoch + n <= MAXORDINAL ->
  exists dt, excel_date n = Some dt
             /\ toordinal (ymd dt) = toordinal excel_epoch + n /\ time_part dt = 0.
Proof.
  intros H. unfold excel_date.
  destruct (fromordinal_toordinal _ H) as (p & Hp & Ep).
  rewrite Hp. eexists. split; [reflexivity |]. split; [exact Ep | reflexivity].
Qed.

Lemma excel_range (n : Z) : 1 <= n <= 100000 ->
  1 <= toordinal excel_epoch + n <= MAXORDINAL.
Proof. change (toordinal excel_epoch) with 693594. unfold MAXORDINAL. lia. Qed.

(** A whole number from 1 to 100000 is read as a spreadsheet serial: so
    many days after 1899-12-30, at midnight; the parsers of text are not
    asked. *)
Theorem parse_date_excel_serial (n : Z) :
  1 <= n <= 100000 ->
  exists dt, parse_date_safe (VInt n) = Some dt
             /\ toordinal (ymd dt) = toordinal excel_epoch + n /\ time_part dt = 0.
Proof.
  intros Hn. unfold parse_date_safe. cbv zeta.
  destruct (string_of_nat_digits n ltac:(lia)) as (c & s & Es & Hd).
  cbn [py_str]. rewrite Es.
  destruct (digits_text c s Hd) as [-> ->]. cbn [is_empty orb].
  cbn [excel_serial].
  destruct (Z.leb_spec 1 n); [| lia]. destruct (Z.leb_spec n 100000); [| lia]. cbn [andb].
  destruct (excel_date_ordinal n (excel_range n Hn)) as (dt & -> & Hdt).
  now exists dt.
Qed.

(** A float from 1 to 100000, whose text is not empty and no null word, is
    read as the serial of its integer part. *)
Theorem parse_date_excel_serial_float (x : Q) :
  (1 <= x <= 100000)%Q ->
  is_empty (strip (str_of_float x)) = false ->
  lower (strip (str_of_float x)) ∉ null_words ->
  exists dt, parse_date_safe (VFloat (Some x)) = Some dt
             /\ toordinal (ymd dt) = toordinal excel_epoch + py_int x /\ time_part dt = 0.
Proof.
  intros [Hlo Hhi] He Hw. unfold parse_date_safe. cbv zeta.
  cbn [py_str]. rewrite He. rewrite bool_decide_eq_false_2 by exact Hw. cbn [orb].
  cbn [excel_serial].
  rewrite (proj2 (Qle_bool_iff 1 x) Hlo), (proj2 (Qle_bool_iff x 100000) Hhi). cbn [andb].
  destruct (excel_date_ordinal (py_int x)) as (dt & -> & Hdt); [| now exists dt].
  apply excel_range.
  unfold py_int. destruct x as [a b].
  unfold Qle in Hlo, Hhi. simpl in *.
  assert (0 <= a) by lia.
  rewrite Z.quot_div_nonneg by lia.
  split; [apply Z.div_le_lower_bound; lia | apply Z.div_le_upper_bound; lia].
Qed.

End SerialNumbers.

End SerialProperties.

(** ** record_linkage_matcher.py: what the matched rows carry *)

Section LinkageScoreProperties.
Import PyStr PyNum Calendar RecordLinkage.
Local Open Scope list_scope.

Lemma py_int_lower (n : Z) (x : Q) : 0 <= n -> (inject_Z n <= x)%Q -> n <= py_int x.
Proof.
  intros Hn Hx.
  assert (Hf : n <= Qfloor x) by (rewrite <- (Qfloor_Z n); now apply Qfloor_resp_le).
  destruct x as [a b]. unfold py_int. simpl in *.
  assert (0 <= a).
  { destruct (Z.le_gt_cases 0 a) as [H | H]; [exact H |].
    assert (a / Z.pos b < 0) by (apply Z.div_lt_upper_bound; lia). lia. }
  rewrite Z.quot_div_nonneg by lia. exact Hf.
Qed.

Section WithLinkage.
Context {P : Pandas} {B : Builtins} {R : RecordLinkageLib}.

Lemma emit_matches_high (show_all_matches : bool) (t1_clean t2_clean : Frame)
    (features : list ((nat * nat) * Features)) (n_matches : nat)
    (progress_cb : option (Z -> Exc unit)) (items : list ((nat * nat) * Q))
    (results out : list ResultRow) (seen_pairs : gset (nat * nat)) :
  Forall (fun ks => (1 <= snd ks)%Q) items ->
  Forall high_match results ->
  emit_matches show_all_matches t1_clean t2_clean features n_matches progress_cb
    items results seen_pairs = Ok out ->
  Forall high_match out.
Proof.
  intros Hitems. revert results seen_pairs.
  induction Hitems as [| [key score] items Hs _ IH]; intros results seen_pairs Hres; simpl.
  - now intros [= <-].
  - destruct (negb show_all_matches && bool_decide (key ∈ seen_pairs)); [now apply IH |].
    destruct (loc t1_clean (fst key)) as [r1 | e]; simpl; [| discriminate].
    destruct (loc t2_clean (snd key)) as [r2 | e]; simpl; [| discriminate].
    destruct (loc_pair features key) as [f | e]; simpl; [| discriminate].
    destruct (report_progress progress_cb _ n_matches) as [[] | e]; simpl; [| discriminate].
    apply IH. apply Forall_app. split; [exact Hres |].
    apply Forall_singleton. intros _. simpl in Hs.
    assert (Hc : 100 <= py_int (score * 100)).
    { apply py_int_lower; [lia |]. change (inject_Z 100) with 100%Q. lra. }
    simpl. split; [| eexists; split; [reflexivity | exact Hc]].
    unfold confidence_of. destruct (Z.leb_spec 90 (py_int (score * 100))); [reflexivity | lia].
Qed.

Lemma unmatched_rows_high (t1 : list Row) (matches : list ((nat * nat) * Q)) :
  Forall high_match (unmatched_rows t1 matches).
Proof.
  apply Forall_forall. intros r Hr.
  apply list_elem_of_omap in Hr as (ir & _ & Hr).
  destruct (bool_decide _); [discriminate |].
  injection Hr as <-. intros H. now contradiction H.
Qed.

Lemma linkage_body_high (t1 t2 : list Row) (threshold : Q) (show_all_matches : bool)
    (progress_cb : option (Z -> Exc unit)) (out : list ResultRow) :
  (forall pairs features, rl_index (clean t1) (clean t2) = Ok pairs ->
     rl_compute pairs (clean t1) (clean t2) = Ok features -> blocked_features features) ->
  linkage_body t1 t2 threshold show_all_matches progress_cb = Ok out ->
  Forall high_match out.
Proof.
  intros Hlib. unfold linkage_body. cbv zeta.
  destruct (_ || _); [intros [= <-]; constructor |].
  destruct (rl_index (clean t1) (clean t2)) as [pairs | e] eqn:Ei; simpl; [| discriminate].
  destruct (length pairs =? 0)%nat; [intros [= <-]; constructor |].
  destruct (rl_compute pairs (clean t1) (clean t2)) as [features | e] eqn:Ec; simpl;
    [| discriminate].
  specialize (Hlib pairs features eq_refl Ec).
  match goal with
  | |- context [emit_matches ?a ?b ?c ?d ?e ?f ?g ?h ?i] =>
      destruct (emit_matches a b c d e f g h i) as [results | e0] eqn:Em
  end; simpl; [| discriminate].
  apply emit_matches_high in Em; [| | constructor].
  2:{ apply Forall_forall. intros ks Hks.
      apply list_elem_of_In, filter_In in Hks as [Hks _]. apply list_elem_of_In in Hks.
      apply list_elem_of_fmap in Hks as (kf & -> & Hkf). simpl.
      unfold blocked_features in Hlib. rewrite Forall_forall in Hlib.
      destruct (Hlib kf Hkf) as (Hd & Hl & Hf). unfold feature_sum. lra. }
  destruct (call_final progress_cb) as [[] | e]; simpl; [| discriminate].
  intros [= <-].
  destruct show_all_matches; [| exact Em].
  apply Forall_app. split; [exact Em | apply unmatched_rows_high].
Qed.

(** When the vectors that the library computes have the date feature
    1 (the pairs are blocked on the date) and no negative name feature,
    every matched row that [match_with_recordlinkage] returns has
    confidence High and a combined score of 100 or more, whatever the
    threshold. *)
Theorem record_linkage_confidence_is_high (t1 t2 : list Row) (threshold : Q)
    (show_all_matches : bool) (progress_cb : option (Z -> Exc unit)) :
  (forall pairs features, rl_index (clean t1) (clean t2) = Ok pairs ->
     rl_compute pairs (clean t1) (clean t2) = Ok features -> blocked_features features) ->
  Forall high_match (match_with_recordlinkage t1 t2 threshold show_all_matches progress_cb).
Proof.
  intros Hlib. unfold match_with_recordlinkage.
  destruct (negb _); [constructor |].
  destruct (linkage_body _ _ _ _ _) as [out | e] eqn:Eb; [| constructor].
  now apply linkage_body_high in Eb.
Qed.

Lemma clean_unparsed (t : list Row) :
  Forall (fun r => DateNormalizer.parse_date_safe (row_date r) = None) t -> clean t = [].
Proof.
  unfold clean, iterrows. generalize 0%nat.
  induction t as [| r t IH]; intros n H; simpl; [reflexivity |].
  apply Forall_cons in H as [Hr H]. rewrite Hr. now apply IH.
Qed.

(** [match_with_recordlinkage] returns the empty table, in show-all
    mode too, when no date of one of the tables is read or when blocking
    gives no pair. *)
Theorem record_linkage_nothing_blocked (t1 t2 : list Row) (threshold : Q)
    (show_all_matches : bool) (progress_cb : option (Z -> Exc unit)) :
  Forall (fun r => DateNormalizer.parse_date_safe (row_date r) = None) t1
  \/ Forall (fun r => DateNormalizer.parse_date_safe (row_date r) = None) t2
  \/ rl_index (clean t1) (clean t2) = Ok [] ->
  match_with_recordlinkage t1 t2 threshold show_all_matches progress_cb = [].
Proof.
  intros H. unfold match_with_recordlinkage.
  destruct (negb _); [reflexivity |].
  unfold linkage_body. cbv zeta.
  destruct H as [H | [H | H]].
  - now rewrite (clean_unparsed t1 H).
  - rewrite (clean_unparsed t2 H). simpl. now rewrite orb_true_r.
  - destruct (_ || _); [reflexivity |]. now rewrite H.
Qed.

End WithLinkage.

End LinkageScoreProperties.

(** ** file_loader.py: the lines of the raw log *)

Section FileLoaderProperties.
Import PyStr FileLoader.
Local Open Scope list_scope.

Lemma split_at_length (sep : ascii) (cur : list ascii) (s : string) :
  length (split_at sep cur s) = S (count_char sep s).
Proof.
  unfold count_char. revert cur. induction s as [| c s IH]; intros cur; simpl; [reflexivity |].
  rewrite filter_cons.
  destruct (Ascii.eqb_spec c sep) as [-> | Hne].
  - rewrite decide_True by reflexivity. simpl. now rewrite IH.
  - rewrite decide_False by exact Hne. apply IH.
Qed.

(** A line gives a row exactly when, stripped, it is not empty and has at
    least five commas. *)
Theorem parse_line_skips (line : string) :
  parse_line line = None
  <-> strip line = "" \/ (count_char "," (strip line) < 5)%nat.
Proof.
  unfold parse_line. cbv zeta.
  destruct (strip line) as [| c s] eqn:E; [simpl; tauto |].
  cbn [is_empty]. rewrite split_at_length.
  destruct (Nat.ltb_spec (S (count_char "," (String c s))) 6) as [H | H].
  - split; [intros _; right; lia | reflexivity].
  - destruct (extract_name _) as [last first].
    split; [discriminate |]. intros [H' | H']; [discriminate | lia].
Qed.

(** *** strip *)

Lemma rstrip_shape (c : ascii) (s : string) :
  rstrip (String c s) = "" \/ exists r, rstrip (String c s) = String c r.
Proof.
  simpl. destruct (rstrip s); [destruct (is_space c) |]; eauto.
Qed.

Lemma rstrip_idempotent (s : string) : rstrip (rstrip s) = rstrip s.
Proof.
  induction s as [| c s IH]; [reflexivity |].
  simpl. destruct (rstrip s) as [| c' r] eqn:Er.
  - destruct (is_space c) eqn:Es; [reflexivity |]. simpl. now rewrite Es.
  - cbn [rstrip] in IH |- *. fold rstrip in IH |- *.
    change (rstrip (String c (String c' r))) with
      (match rstrip (String c' r) with
       | EmptyString => if is_space c then EmptyString else String c EmptyString
       | r0 => String c r0
       end).
    now rewrite IH.
Qed.

Lemma lstrip_start (s : string) :
  match lstrip s with String c _ => is_space c = false | EmptyString => True end.
Proof.
  induction s as [| c s IH]; simpl; [exact I |].
  destruct (is_space c) eqn:E; [exact IH | exact E].
Qed.

Lemma lstrip_fixed (s : string) :
  match s with String c _ => is_space c = false | EmptyString => True end -> lstrip s = s.
Proof. destruct s as [| c s]; simpl; [reflexivity |]. now intros ->. Qed.

Lemma strip_idempotent (s : string) : strip (strip s) = strip s.
Proof.
  unfold strip.
  assert (H : lstrip (rstrip (lstrip s)) = rstrip (lstrip s)).
  { apply lstrip_fixed. pose proof (lstrip_start s) as Hs.
    destruct (lstrip s) as [| c t]; [exact I |].
    destruct (rstrip_shape c t) as [-> | [r ->]]; [exact I | exact Hs]. }
  rewrite H. apply rstrip_idempotent.
Qed.

Lemma lstrip_sub (s : string) (c : ascii) : c ∈ to_list (lstrip s) -> c ∈ to_list s.
Proof.
  induction s as [| x s IH]; simpl; [auto |].
  destruct (is_space x); [intros H; right; now apply IH | auto].
Qed.

Lemma rstrip_sub (s : string) (c : ascii) : c ∈ to_list (rstrip s) -> c ∈ to_list s.
Proof.
  induction s as [| x s IH]; simpl; [auto |].
  destruct (rstrip s) as [| y r].
  - destruct (is_space x); simpl; [intros H; now apply elem_of_nil in H |].
    intros H. apply list_elem_of_singleton in H as ->. now left.
  - simpl. intros H. apply elem_of_cons in H as [-> | H]; [now left | right; now apply IH].
Qed.

Lemma strip_sub (s : string) (c : ascii) : c ∈ to_list (strip s) -> c ∈ to_list s.
Proof. unfold strip. intros H. now apply lstrip_sub, rstrip_sub. Qed.

Lemma split_once_before (sep : ascii) (s a b : string) :
  split_once sep s = Some (a, b) -> no_char sep a.
Proof.
  unfold no_char. revert a. induction s as [| c s IH]; intros a; simpl; [discriminate |].
  destruct (Ascii.eqb_spec c sep) as [-> | Hne].
  - intros [= <- <-]. simpl. apply not_elem_of_nil.
  - destruct (split_once sep s) as [[a' b'] |]; simpl; [| discriminate].
    intros [= <- <-]. simpl. rewrite not_elem_of_cons. split; [congruence | now apply IH].
Qed.

Lemma split_once_none (sep : ascii) (s : string) :
  split_once sep s = None -> no_char sep s.
Proof.
  unfold no_char. induction s as [| c s IH]; simpl; [intros _; apply not_elem_of_nil |].
  destruct (Ascii.eqb_spec c sep) as [-> | Hne]; [discriminate |].
  destruct (split_once sep s) as [[a' b'] |]; simpl; [discriminate |].
  intros _. rewrite not_elem_of_cons. split; [congruence | now apply IH].
Qed.

(** The names taken from the tail of a line are stripped, and the last
    name has no comma. *)
Theorem extract_name_shape (tail : string) :
  strip (fst (extract_name tail)) = fst (extract_name tail)
  /\ strip (snd (extract_name tail)) = snd (extract_name tail)
  /\ no_char "," (fst (extract_name tail)).
Proof.
  unfold extract_name. cbv zeta.
  destruct (find " has " (lower tail)) as [idx |];
    [| repeat split; apply not_elem_of_nil].
  destruct (split_once "," (strip (slice_to idx tail))) as [[a b] |] eqn:E; cbn [fst snd].
  - split; [apply strip_idempotent |]. split; [apply strip_idempotent |].
    intros H. apply strip_sub in H. revert H. now apply (split_once_before _ _ _ _ E).
  - destruct (nonempty _); cbn [fst snd];
      [| repeat split; apply not_elem_of_nil].
    split; [apply strip_idempotent |]. split; [reflexivity |].
    now apply split_once_none.
Qed.

(** *** The round trip of a name *)

Lemma lower_app (a b : string) : lower (a ++ b) = (lower a ++ lower b)%string.
Proof.
  unfold lower. induction a as [| c a IH]; [reflexivity |].
  rewrite app_String. simpl. now rewrite IH.
Qed.

Lemma startswith_short (p s t : string) :
  (String.length p <= String.length s)%nat -> startswith p (s ++ t) = startswith p s.
Proof.
  revert s. induction p as [| c p IH]; intros s H; [reflexivity |].
  destruct s as [| x s]; [simpl in H; lia |].
  rewrite app_String. simpl. rewrite IH by (simpl in H; lia). reflexivity.
Qed.

Lemma string_length_app (a b : string) :
  String.length (a ++ b) = (String.length a + String.length b)%nat.
Proof. induction a as [| c a IH]; [reflexivity |]. rewrite app_String. simpl. now rewrite IH. Qed.

Lemma find_cons (sub : string) (c : ascii) (s : string) :
  find sub (String c s)
  = if startswith sub (String c s) then Some 0%nat else S <$> find sub s.
Proof. reflexivity. Qed.

Lemma find_has (a b : string) :
  find " has " (a ++ " has") = None ->
  find " has " (a ++ " has " ++ b) = Some (String.length a).
Proof.
  induction a as [| c a IH]; [reflexivity |].
  rewrite (app_String c a " has"), (app_String c a (" has " ++ b)), !find_cons.
  destruct (startswith " has " (String c (a ++ " has"))) eqn:Ep; [discriminate |].
  assert (E : String c (a ++ " has " ++ b) = (String c (a ++ " has") ++ (" " ++ b))%string).
  { rewrite (app_String c (a ++ " has")). f_equal.
    rewrite (string_app_assoc a " has"). reflexivity. }
  rewrite E at 1. rewrite startswith_short.
  2:{ change (String.length (String c (a ++ " has"))) with (S (String.length (a ++ " has"))).
      rewrite string_length_app. simpl. lia. }
  rewrite Ep.
  destruct (find " has " (a ++ " has")) eqn:Ef; [discriminate |].
  intros _. rewrite IH by reflexivity. reflexivity.
Qed.

Lemma slice_to_app (a b : string) : slice_to (String.length a) (a ++ b) = a.
Proof. induction a as [| c a IH]; [now destruct b |]. rewrite app_String. simpl. now rewrite IH. Qed.

Lemma length_lower (s : string) : String.length (lower s) = String.length s.
Proof. unfold lower. induction s as [| c s IH]; [reflexivity |]. simpl. now rewrite IH. Qed.

Lemma lstrip_length (s : string) : (String.length (lstrip s) <= String.length s)%nat.
Proof. induction s as [| c s IH]; simpl; [lia |]. destruct (is_space c); simpl; lia. Qed.

Lemma rstrip_length (s : string) : (String.length (rstrip s) <= String.length s)%nat.
Proof.
  induction s as [| c s IH]; simpl; [lia |].
  destruct (rstrip s); [destruct (is_space c) |]; simpl in *; lia.
Qed.

Lemma strip_fixed (s : string) : strip s = s -> lstrip s = s /\ rstrip s = s.
Proof.
  unfold strip. intros H.
  assert (Hl : lstrip s = s).
  { destruct s as [| c s]; [reflexivity |]. simpl in *.
    destruct (is_space c); [| reflexivity].
    pose proof (rstrip_length (lstrip s)). pose proof (lstrip_length s).
    rewrite H in *. simpl in *. lia. }
  rewrite Hl in H. now split.
Qed.

Lemma rstrip_app (a b : string) : b <> "" -> rstrip b = b -> rstrip (a ++ b) = (a ++ b)%string.
Proof.
  intros Hb Hr. induction a as [| c a IH]; [exact Hr |].
  rewrite app_String. simpl. rewrite IH.
  destruct (a ++ b)%string eqn:E; [| reflexivity].
  destruct a; [simpl in E; contradiction | discriminate E].
Qed.

Lemma split_once_app (sep : ascii) (a b : string) :
  no_char sep a -> split_once sep (a ++ String sep b) = Some (a, b).
Proof.
  unfold no_char. induction a as [| c a IH]; intros H.
  - simpl. now rewrite Ascii.eqb_refl.
  - simpl in H. rewrite not_elem_of_cons in H. destruct H as [Hne H].
    rewrite app_String. simpl.
    destruct (Ascii.eqb_spec c sep) as [E | _]; [congruence |].
    now rewrite IH.
Qed.

(** On ASCII text a tail that starts with "Last, First has" gives the two
    names, when they have no white space around them, the last name has no
    comma, and the phrase does not occur before its place. *)
Theorem extract_name_round_trip (last first rest : string) :
  is_ascii_text (last ++ ", " ++ first ++ " has " ++ rest) = true ->
  last <> "" -> first <> "" ->
  strip last = last -> strip first = first ->
  no_char "," last ->
  find " has " (lower (last ++ ", " ++ first) ++ " has") = None ->
  extract_name (last ++ ", " ++ first ++ " has " ++ rest) = (last, first).
Proof.
  intros _ Hl Hf Hsl Hsf Hc Hfind.
  destruct (strip_fixed last Hsl) as [Hll Hlr].
  destruct (strip_fixed first Hsf) as [Hfl Hfr].
  unfold extract_name. cbv zeta.
  replace (last ++ ", " ++ first ++ " has " ++ rest)%string
    with ((last ++ ", " ++ first) ++ " has " ++ rest)%string
    by (now rewrite !string_app_assoc).
  rewrite lower_app, (lower_app " has " rest).
  change (lower " has ") with " has ".
  rewrite find_has by exact Hfind.
  rewrite length_lower, slice_to_app.
  assert (Hs : strip (last ++ ", " ++ first) = (last ++ ", " ++ first)%string).
  { unfold strip.
    assert (lstrip (last ++ ", " ++ first) = (last ++ ", " ++ first)%string) as ->.
    { destruct last as [| c l]; [contradiction |]. rewrite app_String. simpl in *.
      destruct (is_space c); [| reflexivity].
      pose proof (lstrip_length l). rewrite Hll in *. simpl in *. lia. }
    rewrite <- string_app_assoc. apply rstrip_app; assumption. }
  rewrite Hs.
  change (", " ++ first)%string with (String "," (" " ++ first)).
  rewrite split_once_app by exact Hc. cbn [fst snd].
  rewrite Hsl. f_equal.
  unfold strip. change (lstrip (" " ++ first)) with (lstrip first).
  now rewrite Hfl.
Qed.

End FileLoaderProperties.

(** ** itr_categorizer.py *)

Section ItrProperties.
Import PyStr ItrCategorizer.

Lemma bucket_finite (x : Q) :
  (bucket (Finite x) = Some 0 <-> (x <= 7)%Q)
  /\ (bucket (Finite x) = Some 8 <-> (x == 8)%Q)
  /\ (bucket (Finite x) = Some 10 <-> (9 <= x)%Q)
  /\ (bucket (Finite x) = None <-> (7 < x < 8 \/ 8 < x < 9)%Q).
Proof.
  unfold bucket, float_le, float_eq, float_ge.
  destruct (Qle_bool x 7) eqn:E1.
  { apply Qle_bool_iff in E1. repeat split; intros H; try discriminate; try lra; auto. }
  assert (H7 : (7 < x)%Q).
  { apply Qnot_le_lt. intros H. apply Qle_bool_iff in H. congruence. }
  destruct (Qeq_bool x 8) eqn:E2.
  { apply Qeq_bool_iff in E2. repeat split; intros H; try discriminate; try lra; auto. }
  assert (H8 : ~ (x == 8)%Q) by (intros H; apply Qeq_bool_iff in H; congruence).
  destruct (Qle_bool 9 x) eqn:E3.
  { apply Qle_bool_iff in E3. repeat split; intros H; try discriminate; try lra; auto. }
  assert (H9 : (x < 9)%Q).
  { apply Qnot_le_lt. intros H. apply Qle_bool_iff in H. congruence. }
  repeat split; intros H; try discriminate; try lra; auto.
Qed.

Lemma bucket_values (v : PyFloat) (b : Z) :
  bucket v = Some b -> b = 0 \/ b = 8 \/ b = 10.
Proof.
  unfold bucket. destruct (float_le v 7); [intros [= <-]; auto |].
  destruct (float_eq v 8); [intros [= <-]; auto |].
  destruct (float_ge v 9); [intros [= <-]; auto | discriminate].
Qed.

Context {B : Builtins} {FP : FloatParser}.

Lemma categorize_itr_bucket (value : PyValue) (x : Q) :
  reads_as value x -> categorize_itr value = bucket (Finite x).
Proof.
  intros (Hn & Hs & Hf). unfold categorize_itr. cbv zeta.
  destruct (strip (str_value value)) as [| c s]; [contradiction |].
  cbn [is_empty]. rewrite Hf. now destruct value.
Qed.

(** For cells that are read as the numbers [x] and [y]:
    [categorize_itr] gives no bucket exactly when the number lies strictly
    between 7 and 8 or between 8 and 9, the bucket 0 up to 7, 8 at 8 and 10
    from 9 on; and the bucket of a greater number is never smaller. *)
Theorem categorize_itr_buckets (v1 v2 : PyValue) (x y : Q) :
  reads_as v1 x -> reads_as v2 y ->
  (categorize_itr v1 = None <-> (7 < x < 8 \/ 8 < x < 9)%Q)
  /\ (categorize_itr v1 = Some 0 <-> (x <= 7)%Q)
  /\ (categorize_itr v1 = Some 8 <-> (x == 8)%Q)
  /\ (categorize_itr v1 = Some 10 <-> (9 <= x)%Q)
  /\ (forall b1 b2, categorize_itr v1 = Some b1 -> categorize_itr v2 = Some b2 ->
        (x <= y)%Q -> b1 <= b2).
Proof.
  intros H1 H2.
  rewrite (categorize_itr_bucket v1 x H1), (categorize_itr_bucket v2 y H2).
  destruct (bucket_finite x) as (A0 & A8 & A10 & AN).
  destruct (bucket_finite y) as (B0 & B8 & B10 & BN).
  split; [exact AN |]. split; [exact A0 |]. split; [exact A8 |]. split; [exact A10 |].
  intros b1 b2 Hb1 Hb2 Hxy.
  rewrite Hb1 in A0, A8, A10. rewrite Hb2 in B0, B8, B10.
  apply bucket_values in Hb1 as [-> | [-> | ->]], Hb2 as [-> | [-> | ->]]; try lia; exfalso;
  repeat match goal with
         | H : Some ?a = Some ?a <-> _ |- _ => apply proj1 in H; specialize (H eq_refl)
         end; lra.
Qed.

End ItrProperties.

(** ** name_normalizer.py: the phonetic code on Unicode text *)

Section UnicodeSoundexProperties.
Import UnicodeNames.
Local Open Scope list_scope.

Lemma code_stated (ch : N) :
  code ch = match stated_digit ch with Some d => [d] | None => [] end.
Proof.
  assert (C : Forall (fun k => ch = k -> code ch
                = match stated_digit ch with Some d => [d] | None => [] end)
                (codes "bfpvcgjkqsxzdtlmnr")).
  { repeat constructor; intros ->; vm_compute; reflexivity. }
  destruct (decide (ch ∈ codes "bfpvcgjkqsxzdtlmnr")) as [Hin | Hout].
  - rewrite Forall_forall in C. now apply (C ch Hin).
  - assert (E1 : code ch = []).
    { unfold code, mapping. cbn [List.find fst snd].
      repeat (rewrite bool_decide_eq_false_2;
              [| intros H; apply Hout; apply list_elem_of_In; apply list_elem_of_In in H;
                 vm_compute in H |- *; tauto]).
      reflexivity. }
    assert (E2 : stated_digit ch = None).
    { unfold stated_digit, stated_table. cbn [List.find fst snd].
      repeat (rewrite bool_decide_eq_false_2;
              [| intros H; apply Hout; rewrite <- H; apply list_elem_of_In; vm_compute; tauto]).
      reflexivity. }
    now rewrite E1, E2.
Qed.

Lemma stated_digit_range (ch d : N) : stated_digit ch = Some d -> code_digit_point d.
Proof.
  unfold stated_digit, stated_table. cbn [List.find fst snd].
  repeat match goal with
         | |- context [bool_decide ?P] => destruct (bool_decide P)
         end; intros [= <-]; vm_compute; split; discriminate.
Qed.

(** The loop with [prev] gives the digits as stated. *)
Lemma soundex_filter_stated (before : option N) (letters : list N) :
  concat (soundex_filter (match before ≫= stated_digit with Some d => [d] | None => [] end)
            (code <$> letters))
  = omap (fun pair : option N * N =>
            match stated_digit (snd pair) with
            | Some d => if bool_decide (fst pair ≫= stated_digit = Some d) then None else Some d
            | None => None
            end)
         (zip (before :: (Some <$> letters)) letters).
Proof.
  revert before. induction letters as [| ch letters IH]; intros before; [reflexivity |].
  cbn [fmap list_fmap soundex_filter zip zip_with omap list_omap fst snd].
  rewrite code_stated.
  specialize (IH (Some ch)). cbn [mbind option_bind] in IH.
  destruct (stated_digit ch) as [d |] eqn:Ed.
  - rewrite (bool_decide_eq_false_2 ([d] = [])) by discriminate. cbn [negb andb].
    destruct (before ≫= stated_digit) as [p |] eqn:Eb.
    + destruct (decide (p = d)) as [-> | Hne].
      * rewrite !bool_decide_eq_true_2 by reflexivity. cbn [negb]. exact IH.
      * rewrite !bool_decide_eq_false_2 by congruence. cbn [negb concat].
        now rewrite IH.
    + rewrite !bool_decide_eq_false_2 by congruence. cbn [negb concat]. now rewrite IH.
  - rewrite (bool_decide_eq_true_2 ([] = [])) by reflexivity. cbn [negb andb]. exact IH.
Qed.

Lemma stated_digits_range (letters : list N) : Forall code_digit_point (stated_digits letters).
Proof.
  unfold stated_digits. apply Forall_forall. intros d Hd.
  apply list_elem_of_omap in Hd as (pair & _ & Hp).
  destruct (stated_digit (snd pair)) as [d' |] eqn:E; [| discriminate].
  destruct (bool_decide _); [discriminate |]. injection Hp as <-.
  now apply stated_digit_range in E.
Qed.

Section Shape.
Context {US : UnicodeStr}.
Hypothesis upper_nonempty : forall c, u_upper [c] <> [].


End Shape.
End UnicodeSoundexProperties.

(** *** Agreement with the functions on ASCII text *)

Section Agreement.
Import PyStr.
Local Open Scope list_scope.
#[local] Existing Instance ascii_unicode_str.
#[local] Existing Instance ascii_unicodedata.

Lemma on_ascii_code {A} (f : ascii -> A) (other : A) (c : ascii) :
  (N_of_ascii c <? 128)%N = true -> on_ascii f other (N_of_ascii c) = f c.
Proof. intros H. unfold on_ascii. now rewrite H, ascii_N_embedding. Qed.

Lemma codes_cons (c : ascii) (s : string) : codes (String c s) = N_of_ascii c :: codes s.
Proof. reflexivity. Qed.

Lemma codes_app (s t : string) : codes (s ++ t) = codes s ++ codes t.
Proof. induction s as [| c s IH]; [reflexivity |]. rewrite app_String, !codes_cons, IH. reflexivity. Qed.

Lemma codes_of_list (l : list ascii) : codes (of_list l) = N_of_ascii <$> l.
Proof. induction l as [| c l IH]; [reflexivity |]. simpl. rewrite codes_cons, IH. reflexivity. Qed.

Lemma codes_nil (s : string) : codes s = [] -> s = "".
Proof. now destruct s. Qed.

Lemma ascii_cons (c : ascii) (s : string) :
  is_ascii_text (String c s) = true <-> (N_of_ascii c <? 128)%N = true /\ is_ascii_text s = true.
Proof. unfold is_ascii_text. simpl. apply andb_true_iff. Qed.

Lemma lstrip_codes (s : string) : is_ascii_text s = true ->
  UnicodeNames.lstrip (codes s) = codes (lstrip s) /\ is_ascii_text (lstrip s) = true.
Proof.
  induction s as [| c s IH]; intros H; [split; reflexivity |].
  pose proof H as H'. apply ascii_cons in H' as [Hc Hs].
  rewrite codes_cons. cbn [UnicodeNames.lstrip lstrip u_isspace ascii_unicode_str].
  rewrite (on_ascii_code _ _ _ Hc).
  destruct (is_space c); [now apply IH | now split].
Qed.

Lemma rstrip_codes (s : string) : is_ascii_text s = true ->
  UnicodeNames.rstrip (codes s) = codes (rstrip s) /\ is_ascii_text (rstrip s) = true.
Proof.
  induction s as [| c s IH]; intros H; [split; reflexivity |].
  apply ascii_cons in H as [Hc Hs]. destruct (IH Hs) as [E Ha].
  rewrite codes_cons. cbn [UnicodeNames.rstrip rstrip u_isspace ascii_unicode_str].
  rewrite E, (on_ascii_code _ _ _ Hc).
  destruct (rstrip s) as [| r rs] eqn:Er; cbn [codes PyStr.to_list fmap list_fmap].
  - destruct (is_space c); split; try reflexivity. apply ascii_cons. now split.
  - split; [reflexivity |]. apply ascii_cons. now split.
Qed.

Lemma strip_codes (s : string) : is_ascii_text s = true ->
  UnicodeNames.strip (codes s) = codes (strip s) /\ is_ascii_text (strip s) = true.
Proof.
  intros H. unfold UnicodeNames.strip, strip.
  destruct (lstrip_codes s H) as [E Ha]. rewrite E. now apply rstrip_codes.
Qed.

Lemma lower_char_ascii (c : ascii) :
  (N_of_ascii c <? 128)%N = true -> (N_of_ascii (lower_char c) <? 128)%N = true.
Proof. destruct c as [[] [] [] [] [] [] [] []]; intros H; try discriminate H; reflexivity. Qed.

Lemma lower_codes (s : string) : is_ascii_text s = true ->
  u_lower (codes s) = codes (lower s) /\ is_ascii_text (lower s) = true.
Proof.
  induction s as [| c s IH]; intros H; [split; reflexivity |].
  apply ascii_cons in H as [Hc Hs]. destruct (IH Hs) as [E Ha].
  unfold lower in *. cbn [map_str]. rewrite !codes_cons.
  cbn [u_lower ascii_unicode_str fmap list_fmap] in E |- *.
  rewrite E, (on_ascii_code _ _ _ Hc). split; [reflexivity |].
  apply ascii_cons. split; [now apply lower_char_ascii | exact Ha].
Qed.

Lemma sub_runs_codes (cls : ascii -> bool) (clsN : N -> bool) (in_run : bool) (s : string) :
  (forall c, (N_of_ascii c <? 128)%N = true -> clsN (N_of_ascii c) = cls c) ->
  is_ascii_text s = true ->
  UnicodeNames.sub_runs clsN in_run (codes s) = codes (sub_runs cls in_run s)
  /\ is_ascii_text (sub_runs cls in_run s) = true.
Proof.
  intros Hcls. revert in_run. induction s as [| c s IH]; intros in_run H; [split; reflexivity |].
  apply ascii_cons in H as [Hc Hs].
  rewrite codes_cons. cbn [UnicodeNames.sub_runs sub_runs]. rewrite (Hcls c Hc).
  destruct (cls c).
  - destruct in_run; [now apply IH |].
    destruct (IH true Hs) as [E Ha]. rewrite codes_cons, E. split; [reflexivity |].
    apply ascii_cons. now split.
  - destruct (IH false Hs) as [E Ha]. rewrite codes_cons, E. split; [reflexivity |].
    apply ascii_cons. now split.
Qed.

Lemma is_punct_codes (c : ascii) :
  (N_of_ascii c <? 128)%N = true ->
  UnicodeNames.is_punct (N_of_ascii c) = NameNormalizer.is_punct c.
Proof. destruct c as [[] [] [] [] [] [] [] []]; intros H; try discriminate H; vm_compute; reflexivity. Qed.

Lemma basic_clean_codes (s : string) : is_ascii_text s = true ->
  UnicodeNames.basic_clean (codes s) = codes (NameNormalizer.basic_clean s)
  /\ is_ascii_text (NameNormalizer.basic_clean s) = true.
Proof.
  intros H. unfold UnicodeNames.basic_clean, NameNormalizer.basic_clean. cbv zeta.
  destruct (strip_codes s H) as [E1 H1]. rewrite E1.
  destruct (lower_codes _ H1) as [E2 H2]. rewrite E2.
  destruct (sub_runs_codes NameNormalizer.is_punct UnicodeNames.is_punct false _ is_punct_codes H2)
    as [E3 H3]. rewrite E3.
  destruct (sub_runs_codes is_space (@u_isspace ascii_unicode_str) false _
              (fun c Hc => on_ascii_code is_space false c Hc
                           : @u_isspace ascii_unicode_str (N_of_ascii c) = is_space c) H3)
    as [E4 H4].
  rewrite E4. now apply strip_codes.
Qed.

Lemma code_codes (c : ascii) :
  UnicodeNames.code (N_of_ascii c)
  = match NameNormalizer.soundex_digit c with Some d => [N_of_ascii d] | None => [] end.
Proof. destruct c as [[] [] [] [] [] [] [] []]; vm_compute; reflexivity. Qed.

Lemma soundex_filter_codes (prev : option ascii) (digits : list (option ascii)) :
  concat (UnicodeNames.soundex_filter
            (match prev with Some d => [N_of_ascii d] | None => [] end)
            ((fun o : option ascii => match o with Some d => [N_of_ascii d] | None => [] end)
               <$> digits))
  = N_of_ascii <$> NameNormalizer.soundex_filter prev digits.
Proof.
  revert prev. induction digits as [| d digits IH]; intros prev; [reflexivity |].
  cbn [fmap list_fmap UnicodeNames.soundex_filter NameNormalizer.soundex_filter].
  destruct d as [x |].
  - rewrite (bool_decide_eq_false_2 ([N_of_ascii x] = [])) by discriminate. cbn [negb andb].
    destruct (decide (Some x = prev)) as [<- | Hne].
    + rewrite !bool_decide_eq_true_2 by reflexivity. cbn [negb]. apply (IH (Some x)).
    + rewrite (bool_decide_eq_false_2 (Some x = prev)) by exact Hne.
      rewrite bool_decide_eq_false_2.
      * cbn [negb concat fmap list_fmap]. f_equal. apply (IH (Some x)).
      * destruct prev as [p |]; [| discriminate]. intros [= E].
        apply Hne. f_equal. rewrite <- (ascii_N_embedding x), <- (ascii_N_embedding p).
        now rewrite E.
  - rewrite (bool_decide_eq_true_2 ([] = [])) by reflexivity. cbn [negb andb]. apply (IH None).
Qed.

Lemma filter_alpha_codes (s : string) : is_ascii_text s = true ->
  List.filter u_isalpha (codes s) = N_of_ascii <$> List.filter is_alpha (to_list s).
Proof.
  induction s as [| c s IH]; intros H; [reflexivity |].
  apply ascii_cons in H as [Hc Hs]. rewrite codes_cons. cbn [List.filter to_list].
  change (@u_isalpha ascii_unicode_str (N_of_ascii c))
    with (on_ascii is_alpha false (N_of_ascii c)).
  rewrite (on_ascii_code _ _ _ Hc).
  destruct (is_alpha c); cbn [fmap list_fmap]; now rewrite (IH Hs).
Qed.

Lemma take_codes (n : nat) (s : string) : take n (codes s) = codes (slice_to n s).
Proof.
  revert s. induction n as [| n IH]; intros [| c s]; try reflexivity.
  cbn [slice_to]. rewrite !codes_cons. cbn [take]. now rewrite IH.
Qed.

Lemma filter_all {A} (l : list A) : List.filter (fun _ => true) l = l.
Proof. induction l as [| a l IH]; [reflexivity |]. simpl. now rewrite IH. Qed.

Lemma of_list_to_list (s : string) : of_list (to_list s) = s.
Proof. induction s as [| c s IH]; [reflexivity |]. simpl. now rewrite IH. Qed.

(** On ASCII text the phonetic code is the one of [NameNormalizer]. *)
Lemma soundex_code_ascii (name : string) :
  is_ascii_text name = true ->
  UnicodeNames.soundex_code (codes name) = codes (NameNormalizer.soundex_code name).
Proof.
  intros H. unfold UnicodeNames.soundex_code, NameNormalizer.soundex_code.
  destruct name as [| n0 name']; [reflexivity |].
  rewrite codes_cons, <- codes_cons. cbn [is_empty].
  assert (E1 : UnicodeNames.strip_accents (codes (String n0 name')) = codes (String n0 name')).
  { unfold UnicodeNames.strip_accents. cbn [u_normalize_NFD u_normalize_NFC u_category_is_Mn
      ascii_unicode_str negb]. apply filter_all. }
  assert (E2 : NameNormalizer.strip_accents (String n0 name') = String n0 name').
  { unfold NameNormalizer.strip_accents. cbn [normalize_NFD normalize_NFC category_is_Mn
      ascii_unicodedata negb]. now rewrite filter_all, of_list_to_list. }
  rewrite codes_cons in *. rewrite E1, E2, <- codes_cons.
  destruct (basic_clean_codes _ H) as [E Ha]. rewrite E.
  destruct (NameNormalizer.basic_clean (String n0 name')) as [| c0 tail]; [reflexivity |].
  apply ascii_cons in Ha as [Hc Ht]. rewrite codes_cons. cbv zeta.
  rewrite (filter_alpha_codes tail Ht), <- take_codes.
  rewrite codes_app, (codes_cons (upper_char c0)), codes_of_list. f_equal.
  change (@u_upper ascii_unicode_str [N_of_ascii c0])
    with [on_ascii (fun a => N_of_ascii (upper_char a)) (N_of_ascii c0) (N_of_ascii c0)].
  rewrite (on_ascii_code _ _ _ Hc). cbn [app]. f_equal. f_equal.
  rewrite <- (soundex_filter_codes None), <- !list_fmap_compose. do 2 f_equal.
  apply list_fmap_ext. intros i c _. apply code_codes.
Qed.

End Agreement.



(** An installation for examples: ASCII text, the rapidfuzz that tells
    equal texts from different ones, no optional library, a pandas whose
    calls raise. *)
Section ExampleInstallation.
Import PyStr PyNum Constants MatchEngine.
#[local] Existing Instance ascii_unicodedata.
#[local] Existing Instance exact_rapidfuzz.
#[local] Existing Instance no_optional_libraries.
#[local] Existing Instance failing_pandas.
#[local] Existing Instance plain_builtins.

Lemma exact_scores_not_negative (cfg : MatchConfig) (a b : string) :
  0 <= Scoring._fuzzy_score a b cfg.
Proof.
  unfold Scoring._fuzzy_score, Scoring._enhanced_fuzzy, Scoring._ensemble_score,
    Scoring._semantic_score, Scoring._double_metaphone_score, Scoring._base_fuzzy,
    Scoring.jaro_winkler_score.
  simpl.
  repeat match goal with
         | |- context [if ?c then _ else _] => destruct c
         end; now vm_compute.
Qed.

(** A pair of rows one day apart, with equal last names and different
    first names, under a scoring function without negative scores. *)
Lemma multi_pass_classification_witness :
  classify (config "Ensemble" 85 1 true false false true) 1
    (snd (_detailed_scoring
            (normalize_row (row "Smith" "John" "2024-01-15") (config "Ensemble" 85 1 true false false true))
            (normalize_row (row "Smith" "Jane" "2024-01-16") (config "Ensemble" 85 1 true false false true))
            1 (config "Ensemble" 85 1 true false false true)))
  = stated_multi_pass 85 1 1
      (snd (_detailed_scoring
              (normalize_row (row "Smith" "John" "2024-01-15") (config "Ensemble" 85 1 true false false true))
              (normalize_row (row "Smith" "Jane" "2024-01-16") (config "Ensemble" 85 1 true false false true))
              1 (config "Ensemble" 85 1 true false false true))).
Proof.
  apply (multi_pass_classification (config "Ensemble" 85 1 true false false true)).
  - reflexivity.
  - apply exact_scores_not_negative.
Defined.

(** C3, as stated, fails: at a date difference of 0 the threshold 85 is
    lowered to 77 as well, so a candidate of combined score 80 is retained
    (as Medium), where the statement has it discarded. *)
Lemma single_pass_exact_date_is_relaxed :
  effective_threshold (config "Ensemble" 85 0 true false false false) 0 = 77
  /\ classify (config "Ensemble" 85 0 true false false false) 0 80 = Some "Medium"
  /\ stated_single_pass 85 0 0 80 = None.
Proof. repeat split. Qed.

(** C5, as stated, fails: a row without a last name and a row with one have
    a length-difference ratio of 1 on the last name, and the pair passes the
    quick filter (safe-missing is off). *)
Lemma quick_filter_skips_missing_last_name :
  _quick_filter
    (normalize_row (row "" "John" "2024-01-15") (config "Ensemble" 85 0 true false false true))
    (normalize_row (row "Smith" "John" "2024-01-15") (config "Ensemble" 85 0 true false false true))
    (config "Ensemble" 85 0 true false false true) = true
  /\ (len_diff_ratio
        (len (last_norm (normalize_row (row "" "John" "2024-01-15")
                           (config "Ensemble" 85 0 true false false true))))
        (len (last_norm (normalize_row (row "Smith" "John" "2024-01-15")
                           (config "Ensemble" 85 0 true false false true)))) == 1)%Q.
Proof. split; vm_compute; reflexivity. Qed.

(** The three rejections of the quick filter at concrete pairs: last names
    of lengths 2 and 5, first names of lengths 2 and 6, and last names that
    start differently with different phonetic codes. *)
Lemma quick_filter_rejects_witness :
  _quick_filter
    (normalize_row (row "Li" "John" "2024-01-15") (config "Ensemble" 85 0 true false false true))
    (normalize_row (row "Lions" "John" "2024-01-15") (config "Ensemble" 85 0 true false false true))
    (config "Ensemble" 85 0 true false false true) = false
  /\ _quick_filter
       (normalize_row (row "Smith" "Al" "2024-01-15") (config "Ensemble" 85 0 true false false true))
       (normalize_row (row "Smith" "Albert" "2024-01-15") (config "Ensemble" 85 0 true false false true))
       (config "Ensemble" 85 0 true false false true) = false
  /\ _quick_filter
       (normalize_row (row "Smith" "John" "2024-01-15") (config "Ensemble" 85 0 true false false true))
       (normalize_row (row "Jones" "John" "2024-01-15") (config "Ensemble" 85 0 true false false true))
       (config "Ensemble" 85 0 true false false true) = false.
Proof.
  pose proof (quick_filter_rejects (row "Li" "John" "2024-01-15") (row "Lions" "John" "2024-01-15")
                (config "Ensemble" 85 0 true false false true)) as (H1 & _ & _).
  pose proof (quick_filter_rejects (row "Smith" "Al" "2024-01-15") (row "Smith" "Albert" "2024-01-15")
                (config "Ensemble" 85 0 true false false true)) as (_ & H2 & _).
  pose proof (quick_filter_rejects (row "Smith" "John" "2024-01-15") (row "Jones" "John" "2024-01-15")
                (config "Ensemble" 85 0 true false false true)) as (_ & _ & H3 & _).
  split; [| split].
  - apply H1; vm_compute; [discriminate | discriminate | reflexivity].
  - apply H2; vm_compute; [discriminate | discriminate | reflexivity].
  - apply H3; [vm_compute; discriminate | vm_compute; discriminate | vm_compute; discriminate |].
    intros [_ E]. vm_compute in E. discriminate.
Defined.

#[local] Existing Instance example_recordlinkage.

Lemma quiet_None : quiet None.
Proof. intros cb pct H. discriminate H. Qed.

(** The dates of the example primary table are far from the ends of the
    calendar. *)
Lemma example_primary_in_calendar (algorithm : string) (threshold : Z)
    (phonetic safe_missing show_all multi_pass : bool) :
  in_calendar (config algorithm threshold 1 phonetic safe_missing show_all multi_pass)
    example_primary.
Proof.
  intros i r dt k Hi Hp Hk. simpl in Hk.
  destruct i as [| [| i]]; simpl in Hi; [| | discriminate].
  - injection Hi as <-. vm_compute in Hp. injection Hp as <-.
    change (0 < 738900 - k /\ 738900 + k <= 3652059). lia.
  - injection Hi as <-. vm_compute in Hp. discriminate Hp.
Qed.

(** Single-best mode at the two example tables, with a tolerance of one day. *)
Lemma single_best_mode_witness :
  (forall out, match_tables example_primary example_secondary
                 (config "Ensemble" 85 1 true false false true) None = Ok out ->
     (forall i, (length (rows_of i out) <= 1)%nat)
     /\ (example_secondary <> [] -> forall i e1,
           prepare example_primary (config "Ensemble" 85 1 true false false true) !! i = Some e1 ->
           rows_of i out
           = matched_row i <$> take 1 (sort_matches
               (survivors (config "Ensemble" 85 1 true false false true) example_secondary e1))))
  /\ (exists out, match_tables example_primary example_secondary
                    (config "Ensemble" 85 1 true false false true) None = Ok out)
  /\ (forall rows, sort_matches rows ≡ₚ rows /\ StronglySorted key_order (sort_matches rows))
  /\ (forall rows best, head (sort_matches rows) = Some best ->
        exists l1 l2, rows = (l1 ++ best :: l2)%list /\ Forall (fun m => ~ key_order m best) l1).
Proof.
  destruct (single_best_mode example_primary example_secondary
              (config "Ensemble" 85 1 true false false true) None)
    as (H1 & H2 & H3 & H4); [reflexivity | reflexivity |].
  split; [exact H1 |]. split; [| split; [exact H3 | exact H4]].
  apply H2; [apply quiet_None | apply example_primary_in_calendar].
Defined.

(** The result at the two example tables in single-best mode: the primary
    row with a date gets the secondary row of the same date, the one a day
    later is not emitted, and the row without a date gets nothing. *)
Example single_best_example :
  match_tables example_primary example_secondary
    (config "Ensemble" 85 1 true false false true) None
  = Ok [ {| res_t1 := 0; res_t2 := Some 0%nat; LastName_Score := Some 100;
            FirstName_Score := Some 100; Combined_Score := Some 100; Confidence := "High" |} ].
Proof. vm_compute. reflexivity. Qed.

(** C10 at the example primary table: no placeholder rows in show-all
    mode against an empty secondary table. *)
Lemma empty_input_gives_empty_result_witness :
  match_tables [] example_secondary (config "Ensemble" 85 1 true false true true) None = Ok []
  /\ match_tables example_primary [] (config "Ensemble" 85 1 true false true true) None = Ok [].
Proof.
  apply (empty_input_gives_empty_result example_primary example_secondary
           (config "Ensemble" 85 1 true false true true) None).
  reflexivity.
Defined.

(** The result at the example tables in show-all mode. *)
Example show_all_example :
  match_tables example_primary example_secondary
    (config "Ensemble" 85 1 true false true true) None
  = Ok [ {| res_t1 := 0; res_t2 := Some 0%nat; LastName_Score := Some 100;
            FirstName_Score := Some 100; Combined_Score := Some 100; Confidence := "High" |};
         {| res_t1 := 0; res_t2 := Some 1%nat; LastName_Score := Some 100;
            FirstName_Score := Some 100; Combined_Score := Some 100; Confidence := "Medium" |};
         no_match_row 1 ].
Proof. vm_compute. reflexivity. Qed.

Lemma combined_score_in_range_witness :
  exists out,
    match_tables example_primary example_secondary
      (config "Ensemble" 85 1 true false true true) None = Ok out
    /\ Forall (fun r => forall c, Combined_Score r = Some c -> 0 <= c <= 100) out.
Proof.
  eexists. split; [vm_compute; reflexivity |].
  apply (combined_score_in_range example_primary example_secondary
           (config "Ensemble" 85 1 true false true true) None);
    [reflexivity | vm_compute; discriminate | vm_compute; reflexivity].
Defined.

(** The standard pipeline does not handle what the progress callback
    raises, nor the overflow of a date: a primary row dated 0001-01-01 has
    no day before it. *)
Example standard_pipeline_raises :
  match_tables example_primary example_secondary
    (config "Ensemble" 85 1 true false false true) (Some (fun _ => Raise "RuntimeError"))
  = Raise "RuntimeError"
  /\ match_tables [row "Smith" "John" "0001-01-01"] example_secondary
       (config "Ensemble" 85 1 true false false true) None
     = Raise "OverflowError"
  /\ match_tables [row "Smith" "John" "0001-01-01"] example_secondary
       (config "Ensemble" 85 0 true false false true) None
     = Ok [].
Proof. repeat split; vm_compute; reflexivity. Qed.

(** C1 fails on the record-linkage path: a primary and a secondary row with
    the same names and date have the feature vector (1, 1, 1), whose sum
    scaled by 100 is a combined score of 300. *)
Theorem record_linkage_combined_score_300 :
  match_tables [row "Smith" "John" "2024-01-15"] [row "Smith" "John" "2024-01-15"]
    (config "Record Linkage" 85 0 true false false true) None
  = Ok [ {| res_t1 := 0; res_t2 := Some 0%nat; LastName_Score := Some 100;
            FirstName_Score := Some 100; Combined_Score := Some 300; Confidence := "High" |} ].
Proof. vm_compute. reflexivity. Qed.

(** The table on that path in single-best mode, with two secondary rows
    on the date of the primary row: a row for each (and a pair with
    different names still has a combined score of 100, from the date
    feature alone). *)
Example record_linkage_two_rows_for_one_primary :
  match_tables [row "Smith" "John" "2024-01-15"]
    [row "Smith" "John" "2024-01-15"; row "Jones" "Al" "2024-01-15"]
    (config "Record Linkage" 85 0 true false false true) None
  = Ok [ {| res_t1 := 0; res_t2 := Some 0%nat; LastName_Score := Some 100;
            FirstName_Score := Some 100; Combined_Score := Some 300; Confidence := "High" |};
         {| res_t1 := 0; res_t2 := Some 1%nat; LastName_Score := Some 0;
            FirstName_Score := Some 0; Combined_Score := Some 100; Confidence := "High" |} ].
Proof. vm_compute. reflexivity. Qed.


(** The record-linkage path at the example tables in show-all mode: the
    primary row without a date is in no matched row and gets a
    placeholder. *)
Example record_linkage_skips_rows_without_date :
  match_tables example_primary example_secondary
    (config "Record Linkage" 85 0 true false true true) None
  = Ok [ {| res_t1 := 0; res_t2 := Some 0%nat; LastName_Score := Some 100;
            FirstName_Score := Some 100; Combined_Score := Some 300; Confidence := "High" |};
         no_match_row 1 ].
Proof. vm_compute. reflexivity. Qed.

(** The same call with a library whose blocking raises, and with a
    progress callback that raises: the empty table. *)
Example record_linkage_failure_example :
  RecordLinkage.match_with_recordlinkage (R:=raising_recordlinkage)
    example_primary example_secondary (85 # 100) true None = []
  /\ RecordLinkage.match_with_recordlinkage
       example_primary example_secondary (85 # 100) true (Some (fun _ => Raise "RuntimeError")) = [].
Proof. split; vm_compute; reflexivity. Qed.

(** The candidates of the first example row, with a tolerance of one day,
    are within a day of its date. *)
Lemma find_candidates_within_witness :
  exists candidates,
    find_candidates (config "Ensemble" 85 1 true false false true)
      (build_date_index (prepare example_secondary (config "Ensemble" 85 1 true false false true)))
      738900 = Ok candidates
    /\ length candidates = 2%nat
    /\ Forall (within_tolerance (config "Ensemble" 85 1 true false false true) 738900) candidates.
Proof.
  eexists. split; [vm_compute; reflexivity |]. split; [reflexivity |].
  apply (find_candidates_within (config "Ensemble" 85 1 true false false true)
           (build_date_index
              (prepare example_secondary (config "Ensemble" 85 1 true false false true)))).
  - apply build_date_index_sound.
  - vm_compute. reflexivity.
Defined.

(** Show-all mode at the example tables: no pair occurs twice. *)
Lemma standard_pipeline_pairs_unique_witness :
  exists out,
    standard_pipeline example_primary example_secondary
      (config "Ensemble" 85 1 true false true true) None = Ok out
    /\ NoDup (omap matched_pair out).
Proof.
  eexists. split; [vm_compute; reflexivity |].
  apply (standard_pipeline_pairs_unique example_primary example_secondary
           (config "Ensemble" 85 1 true false true true) None);
    [reflexivity | vm_compute; reflexivity].
Defined.

(** Show-all mode at the example tables: the second primary row, whose
    date is the text N/A, gets the placeholder and nothing else. *)
Lemma standard_pipeline_row_without_date_witness :
  exists out,
    standard_pipeline example_primary example_secondary
      (config "Ensemble" 85 1 true false true true) None = Ok out
    /\ rows_of 1 out = [no_match_row 1].
Proof.
  eexists. split; [vm_compute; reflexivity |].
  apply (standard_pipeline_row_without_date example_primary example_secondary
           (config "Ensemble" 85 1 true false true true) None _ 1 (row "Jones" "Al" "N/A")).
  - reflexivity.
  - discriminate.
  - reflexivity.
  - vm_compute. reflexivity.
  - vm_compute. reflexivity.
Defined.

(** The prepositions of a compound surname join the word after them: two
    tokens for de la Cruz, not three. *)
Example compound_surname_tokens :
  NameNormalizer.join_compound (NameNormalizer.split "de la cruz") = ["de la"; "cruz"]
  /\ NameNormalizer.normalize_component "de la Cruz" true = "de la cruz"
  /\ NameNormalizer.join_compound (NameNormalizer.split "van der berg") = ["van der"; "berg"].
Proof. repeat split. Qed.

(** *** The added properties at the example installation *)

Lemma ascii_unaccented (s : string) : NameNormalizer.strip_accents s = s.
Proof.
  unfold NameNormalizer.strip_accents. simpl.
  induction s as [| c s IH]; [reflexivity |]. simpl. now rewrite IH.
Qed.

Lemma exact_rapidfuzz_range : RapidFuzzRange exact_rapidfuzz.
Proof.
  split; intros a b; simpl; destruct (String.eqb a b); try lia; split; discriminate.
Qed.

(** The candidates of 2024-01-15 in the example secondary table, with a
    tolerance of one day: both rows. *)
Lemma find_candidates_exact_witness :
  exists candidates,
    NoDup (fst <$> prepare example_secondary (config "Ensemble" 85 1 true false false true))
    /\ find_candidates (config "Ensemble" 85 1 true false false true)
         (build_date_index (prepare example_secondary (config "Ensemble" 85 1 true false false true)))
         738900 = Ok candidates
    /\ length candidates = 2%nat
    /\ NoDup (fst <$> candidates)
    /\ (forall e, e ∈ candidates
          <-> e ∈ prepare example_secondary (config "Ensemble" 85 1 true false false true)
              /\ within_tolerance (config "Ensemble" 85 1 true false false true) 738900 e).
Proof.
  eexists. split; [apply prepare_NoDup |]. split; [vm_compute; reflexivity |].
  split; [reflexivity |].
  apply (find_candidates_exact (config "Ensemble" 85 1 true false false true)
           (prepare example_secondary (config "Ensemble" 85 1 true false false true)) 738900).
  - apply prepare_NoDup.
  - vm_compute. reflexivity.
Defined.

(** Show-all mode at the example tables: the rows of the first primary row
    and the placeholder of the second. *)
Lemma show_all_mode_witness :
  exists out,
    standard_pipeline example_primary example_secondary
      (config "Ensemble" 85 1 true false true true) None = Ok out
    /\ length out = 3%nat
    /\ out = flat_map (show_all_rows (config "Ensemble" 85 1 true false true true) example_secondary)
               (prepare example_primary (config "Ensemble" 85 1 true false true true))
    /\ (forall i e1,
          prepare example_primary (config "Ensemble" 85 1 true false true true) !! i = Some e1 ->
          rows_of i out
          = show_all_rows (config "Ensemble" 85 1 true false true true) example_secondary e1).
Proof.
  eexists. split; [vm_compute; reflexivity |]. split; [reflexivity |].
  apply (show_all_mode example_primary example_secondary
           (config "Ensemble" 85 1 true false true true) None).
  - reflexivity.
  - discriminate.
  - vm_compute. reflexivity.
Defined.

(** Tony is read as Anthony, and Anthony as itself. *)
Lemma canonical_first_name_idempotent_witness :
  (forall s, NameNormalizer.strip_accents s = s)
  /\ NameNormalizer.canonical_first_name "Tony" = "anthony"
  /\ NameNormalizer.canonical_first_name (NameNormalizer.canonical_first_name "Tony")
     = NameNormalizer.canonical_first_name "Tony".
Proof.
  split; [exact ascii_unaccented |]. split; [reflexivity |].
  apply (canonical_first_name_idempotent ascii_unaccented "Tony").
Defined.

(** The score of two different names under the exact rapidfuzz. *)
Lemma fuzzy_score_range_witness :
  RapidFuzzRange exact_rapidfuzz
  /\ 0 <= Scoring._fuzzy_score "smith" "smyth" (config "Ensemble" 85 1 true false false true) <= 100.
Proof.
  split; [exact exact_rapidfuzz_range |].
  apply (fuzzy_score_range exact_rapidfuzz_range "smith" "smyth"
           (config "Ensemble" 85 1 true false false true)).
  right. discriminate.
Defined.

(** A combined score of 72 one day apart at threshold 85: kept by
    multi-pass classification (from 70), dropped by single-pass
    classification (from 77). *)
Lemma multi_pass_floor_witness :
  0 <= threshold (config "Ensemble" 85 1 true false false true)
  /\ 1 <= date_tolerance_days (config "Ensemble" 85 1 true false false true)
  /\ classify_multi_pass (config "Ensemble" 85 1 true false false true) 1 72 = Some "Low"
  /\ classify_single_pass (config "Ensemble" 85 1 true false false true) 1 72 = None
  /\ (classify_multi_pass (config "Ensemble" 85 1 true false false true) 1 72 <> None
      <-> Z.max 0 (threshold (config "Ensemble" 85 1 true false false true) - 15) <= 72).
Proof.
  split; [simpl; lia |]. split; [simpl; lia |]. split; [reflexivity |]. split; [reflexivity |].
  apply (multi_pass_floor (config "Ensemble" 85 1 true false false true) 1 72); simpl; lia.
Defined.

(** 15/01/2024 is read as the 15th of January. *)
Lemma try_common_formats_day_first_witness :
  Calendar.valid_date (Calendar.mkdate 2024 1 15) = true
  /\ render_dmy (Calendar.mkdate 2024 1 15) = "15/01/2024"
  /\ exists dt, DateNormalizer._try_common_formats (render_dmy (Calendar.mkdate 2024 1 15)) = Some dt
                /\ Calendar.ymd dt = Calendar.mkdate 2024 1 15 /\ Calendar.time_part dt = 0.
Proof.
  split; [reflexivity |]. split; [reflexivity |].
  apply (try_common_formats_day_first (Calendar.mkdate 2024 1 15)). reflexivity.
Defined.

(** 03/04/2024, written month first for the 4th of March, is read as the
    3rd of April. *)
Lemma try_common_formats_month_first_witness :
  Calendar.valid_date (Calendar.mkdate 2024 3 4) = true
  /\ render_mdy (Calendar.mkdate 2024 3 4) = "03/04/2024"
  /\ exists dt, DateNormalizer._try_common_formats (render_mdy (Calendar.mkdate 2024 3 4)) = Some dt
                /\ Calendar.ymd dt = Calendar.mkdate 2024 4 3 /\ Calendar.time_part dt = 0.
Proof.
  split; [reflexivity |]. split; [reflexivity |].
  apply (try_common_formats_month_first (Calendar.mkdate 2024 3 4)). reflexivity.
Defined.

(** The documented recordlinkage at the example tables: the one matched
    row is High. *)
Lemma record_linkage_confidence_is_high_witness :
  (forall pairs features,
     @rl_index example_recordlinkage (RecordLinkage.clean example_primary)
       (RecordLinkage.clean example_secondary) = Ok pairs ->
     @rl_compute example_recordlinkage pairs (RecordLinkage.clean example_primary)
       (RecordLinkage.clean example_secondary) = Ok features ->
     blocked_features features)
  /\ length (@RecordLinkage.match_with_recordlinkage _ _ example_recordlinkage
               example_primary example_secondary (85 # 100) false None) = 1%nat
  /\ Forall high_match
       (@RecordLinkage.match_with_recordlinkage _ _ example_recordlinkage
          example_primary example_secondary (85 # 100) false None).
Proof.
  assert (H : forall pairs features,
     @rl_index example_recordlinkage (RecordLinkage.clean example_primary)
       (RecordLinkage.clean example_secondary) = Ok pairs ->
     @rl_compute example_recordlinkage pairs (RecordLinkage.clean example_primary)
       (RecordLinkage.clean example_secondary) = Ok features ->
     blocked_features features).
  { intros pairs features Hi Hc. vm_compute in Hi. injection Hi as <-.
    vm_compute in Hc. injection Hc as <-.
    repeat constructor; simpl; discriminate. }
  split; [exact H |]. split; [reflexivity |].
  apply (@record_linkage_confidence_is_high _ _ example_recordlinkage
           example_primary example_secondary (85 # 100) false None H).
Defined.

(** No date of the primary table is read: the empty table, in show-all
    mode too. *)
Lemma record_linkage_nothing_blocked_witness :
  (Forall (fun r => DateNormalizer.parse_date_safe (row_date r) = None) [row "Jones" "Al" "N/A"]
   \/ Forall (fun r => DateNormalizer.parse_date_safe (row_date r) = None) example_secondary
   \/ @rl_index example_recordlinkage (RecordLinkage.clean [row "Jones" "Al" "N/A"])
        (RecordLinkage.clean example_secondary) = Ok [])
  /\ @RecordLinkage.match_with_recordlinkage _ _ example_recordlinkage
       [row "Jones" "Al" "N/A"] example_secondary (85 # 100) true None = [].
Proof.
  assert (H : Forall (fun r => DateNormalizer.parse_date_safe (row_date r) = None)
                [row "Jones" "Al" "N/A"]).
  { repeat constructor. }
  split; [now left |].
  apply (@record_linkage_nothing_blocked _ _ example_recordlinkage
           [row "Jones" "Al" "N/A"] example_secondary (85 # 100) true None).
  now left.
Defined.

(** The line of the raw log that the source quotes. *)
Lemma extract_name_round_trip_witness :
  is_ascii_text ("Gardiner" ++ ", " ++ "Norman" ++ " has " ++ "checked in Inspected room 0214")
  = true
  /\ "Gardiner" <> "" /\ "Norman" <> ""
  /\ strip "Gardiner" = "Gardiner" /\ strip "Norman" = "Norman"
  /\ no_char "," "Gardiner"
  /\ FileLoader.find " has " (lower ("Gardiner" ++ ", " ++ "Norman") ++ " has") = None
  /\ FileLoader.extract_name
       ("Gardiner" ++ ", " ++ "Norman" ++ " has " ++ "checked in Inspected room 0214")
     = ("Gardiner", "Norman").
Proof.
  assert (Hc : no_char "," "Gardiner").
  { unfold no_char. simpl. rewrite !not_elem_of_cons. repeat split; try discriminate.
    apply not_elem_of_nil. }
  split; [reflexivity |].
  split; [discriminate |]. split; [discriminate |]. split; [reflexivity |].
  split; [reflexivity |]. split; [exact Hc |]. split; [reflexivity |].
  apply (extract_name_round_trip "Gardiner" "Norman" "checked in Inspected room 0214");
    try discriminate; try reflexivity. exact Hc.
Defined.

(** The cells 7 and 9, the second with spaces around it: buckets 0 and
    10. *)
Lemma categorize_itr_buckets_witness :
  @reads_as _ integer_float_parser (VStr "7") 7
  /\ @reads_as _ integer_float_parser (VStr " 9 ") 9
  /\ @ItrCategorizer.categorize_itr _ integer_float_parser (VStr "7") = Some 0
  /\ (@ItrCategorizer.categorize_itr _ integer_float_parser (VStr "7") = Some 0 <-> (7 <= 7)%Q).
Proof.
  assert (H1 : @reads_as _ integer_float_parser (VStr "7") 7).
  { split; [discriminate |]. split; [discriminate | reflexivity]. }
  assert (H2 : @reads_as _ integer_float_parser (VStr " 9 ") 9).
  { split; [discriminate |]. split; [discriminate | reflexivity]. }
  split; [exact H1 |]. split; [exact H2 |]. split; [reflexivity |].
  apply (@categorize_itr_buckets _ integer_float_parser (VStr "7") (VStr " 9 ") 7 9 H1 H2).
Defined.

(** The serial 45306 is 2024-01-15. *)
Lemma parse_date_excel_serial_witness :
  1 <= 45306 <= 100000
  /\ (Calendar.ymd <$> DateNormalizer.parse_date_safe (VInt 45306))
     = Some (Calendar.mkdate 2024 1 15)
  /\ exists dt, DateNormalizer.parse_date_safe (VInt 45306) = Some dt
                /\ Calendar.toordinal (Calendar.ymd dt)
                   = Calendar.toordinal DateNormalizer.excel_epoch + 45306
                /\ Calendar.time_part dt = 0.
Proof.
  split; [lia |]. split; [vm_compute; reflexivity |].
  apply (parse_date_excel_serial 45306). lia.
Defined.

(** The float 45306.5 is read as the serial 45306. *)
Lemma parse_date_excel_serial_float_witness :
  (1 <= 90613 # 2 <= 100000)%Q
  /\ is_empty (strip (str_of_float (90613 # 2))) = false
  /\ (lower (strip (str_of_float (90613 # 2))) ∉ DateNormalizer.null_words)
  /\ exists dt, DateNormalizer.parse_date_safe (VFloat (Some (90613 # 2))) = Some dt
                /\ Calendar.toordinal (Calendar.ymd dt)
                   = Calendar.toordinal DateNormalizer.excel_epoch + py_int (90613 # 2)
                /\ Calendar.time_part dt = 0.
Proof.
  assert (Hr : (1 <= 90613 # 2 <= 100000)%Q) by (split; discriminate).
  assert (Hw : lower (strip (str_of_float (90613 # 2))) ∉ DateNormalizer.null_words).
  { apply (proj1 (bool_decide_eq_false _)). vm_compute. reflexivity. }
  split; [exact Hr |]. split; [reflexivity |]. split; [exact Hw |].
  apply (parse_date_excel_serial_float (90613 # 2) Hr); [reflexivity | exact Hw].
Defined.

(** C4, as stated, fails: at threshold 5, with a semantic model whose
    cosine is negative on different texts, a pair one day apart passes the
    quick filter and gets the combined score -2; that reaches the threshold
    less 10, so C4 calls the pair Medium, but it does not reach 0, and the
    pair is discarded: the table is empty. *)
Lemma multi_pass_negative_score_discarded :
  _quick_filter (normalize_row (row "Smith" "John" "2024-01-15") (config "Semantic Matching" 5 1 false false false true))
    (normalize_row (row "Smyth" "Jack" "2024-01-16") (config "Semantic Matching" 5 1 false false false true)) (config "Semantic Matching" 5 1 false false false true) = true
  /\ snd (@_detailed_scoring _ _ distant_semantic_model
            (normalize_row (row "Smith" "John" "2024-01-15") (config "Semantic Matching" 5 1 false false false true))
            (normalize_row (row "Smyth" "Jack" "2024-01-16") (config "Semantic Matching" 5 1 false false false true))
            1 (config "Semantic Matching" 5 1 false false false true)) = -2
  /\ 1 <= date_tolerance_days (config "Semantic Matching" 5 1 false false false true)
  /\ threshold (config "Semantic Matching" 5 1 false false false true) - 10 <= -2
  /\ stated_multi_pass (threshold (config "Semantic Matching" 5 1 false false false true))
       (date_tolerance_days (config "Semantic Matching" 5 1 false false false true)) 1 (-2) = Some "Medium"
  /\ classify (config "Semantic Matching" 5 1 false false false true) 1 (-2) = None
  /\ @match_tables _ _ distant_semantic_model _ _ example_recordlinkage
       [row "Smith" "John" "2024-01-15"] [row "Smyth" "Jack" "2024-01-16"]
       (config "Semantic Matching" 5 1 false false false true) None = Ok [].
Proof. vm_compute. repeat split; discriminate. Qed.

(** C4, as amended, at a combined score of 76 one day apart, at threshold
    85: Medium. *)
Lemma multi_pass_classification_clamped_witness :
  enable_multi_pass (config "Ensemble" 85 1 true false false true) = true
  /\ classify (config "Ensemble" 85 1 true false false true) 1 76 = Some "Medium"
  /\ (classify (config "Ensemble" 85 1 true false false true) 1 76 = Some "Medium"
      <-> ~ (1 = 0 /\ threshold (config "Ensemble" 85 1 true false false true) <= 76)
          /\ 1 <= date_tolerance_days (config "Ensemble" 85 1 true false false true)
          /\ Z.max 0 (threshold (config "Ensemble" 85 1 true false false true) - 10) <= 76).
Proof.
  split; [reflexivity |]. split; [reflexivity |].
  apply (multi_pass_classification_clamped (config "Ensemble" 85 1 true false false true) 1 76).
  reflexivity.
Defined.

(** C7 fails on the record-linkage path: in single-best mode two secondary
    rows on the date of a primary row give two rows for that primary
    row. *)
Lemma record_linkage_single_best_two_rows :
  show_all_matches (config "Record Linkage" 85 0 true false false true) = false
  /\ exists out,
       match_tables [row "Smith" "John" "2024-01-15"]
         [row "Smith" "John" "2024-01-15"; row "Jones" "Al" "2024-01-15"]
         (config "Record Linkage" 85 0 true false false true) None = Ok out
       /\ res_t2 <$> rows_of 0 out = [Some 0%nat; Some 1%nat]
       /\ length (rows_of 0 out) = 2%nat.
Proof.
  split; [reflexivity |]. eexists. split; [vm_compute; reflexivity |].
  split; reflexivity.
Qed.

End ExampleInstallation.
